(** * The component container and its pipeline interpreter

    A shallow embedding of [packages/core/src/container.ts] (class
    [Container]) and of the default compiler that follows it in the same
    file (class [DefaultCompiler]).

    Modelling conventions.
    - A JavaScript string is a [string] whose characters are UTF-16 code
      units below 256.
    - A JavaScript number is an integer of magnitude at most 2^53 ([VNum])
      or NaN ([VNaN]); an operation that would leave that range, and an
      operation on operand kinds whose host semantics is not embedded
      (string to number conversion, identity of function objects, ...),
      yields the outcome [Unsupported] and is never given a made-up value.
    - A JavaScript object lives in a heap, is addressed by its location and
      carries its own properties in insertion order together with the name
      of the class that built it; what that class adds to its instances is
      a set of methods, supplied by the host ([class_method]).
      [Object.keys] is the insertion order (keys are taken not to be array
      indices).
    - The members of [Object.prototype] ([Js.objectKeys]) are functions, or
      the prototype itself under [__proto__], and the embedding has no
      value for them.  Where the source reads one of them from an object
      or from a record used as a map, and the outcome is plain from the
      source (an error raised, a guard that holds), that outcome is given;
      elsewhere the outcome is [Unsupported].  Assigning to [__proto__]
      where it is no own property stores nothing when the value is a
      primitive, and is [Unsupported] when the value would become the
      prototype.  The members of a string other than [length] and its
      indices, and the methods of numbers, booleans and functions, are
      [Unsupported] as well; a function of the host has no properties
      beyond those of every function.
    - The containers of the embedding hold one compiler, the
      [DefaultCompiler] that the constructor registers under [default].
    - Host code (component methods and constructors) is a parameter
      ([host_call]): it may read and write the heap and may throw.  Every
      function of the host can be called and can be used with [new].  A
      host function that returns a promise is represented by the value the
      promise settles to, since every call site that runs host code from a
      pipeline awaits it.
    - [trace] is ghost state: it records every host call and every
      activation of the interpreter, so that statements about how often
      something runs can be written down.
    - Loops that the source does not bound take a fuel argument; running
      out of it is the outcome [OutOfFuel]. *)

From Stdlib Require Import ZArith List String Ascii Bool Lia.
From stdpp Require Import base list.
Import ListNotations.

#[local] Set Warnings "-register-all".
#[local] Open Scope string_scope.
#[local] Open Scope Z_scope.

(** ** JavaScript strings *)

Module JsString.

(** White space and line terminators removed by [String.prototype.trim],
    among the code units below 256. *)
Definition is_space (c : ascii) : bool :=
  let n := nat_of_ascii c in
  existsb (Nat.eqb n) [9; 10; 11; 12; 13; 32; 160]%nat.

Fixpoint dropSpaces (l : list ascii) : list ascii :=
  match l with
  | [] => []
  | c :: r => if is_space c then dropSpaces r else l
  end.

Definition trim (s : string) : string :=
  string_of_list_ascii
    (rev (dropSpaces (rev (dropSpaces (list_ascii_of_string s))))).

(** [s.split(sep)] for a separator of one character. *)
Fixpoint split (sep : ascii) (s : string) : list string :=
  match s with
  | EmptyString => [EmptyString]
  | String c r =>
      if Ascii.eqb c sep then EmptyString :: split sep r
      else match split sep r with
           | w :: ws => String c w :: ws
           | [] => [String c EmptyString]
           end
  end.

Definition join (sep : string) (l : list string) : string :=
  String.concat sep l.

Definition startsWith (s p : string) : bool := String.prefix p s.

Definition endsWith (s p : string) : bool :=
  let n := String.length s in
  let m := String.length p in
  (m <=? n)%nat && String.eqb (substring (n - m) m s) p.

(** [s.slice(n)] for [0 <= n]. *)
Fixpoint slice (n : nat) (s : string) : string :=
  match n, s with
  | O, _ => s
  | S k, String _ r => slice k r
  | S _, EmptyString => EmptyString
  end.

Definition is_digit (c : ascii) : bool :=
  let n := nat_of_ascii c in (48 <=? n)%nat && (n <=? 57)%nat.

Fixpoint all_digits (s : string) : bool :=
  match s with
  | EmptyString => true
  | String c r => is_digit c && all_digits r
  end.

(** [/^\d+$/.test(s)] *)
Definition isnum (s : string) : bool :=
  negb (String.eqb s EmptyString) && all_digits s.

Fixpoint digits_value (acc : Z) (s : string) : Z :=
  match s with
  | EmptyString => acc
  | String c r => digits_value (10 * acc + (Z.of_nat (nat_of_ascii c) - 48)) r
  end.

(** The characters the regular expression dot refuses. *)
Definition is_line_terminator (c : ascii) : bool :=
  let n := nat_of_ascii c in (n =? 10)%nat || (n =? 13)%nat.

(** [token.replace(/^q(.+(?=q$))q$/, '$1')] for a quote character [q]: the
    outer quotes go when the token is [q], one or more characters none of
    which ends a line, [q]; any other token stays as it is. *)
Definition stripQuotes (q : ascii) (token : string) : string :=
  match list_ascii_of_string token with
  | c :: rest =>
      match rev rest with
      | d :: mid =>
          if Ascii.eqb c q && Ascii.eqb d q
             && negb (Nat.eqb (List.length mid) 0)
             && forallb (fun x => negb (is_line_terminator x)) mid
          then string_of_list_ascii (rev mid)
          else token
      | [] => token
      end
  | [] => token
  end.

(** Decimal digits of a natural number, for [String(n)]. *)
Fixpoint nat_digits (fuel n : nat) (acc : string) : string :=
  match fuel with
  | O => acc
  | S f =>
      let acc' := String (ascii_of_nat (48 + n mod 10)) acc in
      if (n <? 10)%nat then acc' else nat_digits f (n / 10) acc'
  end.

Definition of_Z (z : Z) : string :=
  let n := Z.to_nat (Z.abs z) in
  let d := nat_digits (S n) n EmptyString in
  if z <? 0 then String "-" d else d.

(** The string made of one double quote. *)
Definition dquote : string := String "034" EmptyString.

(** Comparison of strings by code units, as [<] does on two strings. *)
Fixpoint ltb (a b : string) : bool :=
  match a, b with
  | _, EmptyString => false
  | EmptyString, String _ _ => true
  | String x r, String y t =>
      let nx := nat_of_ascii x in
      let ny := nat_of_ascii y in
      if (nx <? ny)%nat then true
      else if (ny <? nx)%nat then false
      else ltb r t
  end.

End JsString.

(** ** Values, objects and the heap *)

(** Locations in the heap are natural numbers. *)
Abbreviation loc := nat (only parsing).

(** The values a pipeline handles.  [VFun f this] is the host function (or
    class) named [f], bound to the object at [this] when [this] is given;
    [VContainer] is the container itself, handed to constructors and
    opaque to the pipeline language. *)
Inductive Value : Type :=
| VUndef
| VNull
| VBool (b : bool)
| VNum (n : Z)
| VNaN
| VStr (s : string)
| VObj (l : loc)
| VFun (f : string) (this : option loc)
| VContainer.

(** An object: the name of its constructor and its own enumerable
    properties, oldest first. *)
Record obj : Type := mkObj { cls : string; props : list (string * Value) }.

(** Records used as maps from strings ([Record<string, T>]). *)
Module Dict.

Fixpoint get {V : Type} (k : string) (d : list (string * V)) : option V :=
  match d with
  | [] => None
  | (k', v) :: r => if String.eqb k k' then Some v else get k r
  end.

(** [d[k] = v]: an existing key keeps its place, a new key goes last. *)
Fixpoint put {V : Type} (k : string) (v : V) (d : list (string * V))
  : list (string * V) :=
  match d with
  | [] => [(k, v)]
  | (k', v') :: r =>
      if String.eqb k k' then (k, v) :: r else (k', v') :: put k v r
  end.

(** [delete d[k]] *)
Fixpoint remove {V : Type} (k : string) (d : list (string * V))
  : list (string * V) :=
  match d with
  | [] => []
  | (k', v') :: r =>
      if String.eqb k k' then remove k r else (k', v') :: remove k r
  end.

(** Whether [d[k]] is there. *)
Definition has {V : Type} (k : string) (d : list (string * V)) : bool :=
  match get k d with Some _ => true | None => false end.

(** [Object.keys(d)] *)
Definition keys {V : Type} (d : list (string * V)) : list string :=
  map fst d.

(** [Object.assign(d, src)], for a [d] that holds what is assigned as
    data. *)
Definition assign {V : Type} (d src : list (string * V))
  : list (string * V) :=
  fold_left (fun acc kv => put (fst kv) (snd kv) acc) src d.

(** [d[k] = v] runs the setter that [Object.prototype] has under
    [__proto__], and stores no property: the key is [__proto__] and [d] has
    no property of that name. *)
Definition setsPrototype {V : Type} (k : string) (d : list (string * V))
  : bool :=
  String.eqb k "__proto__" && negb (has k d).

End Dict.

(** ** The primitive operations of the host language *)

Module Js.

Definition truthy (v : Value) : bool :=
  match v with
  | VUndef | VNull | VNaN => false
  | VBool b => b
  | VNum n => negb (n =? 0)
  | VStr s => negb (String.eqb s EmptyString)
  | VObj _ | VFun _ _ | VContainer => true
  end.

Definition is_function (v : Value) : bool :=
  match v with VFun _ _ => true | _ => false end.

(** [f.bind(this)]: a function that is bound already keeps its receiver. *)
Definition bind (f : Value) (this : Value) : Value :=
  match f, this with
  | VFun n None, VObj l => VFun n (Some l)
  | _, _ => f
  end.

Definition max_safe : Z := 2 ^ 53.

Definition in_range (z : Z) : bool := (- max_safe <=? z) && (z <=? max_safe).

(** A number whose mathematical value is the integer [z]. *)
Definition number (z : Z) : option Value :=
  if in_range z then Some (VNum z) else None.

(** [ToNumber] on the primitives; [None] where it is not embedded.  The
    inner option is [None] for NaN. *)
Definition toNumber (v : Value) : option (option Z) :=
  match v with
  | VUndef | VNaN => Some None
  | VNull => Some (Some 0)
  | VBool b => Some (Some (if b then 1 else 0))
  | VNum n => Some (Some n)
  | VStr _ | VObj _ | VFun _ _ | VContainer => None
  end.

(** [ToString] on the primitives. *)
Definition toString (v : Value) : option string :=
  match v with
  | VUndef => Some "undefined"
  | VNull => Some "null"
  | VBool b => Some (if b then "true" else "false")
  | VNum n => Some (JsString.of_Z n)
  | VNaN => Some "NaN"
  | VStr s => Some s
  | VObj _ | VFun _ _ | VContainer => None
  end.

Definition is_string (v : Value) : bool :=
  match v with VStr _ => true | _ => false end.

(** [a + b] *)
Definition add (a b : Value) : option Value :=
  if is_string a || is_string b then
    match toString a, toString b with
    | Some x, Some y => Some (VStr (x ++ y))
    | _, _ => None
    end
  else
    match toNumber a, toNumber b with
    | Some (Some x), Some (Some y) => number (x + y)
    | Some _, Some _ => Some VNaN
    | _, _ => None
    end.

(** [a - b] *)
Definition sub (a b : Value) : option Value :=
  match toNumber a, toNumber b with
  | Some (Some x), Some (Some y) => number (x - y)
  | Some _, Some _ => Some VNaN
  | _, _ => None
  end.

(** [a === b]; [None] when the answer rests on the identity of function
    objects or of the container. *)
Definition strictEq (a b : Value) : option bool :=
  match a, b with
  | VFun _ _, VFun _ _ => None
  | VContainer, VContainer => None
  | VUndef, VUndef => Some true
  | VNull, VNull => Some true
  | VBool x, VBool y => Some (Bool.eqb x y)
  | VNum x, VNum y => Some (x =? y)
  | VStr x, VStr y => Some (String.eqb x y)
  | VObj x, VObj y => Some (Nat.eqb x y)
  | _, _ => Some false
  end.

(** The abstract relational comparison behind [<], [>], [<=] and [>=]:
    [Some None] is its undefined answer (an operand is NaN). *)
Definition lessThan (a b : Value) : option (option bool) :=
  match a, b with
  | VStr x, VStr y => Some (Some (JsString.ltb x y))
  | _, _ =>
      match toNumber a, toNumber b with
      | Some (Some x), Some (Some y) => Some (Some (x <? y))
      | Some _, Some _ => Some None
      | _, _ => None
      end
  end.

Definition lt (a b : Value) : option bool :=
  option_map (fun r => match r with Some true => true | _ => false end)
             (lessThan a b).

Definition gt (a b : Value) : option bool := lt b a.

Definition le (a b : Value) : option bool :=
  option_map (fun r => match r with Some false => true | _ => false end)
             (lessThan b a).

Definition ge (a b : Value) : option bool := le b a.

(** A string that is the canonical spelling of an array index. *)
Definition index_of (k : string) : option nat :=
  if JsString.isnum k
     && (String.eqb k "0" || negb (JsString.startsWith k "0"))
  then Some (Z.to_nat (JsString.digits_value 0 k))
  else None.

Definition among (k : string) (keys : list string) : bool :=
  existsb (String.eqb k) keys.

(** The string keys of [Object.prototype]. *)
Definition objectKeys : list string :=
  ["constructor"; "__defineGetter__"; "__defineSetter__"; "hasOwnProperty";
   "__lookupGetter__"; "__lookupSetter__"; "isPrototypeOf";
   "propertyIsEnumerable"; "toString"; "valueOf"; "__proto__";
   "toLocaleString"].

(** [k] names a member that every object inherits. *)
Definition inherited (k : string) : bool := among k objectKeys.

(** The keys that [Number.prototype] adds to them. *)
Definition numberKeys : list string :=
  ["toExponential"; "toFixed"; "toPrecision"].

(** The keys that a function and [Function.prototype] add to them. *)
Definition functionKeys : list string :=
  ["length"; "name"; "prototype"; "arguments"; "caller"; "apply"; "bind";
   "call"].

(** A value that can be a prototype: an object or [null]. *)
Definition is_prototype (v : Value) : bool :=
  match v with
  | VNull | VObj _ | VFun _ _ | VContainer => true
  | _ => false
  end.

(** A value that [new] hands on when a constructor returns it. *)
Definition is_object (v : Value) : bool :=
  match v with
  | VObj _ | VFun _ _ | VContainer => true
  | _ => false
  end.

(** The own properties [d] of an object after [o[k] = x]; [None] when
    the assignment makes [x] the prototype of the object. *)
Definition stored (k : string) (x : Value) (d : list (string * Value))
  : option (list (string * Value)) :=
  if Dict.setsPrototype k d then
    if is_prototype x then None else Some d
  else Some (Dict.put k x d).

(** [Object.assign(o, src)] on the own properties [d] of [o]: every
    property of [src] is assigned in turn. *)
Definition assign (d src : list (string * Value))
  : option (list (string * Value)) :=
  fold_left
    (fun acc kv =>
       match acc with
       | Some d => stored (fst kv) (snd kv) d
       | None => None
       end)
    src (Some d).

End Js.

(** ** Compiled pipelines *)

Inductive OpKind : Type :=
| OpSet | OpDelete | OpGet | OpInc | OpDec
| OpEq | OpNeq | OpGt | OpGe | OpLt | OpLe
| OpLabel | OpGoto | OpJne | OpJe.

(** [Comment], [Call] and [Reference] carry a [value]; an operation token
    has a [type] and no [value]. *)
Inductive Token : Type :=
| Comment (value : string)
| Op (type : OpKind)
| Call (value : string)
| Reference (value : string).

Definition token_value (t : Token) : option string :=
  match t with
  | Comment v | Call v | Reference v => Some v
  | Op _ => None
  end.

Definition op_words : list (string * OpKind) :=
  [("set", OpSet); ("delete", OpDelete); ("get", OpGet); ("inc", OpInc);
   ("dec", OpDec); ("eq", OpEq); ("neq", OpNeq); ("gt", OpGt);
   ("ge", OpGe); ("lt", OpLt); ("le", OpLe); ("label", OpLabel);
   ("goto", OpGoto); ("jne", OpJne); ("je", OpJe)].

Module DefaultCompilerSyntax.

Definition getTokenFromWord (word : string) : Token :=
  if JsString.startsWith word "//" then Comment word
  else match Dict.get word op_words with
       | Some k => Op k
       | None =>
           if JsString.startsWith word "$" then Call (JsString.slice 1 word)
           else Reference word
       end.

(** The variables of the inner loop of [compile]. *)
Record lineState : Type := mkLineState
  { tokens : list Token;
    currentString : string;
    currentQuote : option string }.

(** One turn of the inner loop, for the word [word]. *)
Definition compileWord (s : lineState) (word : string) : lineState :=
  match currentQuote s with
  | None =>
      if JsString.startsWith word JsString.dquote then
        if JsString.endsWith word JsString.dquote then
          mkLineState (tokens s ++ [getTokenFromWord word]) word None
        else mkLineState (tokens s) word (Some JsString.dquote)
      else if JsString.startsWith word "'" then
        if JsString.endsWith word "'" then
          mkLineState (tokens s ++ [getTokenFromWord word]) word None
        else mkLineState (tokens s) word (Some "'")
      else
        mkLineState (tokens s ++ [getTokenFromWord word])
                    (currentString s) None
  | Some q =>
      let cs := currentString s ++ " " ++ word in
      if JsString.endsWith word q then
        mkLineState (tokens s ++ [getTokenFromWord cs]) cs None
      else mkLineState (tokens s) cs (Some q)
  end.

Definition compileLine (src : string) : list Token :=
  let line := JsString.trim src in
  let words := JsString.split " " line in
  tokens (fold_left compileWord words (mkLineState [] EmptyString None)).

Definition compile (pipeline : list string) : list (list Token) :=
  fold_left (fun result line => (result ++ [compileLine line])%list)
            pipeline [].

End DefaultCompilerSyntax.

(** ** The container's data *)

Record FactoryItem : Type := mkFactoryItem
  { name : string;
    isSingleton : bool;
    instance : Value }.

(** The compilers a pipeline can be bound to.  The constructor of
    [Container] registers [DefaultCompiler] under the key [default], and no
    other compiler is part of the source. *)
Variant Compiler : Type := DefaultCompiler.

(** [this.compilers]: what the constructor puts there. *)
Definition compilersOf : list (string * Compiler) :=
  [("default", DefaultCompiler)].

(** What [buildPipeline] returns and [pipelines] stores. *)
Record Pipeline : Type := mkPipeline
  { pipeline : list string;
    compiler : Compiler;
    compiled : list (list Token) }.

Module Cache.
Record t : Type := mk
  { bestKeys : list (string * option string);
    pipelines : list (string * option Pipeline) }.
Definition empty : t := mk [] [].
End Cache.

Inductive Container : Type := mkContainer
  { classes : list (string * Value);
    factory : list (string * FactoryItem);
    pipelines : list (string * Pipeline);
    configurations : list (string * Value);
    cache : Cache.t;
    parent : option Container }.

(** [new Container(true)]: nothing registered but the default compiler. *)
Definition emptyContainer : Container :=
  mkContainer [] [] [] [] Cache.empty None.

Definition with_classes (c : Container) (x : list (string * Value)) :=
  mkContainer x (factory c) (pipelines c) (configurations c) (cache c)
              (parent c).
Definition with_factory (c : Container) (x : list (string * FactoryItem)) :=
  mkContainer (classes c) x (pipelines c) (configurations c) (cache c)
              (parent c).
Definition with_pipelines (c : Container) (x : list (string * Pipeline)) :=
  mkContainer (classes c) (factory c) x (configurations c) (cache c)
              (parent c).
Definition with_configurations (c : Container) (x : list (string * Value)) :=
  mkContainer (classes c) (factory c) (pipelines c) x (cache c) (parent c).
Definition with_cache (c : Container) (x : Cache.t) :=
  mkContainer (classes c) (factory c) (pipelines c) (configurations c) x
              (parent c).
Definition with_parent (c : Container) (x : option Container) :=
  mkContainer (classes c) (factory c) (pipelines c) (configurations c)
              (cache c) x.

(** The argument [srcPipeline] of [runPipeline]: a tag, the lines of a
    pipeline that was never registered, or a built pipeline. *)
Inductive PipelineSrc : Type :=
| SrcTag (tag : string)
| SrcLines (lines : list string)
| SrcPipeline (p : Pipeline).

(** ** Errors, outcomes and the state *)

Inductive error : Type :=
| PipelineDepthExceeded
| PipelineNotFound (src : PipelineSrc)
| CallNotFound (name : string)
| PathNotFound (step : string)
| MethodNotFound (step : list Token)
| TypeError
| HostError (v : Value).

Inductive event : Type :=
| EvCall (f : string) (this : option loc) (args : list Value)
| EvNew (f : string) (l : loc) (args : list Value)
| EvExecute (depth : Z).

Record state : Type := mkState
  { container : Container;
    heap : list obj;
    trace : list event }.

Definition with_container (st : state) (c : Container) : state :=
  mkState c (heap st) (trace st).
Definition with_heap (st : state) (h : list obj) : state :=
  mkState (container st) h (trace st).
Definition log (e : event) (st : state) : state :=
  mkState (container st) (heap st) (trace st ++ [e]).

Inductive result (A : Type) : Type :=
| Ret (a : A) (s : state)
| Throw (e : error) (s : state)
| OutOfFuel
| Unsupported.
Arguments Ret {A} a s.
Arguments Throw {A} e s.
Arguments OutOfFuel {A}.
Arguments Unsupported {A}.

Definition M (A : Type) : Type := state -> result A.

Definition ret {A : Type} (a : A) : M A := fun st => Ret a st.

Definition bind {A B : Type} (m : M A) (k : A -> M B) : M B :=
  fun st =>
    match m st with
    | Ret a st' => k a st'
    | Throw e st' => Throw e st'
    | OutOfFuel => OutOfFuel
    | Unsupported => Unsupported
    end.

Definition throw {A : Type} (e : error) : M A := fun st => Throw e st.

Definition unsupported {A : Type} : M A := fun _ => Unsupported.

Definition lift {A : Type} (o : option A) : M A :=
  match o with
  | Some a => ret a
  | None => unsupported
  end.

Definition this_container : M Container := fun st => Ret (container st) st.

Definition update_container (f : Container -> Container) : M unit :=
  fun st => Ret tt (with_container st (f (container st))).

Notation "'let*' x ':=' m 'in' k" := (bind m (fun x => k))
  (at level 10, x pattern, m at level 100, k at level 200).
Notation "m ';;;' k" := (bind m (fun _ => k))
  (at level 100, k at level 200, right associativity).

(** ** The host *)

Inductive host_result : Type :=
| HostReturn (v : Value) (h : list obj)
| HostThrow (v : Value) (h : list obj).

(** What the embedding takes from outside the source file:
    [compareWildcards] is imported from [./helper]; [class_method c k] names
    the method an instance of class [c] inherits under the key [k], if any;
    [host_call f this args h] runs the host function [f] on the heap [h]. *)
Class Host : Type := mkHost
  { compareWildcards : string -> string -> bool;
    class_method : string -> string -> option string;
    host_call : string -> option loc -> list Value -> list obj -> host_result }.

(** ** JSON text *)

Module Json.

Definition hex_digit (n : nat) : ascii :=
  ascii_of_nat (if (n <? 10)%nat then 48 + n else 87 + n).

Definition backslash (c : ascii) : string :=
  String "\" (String c EmptyString).

(** How [JSON.stringify] writes one character of a string. *)
Definition escape (c : ascii) : string :=
  let n := nat_of_ascii c in
  if (n =? 34)%nat then backslash c
  else if (n =? 92)%nat then backslash c
  else if (n =? 8)%nat then backslash "b"
  else if (n =? 12)%nat then backslash "f"
  else if (n =? 10)%nat then backslash "n"
  else if (n =? 13)%nat then backslash "r"
  else if (n =? 9)%nat then backslash "t"
  else if (n <? 32)%nat then
    backslash "u" ++ "00"
    ++ String (hex_digit (n / 16)) (String (hex_digit (n mod 16)) EmptyString)
  else String c EmptyString.

Fixpoint escapeAll (s : string) : string :=
  match s with
  | EmptyString => EmptyString
  | String c r => escape c ++ escapeAll r
  end.

Definition quote (s : string) : string :=
  String "034" (escapeAll s ++ String "034" EmptyString).

(** [JSON.stringify(lines)] for an array of strings. *)
Definition stringifyLines (lines : list string) : string :=
  "[" ++ String.concat "," (map quote lines) ++ "]".

End Json.

Section Semantics.

Context `{Host}.

(** ** Objects in the heap *)

(** [{ ...props }], an object literal. *)
Definition alloc (o : obj) : M Value :=
  fun st => Ret (VObj (List.length (heap st))) (with_heap st (heap st ++ [o])).

Definition read (l : loc) : M obj :=
  fun st => match heap st !! l with
            | Some o => Ret o st
            | None => Unsupported
            end.

Definition write (l : loc) (o : obj) : M unit :=
  fun st => Ret tt (with_heap st (<[l := o]> (heap st))).

(** What reading the key [k] of the object [o] gives when [k] is no key
    of [Object.prototype]: its own property, else the method its class
    provides, else [undefined]. *)
Definition member (o : obj) (k : string) : Value :=
  match Dict.get k (props o) with
  | Some x => x
  | None =>
      match class_method (cls o) k with
      | Some f => VFun f None
      | None => VUndef
      end
  end.

(** What reading any key of [o] gives.  Under a key of [Object.prototype],
    an object with no property and no method of that name has the member
    of the prototype: under [constructor] that is its class, under another
    key a value the embedding does not have ([None]). *)
Definition lookup (o : obj) (k : string) : option Value :=
  if Js.inherited k then
    match Dict.get k (props o) with
    | Some x => Some x
    | None =>
        match class_method (cls o) k with
        | Some f => Some (VFun f None)
        | None =>
            if String.eqb k "constructor" then Some (VFun (cls o) None)
            else None
        end
    end
  else Some (member o k).

(** What reading the key [k] of the string [s] gives: its length, the
    character at an index; [None] for any other key, which is a method of
    [String.prototype] or not according to the version of the language. *)
Definition stringMember (s : string) (k : string) : option Value :=
  if String.eqb k "length" then Some (VNum (Z.of_nat (String.length s)))
  else match Js.index_of k with
       | Some i =>
           match String.get i s with
           | Some c => Some (VStr (String c EmptyString))
           | None => Some VUndef
           end
       | None => None
       end.

(** [v[k]] *)
Definition getProp (v : Value) (k : string) : M Value :=
  match v with
  | VUndef | VNull => throw TypeError
  | VObj l => let* o := read l in lift (lookup o k)
  | VStr s => lift (stringMember s k)
  | VBool _ => if Js.inherited k then unsupported else ret VUndef
  | VNum _ | VNaN =>
      if Js.inherited k || Js.among k Js.numberKeys then unsupported
      else ret VUndef
  | VFun _ _ =>
      if Js.inherited k || Js.among k Js.functionKeys then unsupported
      else ret VUndef
  | VContainer => unsupported
  end.

(** [v[k] = x], in strict mode: a primitive takes no property, and the
    setter under [__proto__] does nothing on it. *)
Definition setProp (v : Value) (k : string) (x : Value) : M unit :=
  match v with
  | VObj l =>
      let* o := read l in
      let* d := lift (Js.stored k x (props o)) in
      write l (mkObj (cls o) d)
  | VFun _ _ | VContainer => unsupported
  | VUndef | VNull => throw TypeError
  | VBool _ | VNum _ | VNaN | VStr _ =>
      if String.eqb k "__proto__" then ret tt else throw TypeError
  end.

(** [delete v[k]], in strict mode. *)
Definition deleteProp (v : Value) (k : string) : M unit :=
  match v with
  | VObj l =>
      let* o := read l in
      write l (mkObj (cls o) (Dict.remove k (props o)))
  | VFun _ _ | VContainer => unsupported
  | VUndef | VNull => throw TypeError
  | VStr s =>
      if String.eqb k "length" then throw TypeError
      else match Js.index_of k with
           | Some i =>
               if (i <? String.length s)%nat then throw TypeError else ret tt
           | None => ret tt
           end
  | VBool _ | VNum _ | VNaN => ret tt
  end.

(** [v.constructor]: what an object has under that key, the wrapper class
    of a primitive. *)
Definition constructorOf (v : Value) : M Value :=
  match v with
  | VUndef | VNull => throw TypeError
  | VObj _ => getProp v "constructor"
  | VBool _ => ret (VFun "Boolean" None)
  | VNum _ | VNaN => ret (VFun "Number" None)
  | VStr _ => ret (VFun "String" None)
  | VFun _ _ => ret (VFun "Function" None)
  | VContainer => ret (VFun "Container" None)
  end.

(** [f.call(this, ...args)]: a bound function keeps its own receiver. *)
Definition callFunction (f : Value) (this : option loc) (args : list Value)
  : M Value :=
  match f with
  | VFun n bound =>
      let receiver := match bound with Some t => Some t | None => this end in
      fun st =>
        let st1 := log (EvCall n receiver args) st in
        match host_call n receiver args (heap st1) with
        | HostReturn v h => Ret v (with_heap st1 h)
        | HostThrow v h => Throw (HostError v) (with_heap st1 h)
        end
  | _ => throw TypeError
  end.

(** [receiver.m(...args)] where [m] was read from [receiver]. *)
Definition callMethod (m : Value) (receiver : Value) (args : list Value)
  : M Value :=
  callFunction m (match receiver with VObj l => Some l | _ => None end) args.

(** [new Clazz(...args)]: a fresh object of that class, on which the
    constructor runs; an object that the constructor returns takes the
    place of the fresh one. *)
Definition construct (Clazz : Value) (args : list Value) : M Value :=
  match Clazz with
  | VFun n _ =>
      let* o := alloc (mkObj n []) in
      match o with
      | VObj l =>
          fun st =>
            let st1 := log (EvNew n l args) st in
            match host_call n (Some l) args (heap st1) with
            | HostReturn v h =>
                Ret (if Js.is_object v then v else VObj l) (with_heap st1 h)
            | HostThrow v h => Throw (HostError v) (with_heap st1 h)
            end
      | _ => unsupported
      end
  | _ => throw TypeError
  end.

(** ** Container: classes and JSON *)

(** [addClass(clazz, name)] with the name given. *)
Definition addClass (clazz : Value) (name : string) : M unit :=
  let* c := this_container in
  let* d := lift (Js.stored name clazz (classes c)) in
  update_container (fun c => with_classes c d).

(** [instance.constructor.name]: a property of the instance called
    [constructor] stands before its class. *)
Definition constructorName (instance : Value) : M Value :=
  match instance with
  | VObj l =>
      let* o := read l in
      match Dict.get "constructor" (props o) with
      | Some x => getProp x "name"
      | None =>
          match class_method (cls o) "constructor" with
          | Some _ => unsupported
          | None => ret (VStr (cls o))
          end
      end
  | _ => unsupported
  end.

Definition toJSON (instance : Value) : M Value :=
  match instance with
  | VObj l =>
      let* m := getProp instance "toJSON" in
      let* result :=
        if Js.truthy m then callMethod m instance []
        else let* o := read l in alloc (mkObj "Object" (props o)) in
      let* name := constructorName instance in
      (setProp result "className" name ;;;
       ret result)
  | _ => unsupported
  end.

(** Under a key of [Object.prototype] that holds no class,
    [this.classes[obj.className]] is the member of the prototype, which is
    truthy; but for [Object] itself, under [constructor], [new] cannot
    build from it and raises. *)
Definition fromJSON (obj : Value) (settings : Value) : M Value :=
  let* className := getProp obj "className" in
  let* key := lift (Js.toString className) in
  let* c := this_container in
  let* Clazz :=
    match Dict.get key (classes c) with
    | Some x => ret x
    | None =>
        if String.eqb key "constructor" then unsupported
        else if Js.inherited key then throw TypeError
        else ret VUndef
    end in
  let* instance :=
    if Js.truthy Clazz then
      let* instance := construct Clazz [settings] in
      let* m := getProp instance "fromJSON" in
      if Js.truthy m then (callMethod m instance [obj] ;;; ret instance)
      else
        match obj, instance with
        | VObj lo, VObj li =>
            let* src := read lo in
            let* dst := read li in
            let* d := lift (Js.assign (props dst) (props src)) in
            (write li (mkObj (cls dst) d) ;;;
             ret instance)
        | _, _ => unsupported
        end
    else
      match obj with
      | VObj lo => let* src := read lo in alloc (mkObj "Object" (props src))
      | _ => unsupported
      end in
  (deleteProp instance "className" ;;;
   ret instance).

(** ** Container: the factory *)

Definition register (name : string) (Clazz : Value) (isSingleton : bool)
  : M unit :=
  update_container
    (fun c => with_cache c (Cache.mk [] (Cache.pipelines (cache c)))) ;;;
  let isClass := Js.is_function Clazz in
  let* instance :=
    if isSingleton then
      if isClass then construct Clazz [] else ret Clazz
    else
      if isClass then ret Clazz else constructorOf Clazz in
  let* c := this_container in
  if Dict.setsPrototype name (factory c) then unsupported
  else
    update_container
      (fun c => with_factory c
                  (Dict.put name (mkFactoryItem name isSingleton instance)
                            (factory c))).

(** The loop of [getBestKey], [getPipeline] and [getConfiguration]: the
    first of [keys] that [compareWildcards] accepts for [name]. *)
Fixpoint firstMatch (name : string) (keys : list string) : option string :=
  match keys with
  | [] => None
  | k :: r => if compareWildcards name k then Some k else firstMatch name r
  end.

Definition setBestKey (name : string) (k : option string) : M unit :=
  update_container
    (fun c => with_cache c
                (Cache.mk (Dict.put name k (Cache.bestKeys (cache c)))
                          (Cache.pipelines (cache c)))).

(** The result is a string, [null] (a remembered miss) or [undefined]. *)
Definition getBestKey (name : string) : M Value :=
  let* c := this_container in
  match Dict.get name (Cache.bestKeys (cache c)) with
  | Some (Some k) => ret (VStr k)
  | Some None => ret VNull
  | None =>
      if Js.inherited name then unsupported
      else
        match firstMatch name (Dict.keys (factory c)) with
        | Some k => (setBestKey name (Some k) ;;; ret (VStr k))
        | None => (setBestKey name None ;;; ret VUndef)
        end
  end.

(** The end of [get], from [if (item.isSingleton)] on. *)
Definition instantiate (item : FactoryItem) (settings : Value) : M Value :=
  if isSingleton item then
    let* m :=
      if Js.truthy (instance item)
      then getProp (instance item) "applySettings"
      else ret VUndef in
    (if Js.truthy m then
       let* s := getProp (instance item) "settings" in
       (callMethod m (instance item) [s; settings] ;;; ret tt)
     else ret tt) ;;;
    ret (instance item)
  else construct (instance item) [settings; VContainer].

(** What [this.factory[k]] finds: an item of the factory, or nothing; a
    member of [Object.prototype] is no item: it has no [isSingleton], and
    its [instance], which is [undefined], is no class to build from. *)
Definition itemAt (c : Container) (k : string) : M (option FactoryItem) :=
  match Dict.get k (factory c) with
  | Some item => ret (Some item)
  | None => if Js.inherited k then throw TypeError else ret None
  end.

(** [get] with [c] as [this]: the container of the state that comes in is
    replaced by [c], and the one that goes out is what [c] has become. *)
Fixpoint get_in (c : Container) (name : string) (settings : Value)
  (st : state) {struct c} : result Value :=
  match Dict.get name (factory c) with
  | Some item => instantiate item settings (with_container st c)
  | None =>
      if Js.inherited name then Throw TypeError (with_container st c)
      else
        match parent c with
        | Some p =>
            let back st' :=
              with_container st' (with_parent c (Some (container st'))) in
            match get_in p name settings st with
            | Ret v st' => Ret v (back st')
            | Throw e st' => Throw e (back st')
            | OutOfFuel => OutOfFuel
            | Unsupported => Unsupported
            end
        | None =>
            (let* key := getBestKey name in
             let* c' := this_container in
             let* item :=
               match key with
               | VStr k => if Js.truthy key then itemAt c' k else ret None
               | _ => ret None
               end in
             match item with
             | Some item => instantiate item settings
             | None => ret VUndef
             end) (with_container st c)
        end
  end.

Definition get (name : string) (settings : Value) : M Value :=
  fun st => get_in (container st) name settings st.

(** ** Container: paths *)

Variant ResolvedType : Type :=
| literal (subtype : string)
| function
| reference.

(** What [resolvePathWithType] returns; the field [container] of the
    source is always the container itself. *)
Record Resolved : Type := mkResolved
  { type : ResolvedType;
    src : string;
    value : Value;
    context : Value }.

Definition buildLiteral (subtype step : string) (value context : Value)
  : Resolved :=
  mkResolved (literal subtype) step value context.

(** The loop over [tokens[1..]]: [n] is [tokens.length], [i] the index of
    the first of [rest]. *)
Fixpoint walk (step : string) (n i : nat) (rest : list string)
  (currentObject : Value) : M Value :=
  match rest with
  | [] => ret currentObject
  | currentToken :: rest' =>
      let* missing :=
        if negb (Js.truthy currentObject) then ret true
        else let* x := getProp currentObject currentToken in
             ret (negb (Js.truthy x)) in
      if missing && (i <? n - 1)%nat then throw (PathNotFound step)
      else
        let prevCurrentObject := currentObject in
        let* next := getProp currentObject currentToken in
        walk step n (S i) rest'
             (if Js.is_function next then Js.bind next prevCurrentObject
              else next)
  end.

(** [tokens[0].trim()], replaced when empty. *)
Definition headToken (step : string) : string :=
  let tokens := JsString.split "." step in
  let token := JsString.trim (hd EmptyString tokens) in
  if String.eqb token EmptyString
  then if JsString.startsWith step "." then "this" else "context"
  else token.

(** The object the walk starts from, for a head token that is no literal. *)
Definition resolveRoot (token : string) (context input srcObject : Value)
  : M Value :=
  if String.eqb token "input" || String.eqb token "output"
  then ret input
  else if negb (String.eqb token EmptyString)
          && negb (String.eqb token "context")
          && negb (String.eqb token "this")
  then
    let* g := get token VUndef in
    if Js.truthy g then ret g else getProp context token
  else if String.eqb token "this" then ret srcObject
  else ret context.

(** [step] is [None] when the caller passes [undefined]. *)
Definition resolvePathWithType (step : option string)
  (context input srcObject : Value) : M Resolved :=
  match step with
  | None => throw TypeError
  | Some step =>
      let tokens := JsString.split "." step in
      let token := headToken step in
      if JsString.isnum token then
        let* v := lift (Js.number (JsString.digits_value 0 token)) in
        ret (buildLiteral "number" step v context)
      else if JsString.startsWith token JsString.dquote then
        ret (buildLiteral "string" step
               (VStr (JsString.stripQuotes "034" token)) context)
      else if JsString.startsWith token "'" then
        ret (buildLiteral "string" step
               (VStr (JsString.stripQuotes "'" token)) context)
      else if String.eqb token "true" then
        ret (buildLiteral "boolean" step (VBool true) context)
      else if String.eqb token "false" then
        ret (buildLiteral "boolean" step (VBool false) context)
      else
        let* root := resolveRoot token context input srcObject in
        let* currentObject :=
          walk step (List.length tokens) 1 (tl tokens) root in
        if Js.is_function currentObject
        then ret (mkResolved function step currentObject context)
        else ret (mkResolved reference step currentObject context)
  end.

Definition resolvePath (step : option string)
  (context input srcObject : Value) : M Value :=
  let* result := resolvePathWithType step context input srcObject in
  ret (value result).

(** [tokens.slice(0, -1).join('.')] and [tokens[tokens.length - 1]] *)
Definition parentPath (tokens : list string) : string :=
  JsString.join "." (removelast tokens).

Definition lastToken (tokens : list string) : string :=
  List.last tokens "undefined".

(** [path.split('.')], which throws on [undefined]. *)
Definition splitPath (path : option string) : M (list string) :=
  match path with
  | None => throw TypeError
  | Some p => ret (JsString.split "." p)
  end.

Definition setValue (path valuePath : option string)
  (context input srcObject : Value) : M unit :=
  let* value := resolvePath valuePath context input srcObject in
  let* tokens := splitPath path in
  let newPath := parentPath tokens in
  let* currentObject := resolvePath (Some newPath) context input srcObject in
  setProp currentObject (lastToken tokens) value.

Definition incValue (path valuePath : option string)
  (context input srcObject : Value) : M unit :=
  let* value := resolvePath valuePath context input srcObject in
  let* tokens := splitPath path in
  let tokens :=
    match path with
    | Some p => if JsString.startsWith p "." then (tokens ++ ["this"])%list
                else tokens
    | None => tokens
    end in
  let newPath := parentPath tokens in
  let* currentObject := resolvePath (Some newPath) context input srcObject in
  let* old := getProp currentObject (lastToken tokens) in
  let* new := lift (Js.add old value) in
  setProp currentObject (lastToken tokens) new.

Definition decValue (path valuePath : option string)
  (context input srcObject : Value) : M unit :=
  let* value := resolvePath valuePath context input srcObject in
  let* tokens := splitPath path in
  let newPath := parentPath tokens in
  let* currentObject := resolvePath (Some newPath) context input srcObject in
  let* old := getProp currentObject (lastToken tokens) in
  let* new := lift (Js.sub old value) in
  setProp currentObject (lastToken tokens) new.

(** The six comparisons differ by their operator only. *)
Definition compareValue (op : Value -> Value -> option bool)
  (pathA pathB : option string) (srcContext input srcObject : Value)
  : M unit :=
  let context := srcContext in
  let* valueA := resolvePath pathA context input srcObject in
  let* valueB := resolvePath pathB context input srcObject in
  let* r := lift (op valueA valueB) in
  setProp context "floating" (VBool r).

Definition eqValue := compareValue Js.strictEq.
Definition neqValue :=
  compareValue (fun a b => option_map negb (Js.strictEq a b)).
Definition gtValue := compareValue Js.gt.
Definition geValue := compareValue Js.ge.
Definition ltValue := compareValue Js.lt.
Definition leValue := compareValue Js.le.

Definition deleteValue (path : option string)
  (context input srcObject : Value) : M unit :=
  let* tokens := splitPath path in
  let newPath := parentPath tokens in
  let* currentObject := resolvePath (Some newPath) context input srcObject in
  deleteProp currentObject (lastToken tokens).

Definition getValue (srcPath : option string)
  (context input srcObject : Value) : M Value :=
  let path :=
    match srcPath with
    | Some p => if String.eqb p EmptyString then "floating" else p
    | None => "floating"
    end in
  let tokens := JsString.split "." path in
  let newPath := parentPath tokens in
  let* currentObject := resolvePath (Some newPath) context input srcObject in
  getProp currentObject (lastToken tokens).

(** ** Container: pipelines and configurations *)

(** [getCompiler] with [c] as [this]; [None] stands for a member of
    [Object.prototype], which [this.compilers[name]] finds under its name
    and which is truthy. *)
Fixpoint getCompiler (c : Container) (name : string) : option Compiler :=
  match Dict.get name compilersOf with
  | Some compiler => Some compiler
  | None =>
      if Js.inherited name then None
      else
        match parent c with
        | Some p => getCompiler p name
        | None => Dict.get "default" compilersOf
        end
  end.

(** One turn of the outer loop of [buildPipeline]. *)
Definition expandLine (prevPipeline : list string) (pipeline : list string)
  (line : string) : list string :=
  if String.eqb (JsString.trim line) "$super" then
    fold_left
      (fun acc prev =>
         let s := JsString.trim prev in
         if negb (JsString.startsWith s "->") then (acc ++ [prev])%list
         else acc)
      prevPipeline pipeline
  else (pipeline ++ [line])%list.

(** The name of the compiler that the first line asks for. *)
Definition compilerNameOf (pipeline : list string) : string :=
  if Nat.eqb (List.length pipeline) 0
     || negb (JsString.startsWith (hd EmptyString pipeline) "// compiler=")
  then "default"
  else JsString.slice 12 (hd EmptyString pipeline).

(** A member of [Object.prototype] has no [compile]: calling it raises. *)
Definition buildPipeline (srcPipeline prevPipeline : list string)
  : M Pipeline :=
  let pipeline := fold_left (expandLine prevPipeline) srcPipeline [] in
  let compilerName := compilerNameOf pipeline in
  let* c := this_container in
  match getCompiler c compilerName with
  | Some compiler =>
      let compiled := DefaultCompilerSyntax.compile pipeline in
      ret (mkPipeline pipeline compiler compiled)
  | None => throw TypeError
  end.

Definition setCachedPipeline (tag : string) (p : option Pipeline) : M unit :=
  update_container
    (fun c => with_cache c
                (Cache.mk (Cache.bestKeys (cache c))
                          (Dict.put tag p (Cache.pipelines (cache c))))).

(** Under a key of [Object.prototype] that holds no pipeline,
    [this.pipelines[tag]] is the member of the prototype, which is what
    [getPipeline] returns then, and no pipeline. *)
Definition getPipeline (tag : string) : M (option Pipeline) :=
  let* c := this_container in
  match Dict.get tag (pipelines c) with
  | Some p => ret (Some p)
  | None =>
      if Js.inherited tag then unsupported
      else
        match Dict.get tag (Cache.pipelines (cache c)) with
        | Some cached => ret cached
        | None =>
            match firstMatch tag (Dict.keys (pipelines c)) with
            | Some k =>
                (setCachedPipeline tag (Dict.get k (pipelines c)) ;;;
                 ret (Dict.get k (pipelines c)))
            | None => (setCachedPipeline tag None ;;; ret None)
            end
        end
  end.

(** [this.pipelines[tag]] is truthy under a key that holds a pipeline and
    under a key of [Object.prototype].  Where the new pipeline is stored,
    [getPipeline] has returned: the tag is then a key of [pipelines], or no
    key of [Object.prototype]. *)
Definition registerPipeline (tag : string) (lines : list string)
  (overwrite : bool) : M unit :=
  let* c := this_container in
  if overwrite || negb (Dict.has tag (pipelines c) || Js.inherited tag) then
    update_container
      (fun c => with_cache c (Cache.mk (Cache.bestKeys (cache c)) [])) ;;;
    let* prev := getPipeline tag in
    let* built :=
      buildPipeline lines
        (match prev with Some p => pipeline p | None => [] end) in
    update_container
      (fun c => with_pipelines c (Dict.put tag built (pipelines c)))
  else ret tt.

Definition registerConfiguration (tag : string) (configuration : Value)
  (overwrite : bool) : M unit :=
  let* c := this_container in
  let present :=
    match Dict.get tag (configurations c) with
    | Some v => Js.truthy v
    | None => Js.inherited tag
    end in
  if overwrite || negb present then
    let* d := lift (Js.stored tag configuration (configurations c)) in
    update_container (fun c => with_configurations c d)
  else ret tt.

Definition getConfiguration (tag : string) : M Value :=
  let* c := this_container in
  let* strict :=
    match Dict.get tag (configurations c) with
    | Some v => ret v
    | None => if Js.inherited tag then unsupported else ret VUndef
    end in
  if Js.truthy strict then ret strict
  else
    match firstMatch tag (Dict.keys (configurations c)) with
    | Some k =>
        ret (match Dict.get k (configurations c) with
             | Some v => v
             | None => VUndef
             end)
    | None => ret VUndef
    end.

(** ** DefaultCompiler: the interpreter *)

(** [step[i] ? step[i].value : undefined] *)
Definition operand (step : list Token) (i : nat) : option string :=
  match step !! i with
  | Some t => token_value t
  | None => None
  end.

(** [step[i].value] *)
Definition operand_of (step : list Token) (i : nat) : M (option string) :=
  match step !! i with
  | Some t => ret (token_value t)
  | None => throw TypeError
  end.

(** A property key made from a value that may be [undefined]. *)
Definition key_of (k : option string) : string :=
  match k with
  | Some s => s
  | None => "undefined"
  end.

(** [Reference] arguments handed to host code are objects of their own. *)
Definition reify (r : Resolved) : M Value :=
  let rest :=
    [("src", VStr (src r)); ("value", value r); ("context", context r);
     ("container", VContainer)] in
  match type r with
  | literal subtype =>
      alloc (mkObj "Object"
               (("type", VStr "literal") :: ("subtype", VStr subtype) :: rest))
  | function => alloc (mkObj "Object" (("type", VStr "function") :: rest))
  | reference => alloc (mkObj "Object" (("type", VStr "reference") :: rest))
  end.

(** The loop of [executeReference] that fills [args]. *)
Fixpoint resolveArgs (rest : list Token) (context input srcObject : Value)
  : M (list Value) :=
  match rest with
  | [] => ret []
  | t :: rest' =>
      let* r := resolvePathWithType (token_value t) context input srcObject in
      let* a := reify r in
      let* args := resolveArgs rest' context input srcObject in
      ret (a :: args)
  end.

Definition executeReference (step : list Token) (firstToken : string)
  (context input srcObject : Value) : M Value :=
  let* currentObject :=
    resolvePath (Some firstToken) context input srcObject in
  let* args := resolveArgs (tl step) context input srcObject in
  if negb (Js.truthy currentObject) then throw (MethodNotFound step)
  else
    let* run := getProp currentObject "run" in
    let method := if Js.truthy run then run else currentObject in
    if Js.is_function method then
      if Js.is_function currentObject
      then callFunction method None (input :: args)
      else callFunction (Js.bind method currentObject) None (input :: args)
    else ret method.

Definition doGoto (label : option string) (srcContext : Value) : M unit :=
  let context := srcContext in
  let* labels := getProp context "labels" in
  let* index := getProp labels (key_of label) in
  setProp context "cursor" index.

Section Interpreter.

(** [this.container.runPipeline], which the interpreter calls back. *)
Variable runPipeline : PipelineSrc -> Value -> Value -> Z -> M Value.

Definition executeCall (firstToken : string)
  (context input srcObject : Value) (depth : Z) : M Value :=
  let* pipeline := getPipeline firstToken in
  match pipeline with
  | None => throw (CallNotFound firstToken)
  | Some p => runPipeline (SrcPipeline p) input srcObject (depth + 1)
  end.

(** [firstToken] with [value] cut by two characters. *)
Definition unprefixed (t : Token) : Token :=
  match t with
  | Comment v => Comment (JsString.slice 2 v)
  | Call v => Call (JsString.slice 2 v)
  | Reference v => Reference (JsString.slice 2 v)
  | Op k => Op k
  end.

Definition has_arrow (firstToken : option Token) : bool :=
  match firstToken with
  | Some t =>
      match token_value t with
      | Some v => negb (String.eqb v EmptyString) && JsString.startsWith v "->"
      | None => false
      end
  | None => false
  end.

(** [step] is [None] when [compiled[context.cursor]] is [undefined]. *)
Definition executeAction (step : option (list Token))
  (context input srcObject : Value) (depth : Z) : M Value :=
  match step with
  | None => throw TypeError
  | Some step =>
      let firstToken := step !! 0%nat in
      if has_arrow firstToken && (depth >? 0) then ret input
      else
        let firstToken :=
          if has_arrow firstToken then option_map unprefixed firstToken
          else firstToken in
        match firstToken with
        | None => throw TypeError
        | Some (Op OpSet) =>
            let* path := operand_of step 1 in
            (setValue path (operand step 2) context input srcObject ;;;
             ret input)
        | Some (Op OpDelete) =>
            let* path := operand_of step 1 in
            (deleteValue path context input srcObject ;;; ret input)
        | Some (Op OpGet) =>
            getValue (operand step 1) context input srcObject
        | Some (Op OpInc) =>
            let valuePath :=
              match step !! 2%nat with
              | Some t => token_value t
              | None => Some "1"
              end in
            (incValue (operand step 1) valuePath context input srcObject ;;;
             ret input)
        | Some (Op OpDec) =>
            let valuePath :=
              match step !! 2%nat with
              | Some t => token_value t
              | None => Some "1"
              end in
            (decValue (operand step 1) valuePath context input srcObject ;;;
             ret input)
        | Some (Op OpEq) =>
            (eqValue (operand step 1) (operand step 2) context input
                     srcObject ;;; ret input)
        | Some (Op OpNeq) =>
            (neqValue (operand step 1) (operand step 2) context input
                      srcObject ;;; ret input)
        | Some (Op OpGt) =>
            (gtValue (operand step 1) (operand step 2) context input
                     srcObject ;;; ret input)
        | Some (Op OpGe) =>
            (geValue (operand step 1) (operand step 2) context input
                     srcObject ;;; ret input)
        | Some (Op OpLt) =>
            (ltValue (operand step 1) (operand step 2) context input
                     srcObject ;;; ret input)
        | Some (Op OpLe) =>
            (leValue (operand step 1) (operand step 2) context input
                     srcObject ;;; ret input)
        | Some (Op OpGoto) =>
            let* label := operand_of step 1 in
            (doGoto label context ;;; ret input)
        | Some (Op OpJne) =>
            let* floating := getProp context "floating" in
            if negb (Js.truthy floating) then
              let* label := operand_of step 1 in
              (doGoto label context ;;; ret input)
            else ret input
        | Some (Op OpJe) =>
            let* floating := getProp context "floating" in
            if Js.truthy floating then
              let* label := operand_of step 1 in
              (doGoto label context ;;; ret input)
            else ret input
        | Some (Call v) => executeCall v context input srcObject depth
        | Some (Reference v) =>
            executeReference step v context input srcObject
        | Some (Op OpLabel) | Some (Comment _) => ret input
        end
  end.

End Interpreter.

(** The loop of [findLabels], from the index [i] on. *)
Fixpoint findLabelsFrom (i : nat) (compiled : list (list Token))
  (labels : Value) : M unit :=
  match compiled with
  | [] => ret tt
  | current :: rest =>
      match current !! 0%nat with
      | None => throw TypeError
      | Some (Op OpLabel) =>
          let* label := operand_of current 1 in
          (setProp labels (key_of label) (VNum (Z.of_nat i)) ;;;
           findLabelsFrom (S i) rest labels)
      | Some _ => findLabelsFrom (S i) rest labels
      end
  end.

Definition findLabels (compiled : list (list Token)) (srcLabels : Value)
  : M unit :=
  findLabelsFrom 0 compiled srcLabels.

(** [compiled[cursor]] for a cursor that passed the test of the loop. *)
Definition stepAt (compiled : list (list Token)) (cursor : Value)
  : option (list Token) :=
  match cursor with
  | VNum z => if 0 <=? z then compiled !! Z.to_nat z else None
  | _ => None
  end.

(** [cursor < compiled.length] *)
Definition cursorBelow (compiled : list (list Token)) (cursor : Value)
  : option bool :=
  Js.lt cursor (VNum (Z.of_nat (List.length compiled))).

(** The prelude of [execute]: a fresh context whose labels are found. *)
Definition prepare (compiled : list (list Token)) (depth : Z) : M Value :=
  (fun st => Ret tt (log (EvExecute depth) st)) ;;;
  let* context := alloc (mkObj "Object" [("cursor", VNum 0)]) in
  let* labels := alloc (mkObj "Object" []) in
  setProp context "labels" labels ;;;
  findLabels compiled labels ;;;
  ret context.

(** [execute], given its loop [run]. *)
Definition executeWith
  (run : list (list Token) -> Value -> Value -> Value -> Z -> M Value)
  (compiled : list (list Token)) (srcInput srcObject : Value) (depth : Z)
  : M Value :=
  let input := srcInput in
  let* context := prepare compiled depth in
  run compiled context input srcObject depth.

(** [runPipeline], given [execute]. *)
Definition runPipelineWith
  (execute : list (list Token) -> Value -> Value -> Z -> M Value)
  (srcPipeline : PipelineSrc) (input srcObject : Value) (depth : Z)
  : M Value :=
  if depth >? 10 then throw PipelineDepthExceeded
  else
    match srcPipeline with
    | SrcTag tag =>
        let* pipeline := getPipeline tag in
        match pipeline with
        | None => throw (PipelineNotFound srcPipeline)
        | Some p => execute (compiled p) input srcObject depth
        end
    | SrcLines lines =>
        let tag := Json.stringifyLines lines in
        registerPipeline tag lines false ;;;
        let* built := getPipeline tag in
        match built with
        | None => throw TypeError
        | Some b => execute (compiled b) input srcObject depth
        end
    | SrcPipeline p => execute (compiled p) input srcObject depth
    end.

(** One turn of the [while] loop of [execute]: the test and, when it
    holds, the body; [None] when the loop is over.  [run] is the
    [runPipeline] that a [Call] reaches. *)
Definition turn (run : PipelineSrc -> Value -> Value -> Z -> M Value)
  (compiled : list (list Token)) (context input srcObject : Value)
  (depth : Z) : M (option Value) :=
  let* cursor := getProp context "cursor" in
  let* below := lift (cursorBelow compiled cursor) in
  if below then
    let* input :=
      executeAction run (stepAt compiled cursor) context input srcObject
                    depth in
    let* cursor := getProp context "cursor" in
    let* next := lift (Js.add cursor (VNum 1)) in
    setProp context "cursor" next ;;;
    ret (Some input)
  else ret None.

(** The [while] loop of [execute].  Each turn and each nested activation
    takes one unit of fuel. *)
Fixpoint loop (fuel : nat) (compiled : list (list Token))
  (context input srcObject : Value) (depth : Z) : M Value :=
  match fuel with
  | O => fun _ => OutOfFuel
  | S n =>
      let* r :=
        turn (runPipelineWith (executeWith (loop n)))
             compiled context input srcObject depth in
      match r with
      | Some input => loop n compiled context input srcObject depth
      | None => ret input
      end
  end.

Definition execute (fuel : nat) :=
  executeWith (loop fuel).

Definition runPipeline (fuel : nat) :=
  runPipelineWith (execute fuel).

(** The first [k] turns of the loop, nested activations running on
    [fuel]: [Some] of the current input while the loop goes on. *)
Fixpoint turns (fuel k : nat) (compiled : list (list Token))
  (context input srcObject : Value) (depth : Z) : M (option Value) :=
  match k with
  | O => ret (Some input)
  | S k' =>
      let* r :=
        turn (runPipeline fuel) compiled context input srcObject depth in
      match r with
      | Some input => turns fuel k' compiled context input srcObject depth
      | None => ret None
      end
  end.

End Semantics.

Arguments getProp : simpl never.
Arguments setProp : simpl never.
Arguments deleteProp : simpl never.
Arguments callFunction : simpl never.
Arguments construct : simpl never.
Arguments get : simpl never.

(** ** Text: lines and letter case *)

Module JsText.

(** [s.split(re)] for a regular expression [re] each match of which is
    one character, a character that [p] accepts. *)
Fixpoint splitWhen (p : ascii -> bool) (s : string) : list string :=
  match s with
  | EmptyString => [EmptyString]
  | String c r =>
      if p c then EmptyString :: splitWhen p r
      else match splitWhen p r with
           | w :: ws => String c w :: ws
           | [] => [String c EmptyString]
           end
  end.

(** What [/\n|\r|\r\n/] matches: at a carriage return the second
    alternative succeeds before the third is tried, so that every match is
    one character, a line feed or a carriage return. *)
Definition isLineBreak (c : ascii) : bool :=
  let n := nat_of_ascii c in (n =? 10)%nat || (n =? 13)%nat.

Definition splitLines (s : string) : list string := splitWhen isLineBreak s.

(** [toLowerCase] on a code unit below 256: the letters A to Z and the
    capital letters of the range 192 to 222, the multiplication sign at 215
    apart, move up by 32. *)
Definition lower (c : ascii) : ascii :=
  let n := nat_of_ascii c in
  if ((65 <=? n)%nat && (n <=? 90)%nat)
     || ((192 <=? n)%nat && (n <=? 222)%nat && negb (n =? 215)%nat)
  then ascii_of_nat (n + 32)
  else c.

Fixpoint toLowerCase (s : string) : string :=
  match s with
  | EmptyString => EmptyString
  | String c r => String (lower c) (toLowerCase r)
  end.

End JsText.

(** ** Container: pipelines for children and pipelines from text *)

(** An entry of [childPipelines]. *)
Module Child.
Record t : Type := mk
  { tag : string;
    pipeline : list string;
    overwrite : bool }.
End Child.

(** [this.childPipelines], a property the constructor does not create:
    [None] until [registerPipelineForChilds] has run. *)
Definition ChildPipelines : Type := option (list (string * list Child.t)).

(** [registerPipelineForChilds], with [childPipelines] passed in and
    out.  Under a key of [Object.prototype] that holds no list,
    [this.childPipelines[childName]] is the member of the prototype, which
    is truthy and has no [push]: calling it raises. *)
Definition registerPipelineForChilds (childName tag : string)
  (lines : list string) (overwrite : bool) (childPipelines : ChildPipelines)
  : M ChildPipelines :=
  let d := match childPipelines with Some d => d | None => [] end in
  match Dict.get childName d with
  | Some entries =>
      ret (Some (Dict.put childName
                   (entries ++ [Child.mk tag lines overwrite])%list d))
  | None =>
      if Js.inherited childName then throw TypeError
      else ret (Some (Dict.put childName [Child.mk tag lines overwrite] d))
  end.

(** The variables of the loop of [loadPipelinesFromString]. *)
Record LoaderVars : Type := mkLoaderVars
  { currentName : string;
    currentPipeline : list string;
    currentTitle : string }.

(** [['default', 'pipelines'].includes(currentTitle.toLowerCase())] *)
Definition isDefaultTitle (currentTitle : string) : bool :=
  let t := JsText.toLowerCase currentTitle in
  String.eqb t "default" || String.eqb t "pipelines".

Section Loading.

Context `{Host}.

(** The block [if (currentName) { ... }], which the source has three
    times: the current pipeline goes to the children of the title, or,
    under no title or one of the two default titles, to the container. *)
Definition flushPipeline (v : LoaderVars) (childPipelines : ChildPipelines)
  : M ChildPipelines :=
  if negb (String.eqb (currentName v) EmptyString) then
    if negb (String.eqb (currentTitle v) EmptyString)
       && negb (isDefaultTitle (currentTitle v))
    then registerPipelineForChilds (currentTitle v) (currentName v)
           (currentPipeline v) true childPipelines
    else (registerPipeline (currentName v) (currentPipeline v) true ;;;
          ret childPipelines)
  else ret childPipelines.

(** One turn of the loop, for the line [line]. *)
Definition loadLine (acc : LoaderVars * ChildPipelines) (line : string)
  : M (LoaderVars * ChildPipelines) :=
  let v := fst acc in
  let childPipelines := snd acc in
  if negb (String.eqb line EmptyString) then
    if JsString.startsWith line "# " then
      let* childPipelines := flushPipeline v childPipelines in
      ret (mkLoaderVars EmptyString []
             (JsString.trim (JsString.slice 1 line)), childPipelines)
    else if JsString.startsWith line "## " then
      let* childPipelines := flushPipeline v childPipelines in
      ret (mkLoaderVars (JsString.trim (JsString.slice 2 line)) []
             (currentTitle v), childPipelines)
    else if negb (String.eqb (currentName v) EmptyString) then
      ret (mkLoaderVars (currentName v) (currentPipeline v ++ [line])%list
             (currentTitle v), childPipelines)
    else ret acc
  else ret acc.

Fixpoint loadLines (lines : list string)
  (acc : LoaderVars * ChildPipelines) : M (LoaderVars * ChildPipelines) :=
  match lines with
  | [] => ret acc
  | line :: rest =>
      let* acc := loadLine acc line in
      loadLines rest acc
  end.

Definition loadPipelinesFromString (str : string)
  (childPipelines : ChildPipelines) : M ChildPipelines :=
  let lines := JsText.splitLines str in
  let* r := loadLines lines (mkLoaderVars EmptyString [] EmptyString,
                             childPipelines) in
  flushPipeline (fst r) (snd r).

End Loading.

(** * Definitions used by the statements *)

(** A host with no classes, no wildcard matches and functions that do
    nothing: enough to run pipelines that only move data. *)
Definition quietHost : Host :=
  mkHost (fun _ _ => false) (fun _ _ => None)
         (fun _ _ _ h => HostReturn VUndef h).

(** The lines [buildPipeline] is said to keep: a line whose trimmed value
    is [$super] gives way to the previous lines that do not begin, once
    trimmed, with an arrow; any other line stays. *)
Definition superExpansion (srcPipeline prevPipeline : list string)
  : list string :=
  flat_map
    (fun line =>
       if String.eqb (JsString.trim line) "$super"
       then List.filter
              (fun prev => negb (JsString.startsWith (JsString.trim prev) "->"))
              prevPipeline
       else [line])
    srcPipeline.

(** The pipeline [buildPipeline] returns where it returns: the lines
    expanded, bound to the default compiler and compiled by it. *)
Definition built (srcPipeline prevPipeline : list string) : Pipeline :=
  let pipeline := fold_left (expandLine prevPipeline) srcPipeline [] in
  mkPipeline pipeline DefaultCompiler (DefaultCompilerSyntax.compile pipeline).

(** The first of the expanded lines asks for no compiler under a key of
    [Object.prototype]. *)
Definition compilable (srcPipeline prevPipeline : list string) : bool :=
  negb (Js.inherited
          (compilerNameOf
             (fold_left (expandLine prevPipeline) srcPipeline []))).

(** A container holding one configuration, the number zero, under [t]. *)
Definition zeroConfiguration : state :=
  mkState (with_configurations emptyContainer [("t", VNum 0)]) [] [].

(** An empty container and a heap whose only object is an empty input. *)
Definition emptyInput : state :=
  mkState emptyContainer [mkObj "Object" []] [].

(** The head token has one of the literal forms: digits, a leading quote,
    [true] or [false]. *)
Definition literalHead (token : string) : bool :=
  JsString.isnum token
  || JsString.startsWith token JsString.dquote
  || JsString.startsWith token "'"
  || String.eqb token "true"
  || String.eqb token "false".

(** [v[k]] read in the state [st], when the read neither raises nor leaves
    the embedding. *)
Definition peek `{Host} (st : state) (v : Value) (k : string)
  : option Value :=
  match getProp v k st with
  | Ret x _ => Some x
  | _ => None
  end.

(** The value reached from [v] through the tokens [toks] when every value
    on the way, [v] included, is truthy. *)
Fixpoint descend `{Host} (st : state) (v : Value) (toks : list string)
  : option Value :=
  match toks with
  | [] => Some v
  | k :: r =>
      if Js.truthy v then
        match peek st v k with
        | Some x =>
            if Js.truthy x
            then descend st (if Js.is_function x then Js.bind x v else x) r
            else None
        | None => None
        end
      else None
  end.

(** The counter pipeline of the first scenario. *)
Definition counterLines : list string :=
  ["set input.count 0"; "label loop"; "inc input.count";
   "lt input.count 3"; "je loop"; "get input"].

(** How many ancestors a container has. *)
Fixpoint chainLength (c : Container) : nat :=
  match parent c with
  | Some p => S (chainLength p)
  | None => O
  end.

(** The object [o] after [o[k] = x]. *)
Definition assigned (o : obj) (k : string) (x : Value) : obj :=
  mkObj (cls o) (Dict.put k x (props o)).

(** The properties of the labels object after [labels[k] = i]: a number
    is no prototype, so that a label called [__proto__] is not recorded. *)
Definition recordLabel (k : string) (i : nat) (acc : list (string * Value))
  : list (string * Value) :=
  if Dict.setsPrototype k acc then acc
  else Dict.put k (VNum (Z.of_nat i)) acc.

(** The properties [findLabels] leaves in the labels object, started from
    [acc] at the index [i]; [None] when it raises. *)
Fixpoint scanLabels (i : nat) (compiled : list (list Token))
  (acc : list (string * Value)) : option (list (string * Value)) :=
  match compiled with
  | [] => Some acc
  | current :: rest =>
      match current !! 0%nat with
      | None => None
      | Some (Op OpLabel) =>
          match current !! 1%nat with
          | None => None
          | Some t =>
              scanLabels (S i) rest (recordLabel (key_of (token_value t)) i acc)
          end
      | Some _ => scanLabels (S i) rest acc
      end
  end.

(** The context and the labels object a fresh activation starts with, on
    a heap of [n] objects. *)
Definition freshContext (n : nat) : obj :=
  mkObj "Object" [("cursor", VNum 0); ("labels", VObj (S n))].

(** The activations of a pipeline that calls itself, from depth [d] on:
    [count] of them. *)
Definition activations (d count : nat) : list event :=
  map (fun i => EvExecute (Z.of_nat i)) (seq d count).

(** The trace of [st'] continues the trace of [st] with events among
    which is an activation at depth 10. *)
Definition origin (st st' : state) : Prop :=
  exists evs, trace st' = (trace st ++ evs)%list /\ In (EvExecute 10) evs.

(** A container whose only pipeline, [loop], has the one line [$loop]. *)
Definition selfCalling : state :=
  mkState (with_pipelines emptyContainer
             [("loop", built ["$loop"] [])])
          [] [].

(** The receiver a method read from the object at [l] runs on. *)
Definition receiverOf (bound : option nat) (l : nat) : option nat :=
  match bound with
  | Some t => Some t
  | None => Some l
  end.

(** A host with one class, [Component], whose instances have a method
    [applySettings] that does nothing. *)
Definition componentHost : Host :=
  mkHost (fun _ _ => false)
         (fun c k =>
            if String.eqb c "Component" && String.eqb k "applySettings"
            then Some "Component.applySettings" else None)
         (fun _ _ _ h => HostReturn VUndef h).

(** A container whose factory holds, under [c], a singleton of class
    [Component] that lives at 0 and has settings. *)
Definition oneComponent : state :=
  mkState (with_factory emptyContainer
             [("c", mkFactoryItem "c" true (VObj 0%nat))])
          [mkObj "Component" [("settings", VNum 1)]] [].

(** Modelled from the spec: [compareWildcards] of [./helper], which is not
    among the sources.  The second argument is the pattern: [*] stands for
    any run of characters, [?] for one character, any other character for
    itself. *)
Fixpoint globMatch (pattern text : list ascii) : bool :=
  match pattern with
  | [] => match text with [] => true | _ :: _ => false end
  | c :: pattern' =>
      if Ascii.eqb c "*" then
        (fix star (t : list ascii) : bool :=
           globMatch pattern' t
           || match t with
              | [] => false
              | _ :: t' => star t'
              end) text
      else
        match text with
        | [] => false
        | d :: text' =>
            (Ascii.eqb c "?" || Ascii.eqb c d) && globMatch pattern' text'
        end
  end.

(** A host whose [compareWildcards] is [globMatch], with no classes. *)
Definition globHost : Host :=
  mkHost (fun text rule =>
            globMatch (list_ascii_of_string rule) (list_ascii_of_string text))
         (fun _ _ => None)
         (fun _ _ _ h => HostReturn VUndef h).

(** The item [get] is said to resolve: the one under the name in the own
    factory; failing that, the one the parent resolves; failing that, the
    one under the first key of the own factory, oldest first, that matches
    the name. *)
Fixpoint claimedItem `{Host} (c : Container) (name : string)
  : option FactoryItem :=
  match Dict.get name (factory c) with
  | Some item => Some item
  | None =>
      match
        match parent c with
        | Some p => claimedItem p name
        | None => None
        end
      with
      | Some item => Some item
      | None =>
          match firstMatch name (Dict.keys (factory c)) with
          | Some k => Dict.get k (factory c)
          | None => None
          end
      end
  end.

(** The item [get] resolves: the one under the name in the own factory;
    failing that, in a container that has a parent, the one the parent
    resolves; in a container without parent, the one under the first key of
    the own factory, oldest first, that matches the name, unless that key
    is the empty string. *)
Fixpoint resolvedItem `{Host} (c : Container) (name : string)
  : option FactoryItem :=
  match Dict.get name (factory c) with
  | Some item => Some item
  | None =>
      match parent c with
      | Some p => resolvedItem p name
      | None =>
          match firstMatch name (Dict.keys (factory c)) with
          | Some k =>
              if String.eqb k EmptyString then None
              else Dict.get k (factory c)
          | None => None
          end
      end
  end.

(** The strict lookup of [name] in the factory of [c] finds a member of
    [Object.prototype]: the name is one of its keys, and no key of the
    factory. *)
Definition findsInherited (c : Container) (name : string) : bool :=
  Js.inherited name && negb (Dict.has name (factory c)).

(** [k] is the first of [keys] that [compareWildcards] accepts for
    [name]. *)
Definition firstAccepted `{Host} (name : string) (keys : list string)
  (k : string) : Prop :=
  exists before after,
    keys = (before ++ k :: after)%list
    /\ compareWildcards name k = true
    /\ forall k', In k' before -> compareWildcards name k' = false.

(** The container after [get]: where the wildcard search ran and the name
    was not in [cache.bestKeys], its outcome, hit or miss, is now there. *)
Fixpoint memoised `{Host} (c : Container) (name : string) : Container :=
  match Dict.get name (factory c) with
  | Some _ => c
  | None =>
      match parent c with
      | Some p => with_parent c (Some (memoised p name))
      | None =>
          match Dict.get name (Cache.bestKeys (cache c)) with
          | Some _ => c
          | None =>
              with_cache c
                (Cache.mk
                   (Dict.put name (firstMatch name (Dict.keys (factory c)))
                             (Cache.bestKeys (cache c)))
                   (Cache.pipelines (cache c)))
          end
      end
  end.

(** The ancestor that has no parent. *)
Fixpoint rootOf (c : Container) : Container :=
  match parent c with
  | Some p => rootOf p
  | None => c
  end.

(** [cache.bestKeys] remembers nothing but outcomes of the search over the
    present factory. *)
Definition bestKeysAgree `{Host} (c : Container) : Prop :=
  forall name k,
    Dict.get name (Cache.bestKeys (cache c)) = Some k ->
    firstMatch name (Dict.keys (factory c)) = k.

(** [m] neither reads nor writes the container. *)
Definition carries {A : Type} (m : M A) : Prop :=
  forall st c,
    m (with_container st c)
    = match m st with
      | Ret a s => Ret a (with_container s c)
      | Throw e s => Throw e (with_container s c)
      | OutOfFuel => OutOfFuel
      | Unsupported => Unsupported
      end.

(** A child whose factory holds a singleton under the key [token-*], and
    its parent, which holds nothing. *)
Definition tokenItem : FactoryItem := mkFactoryItem "token-*" true (VNum 7).

Definition childWithWildcard : Container :=
  mkContainer [] [("token-*", tokenItem)] [] [] Cache.empty
              (Some emptyContainer).

(** What [o] has under [constructor] is its class: it has no property
    and no method of that name. *)
Definition ownClass `{Host} (o : obj) : bool :=
  match Dict.get "constructor" (props o), class_method (cls o) "constructor"
  with
  | None, None => true
  | _, _ => false
  end.

(** What [toJSON] builds from a plain object: a copy of its own
    properties, with the property [className] set to the name of its
    class. *)
Definition jsonOf (o : obj) : obj :=
  mkObj "Object" (Dict.put "className" (VStr (cls o)) (props o)).

(** [toJSON] and then [fromJSON]. *)
Definition roundTrip `{Host} (x settings : Value) : M Value :=
  let* json := toJSON x in
  fromJSON json settings.

(** A heap whose only object has a property called [className]. *)
Definition namedObject : state :=
  mkState emptyContainer
          [mkObj "Object" [("className", VStr "mine"); ("a", VNum 1)]] [].

(** A heap whose only object has [null] as its property [constructor]. *)
Definition nullConstructor : state :=
  mkState emptyContainer
          [mkObj "Object" [("constructor", VNull); ("a", VNum 1)]] [].

(** A heap whose only object has a [toJSON] of its own; with a host whose
    functions do nothing, that [toJSON] returns [undefined]. *)
Definition silentToJSON : state :=
  mkState emptyContainer
          [mkObj "Object" [("toJSON", VFun "f" None); ("a", VNum 1)]] [].

(** A heap whose only object is of a class called [toString]. *)
Definition prototypeNamed : state :=
  mkState emptyContainer [mkObj "toString" [("a", VNum 1)]] [].

(** A host whose class [Point] has a method [fromJSON], which like its
    other functions does nothing. *)
Definition deafHost : Host :=
  mkHost (fun _ _ => false)
         (fun c k =>
            if String.eqb c "Point" && String.eqb k "fromJSON"
            then Some "fromJSON" else None)
         (fun _ _ _ h => HostReturn VUndef h).

(** A host whose functions, constructors included, return the object at
    [1]. *)
Definition lendingHost : Host :=
  mkHost (fun _ _ => false) (fun _ _ => None)
         (fun _ _ _ h => HostReturn (VObj 1%nat) h).

(** A heap that holds a [Point] and, at [1], a plain object, in a
    container that has the class [Point] registered. *)
Definition pointAndPlain : state :=
  mkState (with_classes emptyContainer [("Point", VFun "Point" None)])
          [mkObj "Point" [("x", VNum 1)]; mkObj "Object" []] [].

(** A heap whose only object is a [Point] with a property of its own
    called [__proto__], in a container that has the class [Point]
    registered. *)
Definition protoField : state :=
  mkState (with_classes emptyContainer [("Point", VFun "Point" None)])
          [mkObj "Point" [("__proto__", VNum 5); ("x", VNum 1)]] [].

(** A path whose head is a literal or one of the four roots that
    [resolvePathWithType] reads without asking the factory. *)
Definition pureHead (path : string) : bool :=
  let t := headToken path in
  literalHead t
  || String.eqb t "input" || String.eqb t "output"
  || String.eqb t "this" || String.eqb t "context".

Definition pureOperand (p : option string) : bool :=
  match p with
  | Some s => pureHead s
  | None => true
  end.

(** The tokens of a path name a direct member of the input: what is left
    of them without the last is one token, [input] or [output]. *)
Definition inputMember (tokens : list string) : bool :=
  let parent := parentPath tokens in
  Nat.eqb (List.length (JsString.split "." parent)) 1
  && (String.eqb (headToken parent) "input"
      || String.eqb (headToken parent) "output").

(** The tokens [incValue] works on. *)
Definition incTokens (path : string) : list string :=
  if JsString.startsWith path "."
  then (JsString.split "." path ++ ["this"])%list
  else JsString.split "." path.

Definition targetOk (tokensOf : string -> list string)
  (p : option string) : bool :=
  match p with
  | Some path => inputMember (tokensOf path)
  | None => true
  end.

(** The operand [valuePath] of [inc] and [dec]. *)
Definition stepValue (step : list Token) : option string :=
  match step !! 2%nat with
  | Some t => token_value t
  | None => Some "1"
  end.

(** Instructions that cannot write the cursor or the labels of the context
    other than by a jump to a recorded label: comments, labels, jumps whose
    label is among [labs], comparisons of pure operands, and [set], [inc],
    [dec], [delete] of a direct member of the input with a pure operand. *)
Definition contextSafe (labs : list (string * Value))
  (step : list Token) : bool :=
  match step !! 0%nat with
  | Some (Comment _) => true
  | Some (Op k) =>
      match k with
      | OpLabel => true
      | OpGoto | OpJe | OpJne =>
          match step !! 1%nat with
          | Some t => Dict.has (key_of (token_value t)) labs
          | None => true
          end
      | OpEq | OpNeq | OpGt | OpGe | OpLt | OpLe =>
          pureOperand (operand step 1) && pureOperand (operand step 2)
      | OpSet =>
          targetOk (JsString.split ".") (operand step 1)
          && pureOperand (operand step 2)
      | OpInc =>
          targetOk incTokens (operand step 1) && pureOperand (stepValue step)
      | OpDec =>
          targetOk (JsString.split ".") (operand step 1)
          && pureOperand (stepValue step)
      | OpDelete => targetOk (JsString.split ".") (operand step 1)
      | OpGet => false
      end
  | Some (Call _) | Some (Reference _) | None => false
  end.

(** The context of an activation sits at [n], its cursor is the integer
    [z] and its labels, at [n + 1], are [labs]. *)
Definition contextAt (n : nat) (labs : list (string * Value)) (z : Z)
  (st : state) : Prop :=
  exists C,
    heap st !! n = Some C
    /\ Dict.get "cursor" (props C) = Some (VNum z)
    /\ Dict.get "labels" (props C) = Some (VObj (S n))
    /\ heap st !! S n = Some (mkObj "Object" labs).

(** An input that is an object was allocated among the first [n]. *)
Definition allocatedBelow (n : nat) (input : Value) : Prop :=
  match input with
  | VObj l => (l < n)%nat
  | _ => True
  end.

(** Partial correctness: from a state in [P], a result of [m] is in [Q]. *)
Definition triple {A : Type} (P : state -> Prop) (m : M A)
  (Q : A -> state -> Prop) : Prop :=
  forall st,
    P st ->
    match m st with
    | Ret a st' => Q a st'
    | Throw _ _ | OutOfFuel | Unsupported => True
    end.

(** What an instruction leaves behind: the input it was given and a cursor
    that stayed where it was or jumped to a recorded label. *)
Definition settled (n : nat) (labs : list (string * Value)) (len : nat)
  (input : Value) (z : Z) (v : Value) (st' : state) : Prop :=
  v = input
  /\ exists z', contextAt n labs z' st'
                /\ (z' = z \/ 0 <= z' < Z.of_nat len).

(** The cursor of the context [ctx] is an integer of [0 .. len(compiled)]. *)
Definition cursorInRange `{Host} (compiled : list (list Token))
  (ctx : Value) (st : state) : Prop :=
  exists z,
    peek st ctx "cursor" = Some (VNum z)
    /\ 0 <= z <= Z.of_nat (List.length compiled).

(** Between two turns of the loop: the context is in place and its cursor
    is in range. *)
Definition betweenTurns (n : nat) (labs : list (string * Value))
  (len : nat) (st : state) : Prop :=
  exists z, contextAt n labs z st /\ 0 <= z <= Z.of_nat len.

(** A loop that jumps back to a label while a counter is below 3. *)
Definition loopLines : list string :=
  ["set input.count 0"; "label again"; "inc input.count";
   "lt input.count 3"; "je again"].

(** A program whose only instruction jumps to a label that no line
    defines. *)
Definition strayJump : list (list Token) :=
  DefaultCompilerSyntax.compile ["goto nowhere"].

(** A program whose only instruction names the cursor of the context. *)
Definition cursorWrite : list (list Token) :=
  DefaultCompilerSyntax.compile ["dec cursor 5"].

(** A program whose blank first line makes the context the input of its
    second line. *)
Definition blankThenWrite : list (list Token) :=
  DefaultCompilerSyntax.compile [EmptyString; "set input.cursor 7"].

(** [extends st st']: the trace of [st'] continues the trace of [st]. *)
Definition extends (st st' : state) : Prop :=
  exists evs, trace st' = (trace st ++ evs)%list.

(** An operation is [tame] when it only ever continues the trace and never
    raises [PipelineDepthExceeded]. *)
Definition tame {A : Type} (m : M A) : Prop :=
  forall st,
    match m st with
    | Ret _ st' => extends st st'
    | Throw e st' => extends st st' /\ e <> PipelineDepthExceeded
    | OutOfFuel | Unsupported => True
    end.

(** [guarded P m]: [m] only ever continues the trace and, when it raises
    [PipelineDepthExceeded] while [P] holds, an activation at depth 10 is
    among the events it added. *)
Definition guarded {A : Type} (P : Prop) (m : M A) : Prop :=
  forall st,
    match m st with
    | Ret _ st' => extends st st'
    | Throw e st' =>
        extends st st'
        /\ (e = PipelineDepthExceeded -> P -> origin st st')
    | OutOfFuel | Unsupported => True
    end.

(** A heap whose only object is a [Point], in a container that has the
    class [Point] registered. *)
Definition pointRegistered : state :=
  mkState (with_classes emptyContainer [("Point", VFun "Point" None)])
          [mkObj "Point" [("x", VNum 1)]] [].

(** The words of a line, as [compile] takes them. *)
Definition lineWords (line : string) : list string :=
  JsString.split " " (JsString.trim line).

(** A word that opens no quote. *)
Definition unquoted (word : string) : bool :=
  negb (JsString.startsWith word JsString.dquote)
  && negb (JsString.startsWith word "'").

(** The two quote marks [compile] knows. *)
Definition quoteMark (q : string) : bool :=
  String.eqb q JsString.dquote || String.eqb q "'".

(** A word that does not close a quote opened by [q]. *)
Definition leavesOpen (q word : string) : bool :=
  negb (JsString.endsWith word q).

(** [step] is a [label] instruction whose operand reads as the key [k]. *)
Definition isLabel (step : list Token) (k : string) : bool :=
  match step with
  | Op OpLabel :: t :: _ => String.eqb (key_of (token_value t)) k
  | _ => false
  end.

(** The index, counted from [i], of the last [label] instruction of
    [compiled] whose operand reads as [k]. *)
Fixpoint lastLabel (i : nat) (compiled : list (list Token)) (k : string)
  : option nat :=
  match compiled with
  | [] => None
  | step :: rest =>
      match lastLabel (S i) rest k with
      | Some j => Some j
      | None => if isLabel step k then Some i else None
      end
  end.

(** An instruction vector on which the prescan of labels raises: it is
    empty, or it is a [label] without operand. *)
Definition unscannable (step : list Token) : bool :=
  match step with
  | [] | [Op OpLabel] => true
  | _ => false
  end.

(** [m] never runs out of fuel. *)
Definition finishes {A : Type} (m : M A) : Prop :=
  forall st, m st <> OutOfFuel.

(** An instruction that is context-safe and takes no jump: a jump is
    context-safe for no labels at all only when its operand is missing, and
    then it raises. *)
Definition straight (step : list Token) : bool := contextSafe [] step.

(** The pipeline a search without cache finds for [tag]: the one stored
    under the tag, else the one under the first key, oldest first, that
    [compareWildcards] accepts for it. *)
Definition searchPipeline `{Host} (c : Container) (tag : string)
  : option Pipeline :=
  match Dict.get tag (pipelines c) with
  | Some p => Some p
  | None =>
      match firstMatch tag (Dict.keys (pipelines c)) with
      | Some k => Dict.get k (pipelines c)
      | None => None
      end
  end.

(** [cache.pipelines] remembers, for the tags that hold no pipeline of
    their own, nothing but outcomes of the search over the present
    pipelines. *)
Definition pipelinesAgree `{Host} (c : Container) : Prop :=
  forall tag e,
    Dict.get tag (Cache.pipelines (cache c)) = Some e ->
    Dict.get tag (pipelines c) = None ->
    e = searchPipeline c tag.

(** Under [tag], [this.pipelines] has a pipeline or nothing: the tag is a
    key of [pipelines], or no key of [Object.prototype]. *)
Definition plainTag (c : Container) (tag : string) : bool :=
  Dict.has tag (pipelines c) || negb (Js.inherited tag).

(** [this.configurations[tag]] is truthy: a configuration that is, or a
    member of [Object.prototype]. *)
Definition holdsConfiguration (c : Container) (tag : string) : bool :=
  match Dict.get tag (configurations c) with
  | Some v => Js.truthy v
  | None => Js.inherited tag
  end.

(** [c] with [pc] as its [cache.pipelines]. *)
Definition with_cached (c : Container)
  (pc : list (string * option Pipeline)) : Container :=
  with_cache c (Cache.mk (Cache.bestKeys (cache c)) pc).

(** A container that holds one pipeline, under a key that is a pattern. *)
Definition patternPipelines : state :=
  mkState (with_pipelines emptyContainer
             [("on*", built ["set input.seen true"] [])])
          [] [].

(** The class that [register] keeps for a value that is not to be a
    singleton: the value itself when it is a class, otherwise the class
    that the object has as its [constructor]. *)
Definition classToBuild `{Host} (st : state) (x : Value) : option string :=
  match x with
  | VFun n _ => Some n
  | VObj l =>
      match heap st !! l with
      | Some o =>
          match lookup o "constructor" with
          | Some (VFun n _) => Some n
          | _ => None
          end
      | None => None
      end
  | _ => None
  end.

(** A heap whose only object is a [Point]. *)
Definition onePoint : state :=
  mkState emptyContainer [mkObj "Point" [("x", VNum 1)]] [].

(** A heap that holds an input with a counter and, after it, a context. *)
Definition counting : state :=
  mkState emptyContainer
          [mkObj "Object" [("count", VNum 4)]; freshContext 1;
           mkObj "Object" []]
          [].

(** The character [c] does not occur in [s]. *)
Fixpoint lacks (c : ascii) (s : string) : bool :=
  match s with
  | EmptyString => true
  | String d r => negb (Ascii.eqb d c) && lacks c r
  end.

(** [s] neither begins nor ends with a character that [trim] removes. *)
Definition trimmed (s : string) : bool :=
  let l := list_ascii_of_string s in
  match l, rev l with
  | c :: _, d :: _ =>
      negb (JsString.is_space c) && negb (JsString.is_space d)
  | _, _ => true
  end.

(** No character of [s] ends a line. *)
Fixpoint oneLine (s : string) : bool :=
  match s with
  | EmptyString => true
  | String c r => negb (JsString.is_line_terminator c) && oneLine r
  end.

(** The string made of the character [q]. *)
Definition mark (q : ascii) : string := String q EmptyString.

(** A number or a boolean. *)
Definition isScalar (v : Value) : bool :=
  match v with
  | VBool _ | VNum _ | VNaN => true
  | _ => false
  end.

(** [text] with a carriage return put before every line feed. *)
Fixpoint crlf (text : string) : string :=
  match text with
  | EmptyString => EmptyString
  | String c r =>
      if Ascii.eqb c "010" then String "013" (String "010" (crlf r))
      else String c (crlf r)
  end.

(** A line that opens no named section: it does not begin with [## ], or
    what follows the two signs is blank. *)
Definition namesNothing (line : string) : bool :=
  negb (JsString.startsWith line "## ")
  || String.eqb (JsString.trim (JsString.slice 2 line)) EmptyString.

(** A title under which pipelines go to the children. *)
Definition childTitle (title : string) : bool :=
  negb (String.eqb title EmptyString) && negb (isDefaultTitle title).

(** A title under which pipelines go to the children, and which is no key
    of [Object.prototype]. *)
Definition plainChildTitle (title : string) : bool :=
  childTitle title && negb (Js.inherited title).

(** Every section of [lines] stands under a title for children that is no
    key of [Object.prototype]: [under] tells whether such a title is in
    force. *)
Fixpoint childOnly (under : bool) (lines : list string) : bool :=
  match lines with
  | [] => true
  | line :: rest =>
      if String.eqb line EmptyString then childOnly under rest
      else if JsString.startsWith line "# " then
        plainChildTitle (JsString.trim (JsString.slice 1 line))
        && childOnly true rest
      else if JsString.startsWith line "## " then
        (under || String.eqb (JsString.trim (JsString.slice 2 line))
                             EmptyString)
        && childOnly under rest
      else childOnly under rest
  end.

(** A line of the body of a section: not empty, and no heading. *)
Definition bodyLine (line : string) : bool :=
  negb (String.eqb line EmptyString)
  && negb (JsString.startsWith line "# ")
  && negb (JsString.startsWith line "## ").

(** The string made of one line feed. *)
Definition newline : string := String "010" EmptyString.

(** A text with one section, under no title. *)
Definition mainText : string :=
  "## main" ++ newline ++ "set input.a 1" ++ newline ++ "get input.a".

(** The same section under a title for children. *)
Definition botText : string := "# bot" ++ newline ++ mainText.

(** A text with a title and lines, and no section. *)
Definition looseText : string :=
  "# Pipelines" ++ newline ++ "set input.a 1" ++ newline ++ "##main".

(** Whether the jump [k] is taken when [context.floating] is [floating];
    [None] for an operation that is no jump. *)
Definition jumpTaken (k : OpKind) (floating : Value) : option bool :=
  match k with
  | OpGoto => Some true
  | OpJe => Some (Js.truthy floating)
  | OpJne => Some (negb (Js.truthy floating))
  | _ => None
  end.

(** A heap with an input, a context whose cursor is 2 and whose last
    comparison held, and the labels of the context. *)
Definition looping : state :=
  mkState emptyContainer
          [mkObj "Object" [("n", VNum 1)];
           mkObj "Object" [("cursor", VNum 2); ("labels", VObj 2%nat);
                           ("floating", VBool true)];
           mkObj "Object" [("again", VNum 0)]]
          [].

(** A program that goes back to its label while a comparison holds. *)
Definition loopProgram : list (list Token) :=
  DefaultCompilerSyntax.compile ["label again"; "lt input.n 3"; "je again"].

(** A container whose factory holds a singleton under [bot], and a heap
    with a context that has a member of the same name. *)
Definition shadowed : state :=
  mkState (with_factory emptyContainer
             [("bot", mkFactoryItem "bot" true (VObj 0%nat))])
          [mkObj "Bot" []; mkObj "Object" [("bot", VNum 7)]] [].

(** The same heap, with nothing in the factory. *)
Definition unshadowed : state :=
  mkState emptyContainer
          [mkObj "Bot" []; mkObj "Object" [("bot", VNum 7)]] [].

(** The pipelines kept for the children called [childName]. *)
Definition childList (childPipelines : ChildPipelines) (childName : string)
  : list Child.t :=
  match childPipelines with
  | Some d =>
      match Dict.get childName d with
      | Some l => l
      | None => []
      end
  | None => []
  end.

(** [registerPipelineForChilds] called for each of [entries] in turn, an
    entry being the name of the children and what is kept for them. *)
Fixpoint registerAllForChilds (entries : list (string * Child.t))
  (childPipelines : ChildPipelines) : M ChildPipelines :=
  match entries with
  | [] => ret childPipelines
  | e :: rest =>
      let* childPipelines :=
        registerPipelineForChilds (fst e) (Child.tag (snd e))
          (Child.pipeline (snd e)) (Child.overwrite (snd e))
          childPipelines in
      registerAllForChilds rest childPipelines
  end.

(** A line that is not empty. *)
Definition filled (line : string) : bool :=
  negb (String.eqb line EmptyString).

(** * Facts *)

(** ** Induction along the parents of a container *)

Lemma Container_chain_ind (P : Container -> Prop) :
  (forall c, parent c = None -> P c) ->
  (forall c p, parent c = Some p -> P p -> P c) ->
  forall c, P c.
Proof.
  intros H0 H1 c. remember (chainLength c) as n eqn:Hn.
  revert c Hn. induction n as [|n IH]; intros c Hn;
    destruct c as [cl fa pi co ca [p|]]; simpl in Hn; try discriminate.
  - now apply H0.
  - injection Hn as Hn. apply (H1 _ p); [reflexivity|]. now apply IH.
Qed.

(** ** Dictionaries *)

Lemma Dict_get_put_eq {V : Type} (k : string) (v : V) (d : list (string * V)) :
  Dict.get k (Dict.put k v d) = Some v.
Proof.
  induction d as [|[k' v'] d IH]; simpl.
  - now rewrite String.eqb_refl.
  - destruct (String.eqb k k') eqn:E; simpl.
    + now rewrite String.eqb_refl.
    + now rewrite E.
Qed.

Lemma Dict_get_put_ne {V : Type} (k k' : string) (v : V)
  (d : list (string * V)) :
  k <> k' -> Dict.get k' (Dict.put k v d) = Dict.get k' d.
Proof.
  intros Hne. induction d as [|[k0 v0] d IH]; simpl.
  - destruct (String.eqb k' k) eqn:E; [|reflexivity].
    apply String.eqb_eq in E. congruence.
  - destruct (String.eqb k k0) eqn:E; simpl.
    + apply String.eqb_eq in E. subst k0.
      destruct (String.eqb k' k) eqn:E'; [|reflexivity].
      apply String.eqb_eq in E'. congruence.
    + now rewrite IH.
Qed.

(** ** Building pipelines *)

Lemma push_filtered (f : string -> bool) (l acc : list string) :
  fold_left (fun acc x => if f x then (acc ++ [x])%list else acc) l acc
  = (acc ++ List.filter f l)%list.
Proof.
  revert acc. induction l as [|x l IH]; intros acc; simpl.
  - now rewrite app_nil_r.
  - rewrite IH. destruct (f x); simpl; [|reflexivity].
    now rewrite <- app_assoc.
Qed.

Lemma expandLine_spec (prev : list string) (acc : list string) (line : string) :
  expandLine prev acc line = (acc ++ superExpansion [line] prev)%list.
Proof.
  unfold expandLine, superExpansion. simpl.
  destruct (String.eqb (JsString.trim line) "$super").
  - rewrite app_nil_r. apply push_filtered.
  - reflexivity.
Qed.

Lemma expand_all (prev src acc : list string) :
  fold_left (expandLine prev) src acc = (acc ++ superExpansion src prev)%list.
Proof.
  revert acc. induction src as [|line src IH]; intros acc; simpl.
  - now rewrite app_nil_r.
  - rewrite IH, expandLine_spec. unfold superExpansion. simpl.
    now rewrite app_nil_r, <- app_assoc.
Qed.

Lemma compile_map (pipeline : list string) :
  DefaultCompilerSyntax.compile pipeline
  = map DefaultCompilerSyntax.compileLine pipeline.
Proof.
  unfold DefaultCompilerSyntax.compile.
  enough (G : forall acc,
             fold_left
               (fun result line =>
                  (result ++ [DefaultCompilerSyntax.compileLine line])%list)
               pipeline acc
             = (acc ++ map DefaultCompilerSyntax.compileLine pipeline)%list)
    by apply (G []).
  induction pipeline as [|l p IH]; intros acc; simpl.
  - now rewrite app_nil_r.
  - rewrite IH. now rewrite <- app_assoc.
Qed.

(** ** Keys of [Object.prototype] *)

Lemma inherited_proto : Js.inherited "__proto__" = true.
Proof. reflexivity. Qed.

Lemma setsPrototype_inherited {V : Type} (k : string)
  (d : list (string * V)) :
  Js.inherited k = false -> Dict.setsPrototype k d = false.
Proof.
  unfold Dict.setsPrototype. intros Hk.
  destruct (String.eqb k "__proto__") eqn:E; [|reflexivity].
  apply String.eqb_eq in E. subst k. discriminate.
Qed.

Lemma setsPrototype_own {V : Type} (k : string) (d : list (string * V)) :
  Dict.has k d = true -> Dict.setsPrototype k d = false.
Proof.
  unfold Dict.setsPrototype. intros ->. now rewrite andb_false_r.
Qed.

Lemma stored_put (k : string) (x : Value) (d : list (string * Value)) :
  Dict.setsPrototype k d = false -> Js.stored k x d = Some (Dict.put k x d).
Proof. unfold Js.stored. now intros ->. Qed.

(** ** Compilers *)

Lemma getCompiler_spec (c : Container) (name : string) :
  getCompiler c name
  = if Js.inherited name then None else Some DefaultCompiler.
Proof.
  induction c as [c Hc|c p Hp IH] using Container_chain_ind;
    destruct c as [cl fa pi co ca pa]; simpl in *; subst pa;
    destruct (String.eqb name "default") eqn:E;
    try (apply String.eqb_eq in E; subst name; reflexivity);
    destruct (Js.inherited name); try reflexivity.
  exact IH.
Qed.

Lemma buildPipeline_built (src prev : list string) (st : state) :
  compilable src prev = true ->
  buildPipeline src prev st = Ret (built src prev) st.
Proof.
  unfold compilable, buildPipeline, bind, this_container. intros Hc.
  rewrite getCompiler_spec.
  apply negb_true_iff in Hc. now rewrite Hc.
Qed.

Lemma buildPipeline_raises (src prev : list string) (st : state) :
  compilable src prev = false ->
  buildPipeline src prev st = Throw TypeError st.
Proof.
  unfold compilable, buildPipeline, bind, this_container. intros Hc.
  rewrite getCompiler_spec.
  apply negb_false_iff in Hc. now rewrite Hc.
Qed.

Lemma built_lines (src prev : list string) :
  pipeline (built src prev) = superExpansion src prev.
Proof. unfold built. simpl. now rewrite expand_all. Qed.

Section ContainerFacts.

Context `{Host}.

(** C5: [buildPipeline] keeps the source lines in order, except that a line
    whose trimmed value is [$super] is replaced, where it stands, by the
    lines of the previous version that do not begin with an arrow once
    trimmed; and [registerPipeline] with [overwrite] hands the lines of the
    pipeline already stored under the tag to [buildPipeline] as that
    previous version, whether the build succeeds or raises.
    [buildPipeline] returns unless the first of the expanded lines asks
    for a compiler under a key of [Object.prototype]: what [getCompiler]
    finds there cannot compile, and a [TypeError] is raised. *)
Theorem C5_super_expansion (srcPipeline prevPipeline : list string) :
  (forall st : state,
      match buildPipeline srcPipeline prevPipeline st with
      | Ret p st' =>
          pipeline p = superExpansion srcPipeline prevPipeline
          /\ st' = st
          /\ compilable srcPipeline prevPipeline = true
      | Throw e st' =>
          e = TypeError /\ st' = st
          /\ compilable srcPipeline prevPipeline = false
      | OutOfFuel | Unsupported => False
      end)
  /\ (forall (st : state) (tag : string) (p : Pipeline),
         Dict.get tag (pipelines (container st)) = Some p ->
         registerPipeline tag srcPipeline true st
         = (let* q := buildPipeline srcPipeline (pipeline p) in
            update_container
              (fun c => with_pipelines c (Dict.put tag q (pipelines c))))
             (with_container st
                (with_cache (container st)
                   (Cache.mk (Cache.bestKeys (cache (container st))) []))))
  /\ forall (st : state) (tag : string) (p : Pipeline),
       Dict.get tag (pipelines (container st)) = Some p ->
       compilable srcPipeline (pipeline p) = true ->
       exists st' q,
         registerPipeline tag srcPipeline true st = Ret tt st'
         /\ Dict.get tag (pipelines (container st')) = Some q
         /\ pipeline q = superExpansion srcPipeline (pipeline p).
Proof.
  split; [|split].
  2:{ intros st tag p Hp.
      unfold registerPipeline. unfold bind at 1. unfold this_container.
      rewrite orb_true_l.
      unfold bind at 1. unfold update_container at 1.
      unfold bind at 1. unfold getPipeline, bind, this_container.
      simpl. now rewrite Hp. }
  - intros st.
    destruct (compilable srcPipeline prevPipeline) eqn:Hc.
    + rewrite (buildPipeline_built _ _ _ Hc).
      split; [apply built_lines|]. now split.
    + rewrite (buildPipeline_raises _ _ _ Hc). now repeat split.
  - intros st tag p Hp Hc.
    unfold registerPipeline. unfold bind at 1. unfold this_container.
    rewrite orb_true_l.
    unfold bind at 1. unfold update_container at 1.
    unfold bind at 1. unfold getPipeline, bind, this_container.
    simpl. rewrite Hp. unfold ret at 1.
    rewrite (buildPipeline_built _ _ _ Hc).
    eexists. exists (built srcPipeline (pipeline p)).
    split; [reflexivity|]. simpl.
    split; [apply Dict_get_put_eq | apply built_lines].
Qed.

(** C8, as the code has it: with [overwrite] false, [registerPipeline] on a
    tag that holds a pipeline and [registerConfiguration] on a tag that
    holds a truthy configuration return without raising and leave the whole
    state as it was. *)
Theorem C8_present_and_truthy_is_kept (st : state) (tag : string)
  (lines : list string) (configuration : Value) :
  (Dict.has tag (pipelines (container st)) = true ->
   registerPipeline tag lines false st = Ret tt st)
  /\ (forall v, Dict.get tag (configurations (container st)) = Some v ->
                Js.truthy v = true ->
                registerConfiguration tag configuration false st = Ret tt st).
Proof.
  split.
  - intros Hhas. unfold registerPipeline, bind, this_container. simpl.
    now rewrite Hhas.
  - intros v Hv Ht. unfold registerConfiguration, bind, this_container. simpl.
    now rewrite Hv, Ht.
Qed.

End ContainerFacts.

Lemma C5_super_expansion_witness :
  exists st' q,
    registerPipeline (H := quietHost) "t" ["a"; " $super"; "b"] true
      (mkState (with_pipelines emptyContainer [("t", built ["x"; "->y"] [])])
               [] [])
    = Ret tt st'
    /\ Dict.get "t" (pipelines (container st')) = Some q
    /\ pipeline q = superExpansion ["a"; " $super"; "b"] ["x"; "->y"].
Proof.
  apply (proj2 (proj2 (C5_super_expansion (H := quietHost)
                         ["a"; " $super"; "b"] ["x"; "->y"]))
               (mkState (with_pipelines emptyContainer
                           [("t", built ["x"; "->y"] [])])
                        [] [])
               "t" (built ["x"; "->y"] []));
    reflexivity.
Defined.

Lemma C8_present_and_truthy_is_kept_witness :
  registerConfiguration "t" (VNum 1) false
    (mkState (with_configurations emptyContainer [("t", VNum 7)]) [] [])
  = Ret tt (mkState (with_configurations emptyContainer [("t", VNum 7)]) [] []).
Proof.
  apply (proj2 (C8_present_and_truthy_is_kept (H := quietHost)
                  (mkState (with_configurations emptyContainer [("t", VNum 7)])
                           [] [])
                  "t" [] (VNum 1)) (VNum 7)); reflexivity.
Defined.

(** C8, as stated, fails: a configuration that is present but falsy is
    overwritten although [overwrite] is false. *)
Lemma C8_falsy_configuration_is_overwritten :
  Dict.has "t" (configurations (container zeroConfiguration)) = true
  /\ registerConfiguration "t" (VNum 1) false zeroConfiguration
     <> Ret tt zeroConfiguration.
Proof.
  split; [reflexivity|]. vm_compute. discriminate.
Qed.

(** ** Reading the heap *)

Section PathFacts.

Context `{Host}.

Lemma getProp_pure (v : Value) (k : string) (st : state) :
  match getProp v k st with
  | Ret _ st' | Throw _ st' => st' = st
  | OutOfFuel | Unsupported => True
  end.
Proof.
  destruct v; cbv [getProp bind read ret throw unsupported lift];
    try reflexivity;
    try (match goal with
         | |- context [if ?b then _ else _] => now destruct b
         end).
  - now destruct (stringMember s k).
  - destruct (heap st !! l) as [o|]; [|exact I].
    now destruct (lookup o k).
Qed.

Lemma peek_Some (st : state) (v : Value) (k : string) (x : Value) :
  peek st v k = Some x -> getProp v k st = Ret x st.
Proof.
  unfold peek. intros Hp. pose proof (getProp_pure v k st) as Hs.
  destruct (getProp v k st); try discriminate.
  injection Hp as ->. now subst.
Qed.

Lemma falsy_not_function (x : Value) :
  Js.truthy x = false -> Js.is_function x = false.
Proof. destruct x; simpl; intros; congruence. Qed.

Lemma walk_descend (step : string) (n : nat) (st : state)
  (pre rest : list string) :
  forall (i : nat) (root v : Value),
    descend st root pre = Some v ->
    (i + List.length (pre ++ rest) <= n)%nat ->
    walk step n i (pre ++ rest) root st
    = walk step n (i + List.length pre) rest v st.
Proof.
  induction pre as [|k pre IH]; intros i root v Hd Hn.
  - simpl in Hd. injection Hd as ->. simpl. now rewrite Nat.add_0_r.
  - simpl in Hd. destruct (Js.truthy root) eqn:Hr; [|discriminate].
    destruct (peek st root k) as [x|] eqn:Hp; [|discriminate].
    destruct (Js.truthy x) eqn:Hx; [|discriminate].
    apply peek_Some in Hp.
    simpl. cbv [bind ret]. rewrite Hr. simpl. rewrite Hp, Hx. simpl.
    rewrite Hp.
    rewrite (IH (S i) _ v Hd).
    + simpl. f_equal. lia.
    + simpl in Hn. lia.
Qed.

Lemma walk_breaks (step : string) (n i : nat) (st : state) (k : string)
  (post : list string) (v : Value) :
  (i < n - 1)%nat ->
  (Js.truthy v = false
   \/ exists x, peek st v k = Some x /\ Js.truthy x = false) ->
  walk step n i (k :: post) v st = Throw (PathNotFound step) st.
Proof.
  intros Hi Hf. simpl. cbv [bind ret throw].
  assert (E : (i <? n - 1)%nat = true) by now apply Nat.ltb_lt.
  destruct (Js.truthy v) eqn:Hv; simpl.
  - destruct Hf as [Hf|[x [Hp Hx]]]; [discriminate|].
    apply peek_Some in Hp. rewrite Hp, Hx. simpl. now rewrite E.
  - now rewrite E.
Qed.

Lemma walk_last (step : string) (n i : nat) (st : state) (k : string)
  (v x : Value) :
  i = (n - 1)%nat ->
  peek st v k = Some x ->
  Js.truthy x = false ->
  walk step n i [k] v st = Ret x st.
Proof.
  intros Hi Hp Hx. apply peek_Some in Hp. simpl. cbv [bind ret throw].
  assert (E : (i <? n - 1)%nat = false) by (apply Nat.ltb_ge; lia).
  destruct (Js.truthy v); simpl; rewrite ?Hp; simpl;
    rewrite E, ?andb_false_r, ?Hp; simpl;
    now rewrite ?(falsy_not_function x Hx).
Qed.

Lemma resolve_not_literal (step : string) (context input srcObject : Value) :
  literalHead (headToken step) = false ->
  resolvePathWithType (Some step) context input srcObject
  = (let* root := resolveRoot (headToken step) context input srcObject in
     let* currentObject :=
       walk step (List.length (JsString.split "." step)) 1
            (tl (JsString.split "." step)) root in
     if Js.is_function currentObject
     then ret (mkResolved function step currentObject context)
     else ret (mkResolved reference step currentObject context)).
Proof.
  unfold literalHead, resolvePathWithType. intros Hl.
  repeat (apply orb_false_elim in Hl as [Hl ?]).
  now repeat match goal with E : _ = false |- _ => rewrite E; clear E end.
Qed.

(** C10: on a dotted path whose head is no literal, once the root is
    resolved, a token that is not the last and whose value is falsy (or
    whose owner is) makes [resolvePathWithType] raise [PathNotFound], be
    the key there or not; when every token before the last has a truthy
    value and the last one reads as a falsy value, nothing is raised and
    the result is a reference whose value is what that read gave. *)
Theorem C10_falsy_step_raises_unless_last (step : string)
  (context input srcObject : Value) (st st1 : state) (root : Value)
  (first : string) (rest : list string) :
  JsString.split "." step = first :: rest ->
  literalHead (headToken step) = false ->
  resolveRoot (headToken step) context input srcObject st = Ret root st1 ->
  (forall pre k post v,
      rest = (pre ++ k :: post)%list -> post <> [] ->
      descend st1 root pre = Some v ->
      (Js.truthy v = false
       \/ exists x, peek st1 v k = Some x /\ Js.truthy x = false) ->
      resolvePathWithType (Some step) context input srcObject st
      = Throw (PathNotFound step) st1)
  /\ (forall pre k v x,
         rest = (pre ++ [k])%list ->
         descend st1 root pre = Some v ->
         peek st1 v k = Some x ->
         Js.truthy x = false ->
         resolvePathWithType (Some step) context input srcObject st
         = Ret (mkResolved reference step x context) st1).
Proof.
  intros Hsplit Hlit Hroot.
  rewrite (resolve_not_literal _ _ _ _ Hlit), Hsplit. simpl tl.
  split.
  - intros pre k post v -> Hpost Hd Hf.
    unfold bind at 1. rewrite Hroot. unfold bind at 1.
    rewrite (walk_descend step _ st1 pre (k :: post) 1 root v Hd).
    + rewrite walk_breaks; [reflexivity| |exact Hf].
      simpl. rewrite length_app. simpl.
      destruct post; [contradiction|simpl; lia].
    + simpl. lia.
  - intros pre k v x -> Hd Hp Hx.
    unfold bind at 1. rewrite Hroot. unfold bind at 1.
    rewrite (walk_descend step _ st1 pre [k] 1 root v Hd).
    + rewrite (walk_last step _ _ st1 k v x); [|simpl|exact Hp|exact Hx].
      * now rewrite (falsy_not_function x Hx).
      * rewrite length_app. simpl. lia.
    + simpl. lia.
Qed.

End PathFacts.

Lemma C10_falsy_step_raises_unless_last_witness :
  resolvePathWithType (H := quietHost) (Some "input.a.b") VUndef (VObj 0%nat)
    VUndef (mkState emptyContainer [mkObj "Object" [("a", VNum 0)]] [])
  = Throw (PathNotFound "input.a.b")
          (mkState emptyContainer [mkObj "Object" [("a", VNum 0)]] [])
  /\ resolvePathWithType (H := quietHost) (Some "input.a.b") VUndef
       (VObj 0%nat) VUndef
       (mkState emptyContainer
          [mkObj "Object" [("a", VObj 1%nat)]; mkObj "Object" [("b", VNull)]]
          [])
     = Ret (mkResolved reference "input.a.b" VNull VUndef)
           (mkState emptyContainer
              [mkObj "Object" [("a", VObj 1%nat)];
               mkObj "Object" [("b", VNull)]]
              []).
Proof.
  split.
  - apply (proj1 (C10_falsy_step_raises_unless_last (H := quietHost)
                    "input.a.b" VUndef (VObj 0%nat) VUndef _ _ (VObj 0%nat)
                    "input" ["a"; "b"] eq_refl eq_refl eq_refl)
                 [] "a" ["b"] (VObj 0%nat));
      [reflexivity | discriminate | reflexivity |].
    right. exists (VNum 0). split; reflexivity.
  - apply (proj2 (C10_falsy_step_raises_unless_last (H := quietHost)
                    "input.a.b" VUndef (VObj 0%nat) VUndef _ _ (VObj 0%nat)
                    "input" ["a"; "b"] eq_refl eq_refl eq_refl)
                 ["a"] "b" (VObj 1%nat) VNull);
      reflexivity.
Defined.

(** ** Blank lines *)

Lemma compileLine_blank (line : string) :
  JsString.trim line = EmptyString ->
  DefaultCompilerSyntax.compileLine line = [Reference EmptyString].
Proof.
  intros Ht. unfold DefaultCompilerSyntax.compileLine. rewrite Ht.
  reflexivity.
Qed.

Section BlankLines.

Context `{Host}.


End BlankLines.



(** ** The counter pipeline *)

(** C1, as the code has it: on an input that is an empty object, the
    counter pipeline built by the default compiler ends, whatever the
    container, the source object and the host (whose plain objects have no
    member called [input]); the input object then holds [count] = 3 and
    nothing else, and the value returned is [undefined], because the last
    line, [get input], reads the key [input] of the execution context. *)
Theorem C1_counter_updates_input_returns_undefined `{Host} (c : Container)
  (tr : list event) (srcObject : Value) :
  class_method "Object" "input" = None ->
  exists (fuel : nat) (st' : state),
    (let* p := buildPipeline counterLines [] in
     runPipeline fuel (SrcPipeline p) (VObj 0%nat) srcObject 0)
      (mkState c [mkObj "Object" []] tr)
    = Ret VUndef st'
    /\ heap st' !! 0%nat = Some (mkObj "Object" [("count", VNum 3)])
    /\ container st' = c.
Proof.
  intros Hinput. destruct H as [cw cm hc]. simpl in Hinput.
  exists 13%nat. eexists.
  unfold bind at 1. rewrite buildPipeline_built by reflexivity.
  vm_compute. rewrite Hinput. repeat split.
Qed.

Lemma C1_counter_updates_input_returns_undefined_witness :
  exists (fuel : nat) (st' : state),
    (let* p := buildPipeline counterLines [] in
     runPipeline (H := quietHost) fuel (SrcPipeline p) (VObj 0%nat) VNull 0)
      emptyInput
    = Ret VUndef st'
    /\ heap st' !! 0%nat = Some (mkObj "Object" [("count", VNum 3)])
    /\ container st' = emptyContainer.
Proof.
  apply (C1_counter_updates_input_returns_undefined (H := quietHost)
           emptyContainer [] VNull).
  reflexivity.
Defined.

(** C1, as stated, fails: run on the empty object at 0, the counter
    pipeline never returns an object, whatever the fuel. *)
Lemma C1_counter_does_not_return_the_input :
  ~ exists (fuel : nat) (l : loc) (st' : state),
      runPipeline (H := quietHost) fuel (SrcLines counterLines) (VObj 0%nat)
                  VUndef 0 emptyInput
      = Ret (VObj l) st'.
Proof.
  intros [fuel [l [st' E]]].
  do 13 (destruct fuel as [|fuel]; [vm_compute in E; discriminate|]).
  vm_compute in E. discriminate.
Qed.

(** ** What every operation leaves in place

    Everything but [runPipeline] is [tame]. *)

Lemma extends_refl (st : state) : extends st st.
Proof. exists []. now rewrite app_nil_r. Qed.

Lemma extends_trans (a b c : state) : extends a b -> extends b c -> extends a c.
Proof.
  intros [x Hx] [y Hy]. exists (x ++ y)%list.
  now rewrite Hy, Hx, app_assoc.
Qed.

Lemma extends_same_trace (a b : state) : trace b = trace a -> extends a b.
Proof. intros E. exists []. now rewrite app_nil_r. Qed.

Lemma tame_ret {A : Type} (a : A) : tame (ret a).
Proof. intros st. apply extends_refl. Qed.

Lemma tame_throw {A : Type} (e : error) :
  e <> PipelineDepthExceeded -> tame (throw (A := A) e).
Proof. intros He st. split; [apply extends_refl | exact He]. Qed.

Lemma tame_unsupported {A : Type} : tame (unsupported (A := A)).
Proof. intros st. exact I. Qed.

Lemma tame_lift {A : Type} (o : option A) : tame (lift o).
Proof. destruct o; [apply tame_ret | apply tame_unsupported]. Qed.

Lemma tame_bind {A B : Type} (m : M A) (k : A -> M B) :
  tame m -> (forall a, tame (k a)) -> tame (bind m k).
Proof.
  intros Hm Hk st. unfold bind. specialize (Hm st).
  destruct (m st) as [a st1|e st1| |]; try exact Hm.
  specialize (Hk a st1).
  destruct (k a st1) as [b st2|e st2| |]; try exact I.
  - eapply extends_trans; eassumption.
  - destruct Hk as [Hk He]. split; [|exact He].
    eapply extends_trans; eassumption.
Qed.

Lemma tame_heap_step {A : Type} (f : state -> A) (g : state -> list obj) :
  tame (fun st => Ret (f st) (with_heap st (g st))).
Proof. intros st. now apply extends_same_trace. Qed.

Lemma tame_container_step (f : Container -> Container) :
  tame (update_container f).
Proof. intros st. now apply extends_same_trace. Qed.

Lemma tame_this_container : tame this_container.
Proof. intros st. apply extends_refl. Qed.

Create HintDb tame discriminated.

#[export] Hint Resolve tame_ret tame_unsupported tame_lift tame_container_step
  tame_this_container : tame.

(** Takes a goal [tame m] apart along the shape of [m]. *)
Ltac tame_step :=
  match goal with
  | |- tame (bind _ _) => apply tame_bind; [|intros ?]
  | |- tame (throw _) => apply tame_throw; discriminate
  | |- tame (if ?b then _ else _) => destruct b
  | |- tame (match ?x with _ => _ end) => destruct x
  | |- tame (let _ := _ in _) => cbv zeta
  | |- tame _ => solve [eauto with tame]
  end.

Ltac tame_auto := repeat tame_step.

Section Tame.

Context `{Host}.

Lemma tame_alloc (o : obj) : tame (alloc o).
Proof. intros st. now apply extends_same_trace. Qed.

Lemma tame_read (l : loc) : tame (read l).
Proof.
  intros st. unfold read. destruct (heap st !! l); [apply extends_refl|exact I].
Qed.

Lemma tame_write (l : loc) (o : obj) : tame (write l o).
Proof. intros st. now apply extends_same_trace. Qed.

Hint Resolve tame_alloc tame_read tame_write : tame.

Lemma tame_getProp (v : Value) (k : string) : tame (getProp v k).
Proof. unfold getProp. tame_auto. Qed.

Lemma tame_setProp (v : Value) (k : string) (x : Value) : tame (setProp v k x).
Proof. unfold setProp. tame_auto. Qed.

Lemma tame_deleteProp (v : Value) (k : string) : tame (deleteProp v k).
Proof. unfold deleteProp. tame_auto. Qed.

Lemma tame_constructorOf (v : Value) : tame (constructorOf v).
Proof.
  unfold constructorOf. destruct v; try apply tame_getProp; tame_auto.
Qed.

Lemma tame_callFunction (f : Value) (this : option loc) (args : list Value) :
  tame (callFunction f this args).
Proof.
  unfold callFunction. destruct f; try (apply tame_throw; discriminate).
  intros st. simpl.
  destruct (host_call _ _ _ _); simpl;
    repeat split; try discriminate; now eexists.
Qed.

Lemma tame_callMethod (m receiver : Value) (args : list Value) :
  tame (callMethod m receiver args).
Proof. apply tame_callFunction. Qed.

Lemma tame_construct (Clazz : Value) (args : list Value) :
  tame (construct Clazz args).
Proof.
  unfold construct. destruct Clazz; try (apply tame_throw; discriminate).
  apply tame_bind; [apply tame_alloc|]. intros [| | | | | |l| |]; tame_auto.
  intros st. simpl.
  destruct (host_call _ _ _ _); simpl;
    repeat split; try discriminate; now eexists.
Qed.

Hint Resolve tame_getProp tame_setProp tame_deleteProp tame_constructorOf
  tame_callFunction tame_callMethod tame_construct : tame.

Lemma tame_constructorName (instance : Value) :
  tame (constructorName instance).
Proof. unfold constructorName. tame_auto. Qed.

Hint Resolve tame_constructorName : tame.

Lemma tame_toJSON (instance : Value) : tame (toJSON instance).
Proof. unfold toJSON. tame_auto. Qed.

Lemma tame_fromJSON (obj settings : Value) : tame (fromJSON obj settings).
Proof. unfold fromJSON. tame_auto. Qed.

Lemma tame_register (name : string) (Clazz : Value) (isSingleton : bool) :
  tame (register name Clazz isSingleton).
Proof. unfold register. tame_auto. Qed.

Lemma tame_getBestKey (name : string) : tame (getBestKey name).
Proof. unfold getBestKey, setBestKey. tame_auto. Qed.

Lemma tame_instantiate (item : FactoryItem) (settings : Value) :
  tame (instantiate item settings).
Proof. unfold instantiate. tame_auto. Qed.

Hint Resolve tame_getBestKey tame_instantiate : tame.

Lemma tame_from {A : Type} (m : M A) (st st0 : state) :
  tame m ->
  trace st0 = trace st ->
  match m st0 with
  | Ret _ st' => extends st st'
  | Throw e st' => extends st st' /\ e <> PipelineDepthExceeded
  | OutOfFuel | Unsupported => True
  end.
Proof.
  intros Hm Ht. specialize (Hm st0). unfold extends in *.
  rewrite Ht in Hm. exact Hm.
Qed.

Lemma tame_get_in (c : Container) :
  forall (name : string) (settings : Value),
    tame (get_in c name settings).
Proof.
  induction c as [c Hp|c p Hp IH] using Container_chain_ind;
    intros name settings st; destruct c as [cl fa pi co ca pa];
    simpl in Hp; subst pa; simpl.
  - destruct (Dict.get name fa) as [item|].
    + apply tame_from; [apply tame_instantiate|reflexivity].
    + destruct (Js.inherited name).
      * split; [now apply extends_same_trace|discriminate].
      * apply tame_from; [|reflexivity]. unfold itemAt. tame_auto.
  - destruct (Dict.get name fa) as [item|].
    + apply tame_from; [apply tame_instantiate|reflexivity].
    + destruct (Js.inherited name).
      * split; [now apply extends_same_trace|discriminate].
      * specialize (IH name settings st).
        destruct (get_in p name settings st) as [v st'|e st'| |];
          try exact I; unfold extends in *; simpl; exact IH.
Qed.

Lemma tame_get (name : string) (settings : Value) : tame (get name settings).
Proof. intros st. apply tame_get_in. Qed.

Hint Resolve tame_get : tame.

Lemma tame_walk (step : string) (n : nat) (rest : list string) :
  forall (i : nat) (v : Value), tame (walk step n i rest v).
Proof.
  induction rest as [|k rest IH]; intros i v; simpl; [apply tame_ret|].
  tame_auto.
Qed.

Hint Resolve tame_walk : tame.

Lemma tame_resolveRoot (token : string) (context input srcObject : Value) :
  tame (resolveRoot token context input srcObject).
Proof. unfold resolveRoot. tame_auto. Qed.

Hint Resolve tame_resolveRoot : tame.

Lemma tame_resolvePathWithType (step : option string)
  (context input srcObject : Value) :
  tame (resolvePathWithType step context input srcObject).
Proof. unfold resolvePathWithType, buildLiteral. tame_auto. Qed.

Hint Resolve tame_resolvePathWithType : tame.

Lemma tame_resolvePath (step : option string)
  (context input srcObject : Value) :
  tame (resolvePath step context input srcObject).
Proof. unfold resolvePath. tame_auto. Qed.

Hint Resolve tame_resolvePath : tame.

Lemma tame_splitPath (path : option string) : tame (splitPath path).
Proof. unfold splitPath. tame_auto. Qed.

Hint Resolve tame_splitPath : tame.

Lemma tame_setValue (path valuePath : option string)
  (context input srcObject : Value) :
  tame (setValue path valuePath context input srcObject).
Proof. unfold setValue. tame_auto. Qed.

Lemma tame_incValue (path valuePath : option string)
  (context input srcObject : Value) :
  tame (incValue path valuePath context input srcObject).
Proof. unfold incValue. tame_auto. Qed.

Lemma tame_decValue (path valuePath : option string)
  (context input srcObject : Value) :
  tame (decValue path valuePath context input srcObject).
Proof. unfold decValue. tame_auto. Qed.

Lemma tame_compareValue (op : Value -> Value -> option bool)
  (pathA pathB : option string) (context input srcObject : Value) :
  tame (compareValue op pathA pathB context input srcObject).
Proof. unfold compareValue. tame_auto. Qed.

Lemma tame_deleteValue (path : option string)
  (context input srcObject : Value) :
  tame (deleteValue path context input srcObject).
Proof. unfold deleteValue. tame_auto. Qed.

Lemma tame_getValue (srcPath : option string)
  (context input srcObject : Value) :
  tame (getValue srcPath context input srcObject).
Proof. unfold getValue. tame_auto. Qed.

Lemma tame_getPipeline (tag : string) : tame (getPipeline tag).
Proof. unfold getPipeline, setCachedPipeline. tame_auto. Qed.

Hint Resolve tame_getPipeline : tame.

Lemma tame_buildPipeline (srcPipeline prevPipeline : list string) :
  tame (buildPipeline srcPipeline prevPipeline).
Proof. unfold buildPipeline. tame_auto. Qed.

Hint Resolve tame_buildPipeline : tame.

Lemma tame_registerPipeline (tag : string) (lines : list string)
  (overwrite : bool) :
  tame (registerPipeline tag lines overwrite).
Proof. unfold registerPipeline. tame_auto. Qed.

Lemma tame_reify (r : Resolved) : tame (reify r).
Proof. unfold reify. tame_auto. Qed.

Hint Resolve tame_reify : tame.

Lemma tame_resolveArgs (rest : list Token) (context input srcObject : Value) :
  tame (resolveArgs rest context input srcObject).
Proof. induction rest as [|t rest IH]; simpl; tame_auto. Qed.

Hint Resolve tame_resolveArgs : tame.

Lemma tame_executeReference (step : list Token) (firstToken : string)
  (context input srcObject : Value) :
  tame (executeReference step firstToken context input srcObject).
Proof. unfold executeReference. tame_auto. Qed.

Lemma tame_doGoto (label : option string) (context : Value) :
  tame (doGoto label context).
Proof. unfold doGoto. tame_auto. Qed.

Lemma tame_operand_of (step : list Token) (i : nat) : tame (operand_of step i).
Proof. unfold operand_of. tame_auto. Qed.

Hint Resolve tame_operand_of : tame.

Lemma tame_findLabelsFrom (compiled : list (list Token)) (labels : Value) :
  forall i, tame (findLabelsFrom i compiled labels).
Proof.
  induction compiled as [|current rest IH]; intros i; simpl; [apply tame_ret|].
  tame_auto.
Qed.

Lemma tame_log (e : event) : tame (fun st => Ret tt (log e st)).
Proof. intros st. now exists [e]. Qed.

Lemma tame_prepare (compiled : list (list Token)) (depth : Z) :
  tame (prepare compiled depth).
Proof.
  unfold prepare, findLabels.
  apply tame_bind; [apply tame_log|intros _].
  pose proof tame_findLabelsFrom. tame_auto.
Qed.

End Tame.

#[export] Hint Resolve tame_alloc tame_read tame_write tame_getProp
  tame_setProp tame_deleteProp tame_constructorOf tame_callFunction
  tame_callMethod tame_construct tame_getBestKey tame_instantiate tame_get
  tame_walk tame_resolveRoot tame_resolvePathWithType tame_resolvePath
  tame_splitPath tame_setValue tame_incValue tame_decValue tame_compareValue
  tame_deleteValue tame_getValue tame_getPipeline tame_buildPipeline
  tame_registerPipeline
  tame_reify tame_resolveArgs tame_executeReference tame_doGoto
  tame_operand_of tame_findLabelsFrom tame_prepare : tame.

(** ** Running step by step *)

Lemma bind_Ret {A B : Type} (m : M A) (k : A -> M B) (st st1 : state) (a : A) :
  m st = Ret a st1 -> bind m k st = k a st1.
Proof. intros E. unfold bind. now rewrite E. Qed.

Lemma bind_Throw {A B : Type} (m : M A) (k : A -> M B) (st st1 : state)
  (e : error) :
  m st = Throw e st1 -> bind m k st = Throw e st1.
Proof. intros E. unfold bind. now rewrite E. Qed.

Lemma with_heap_same (st : state) : with_heap st (heap st) = st.
Proof. now destruct st. Qed.

(** The two objects an activation adds at the end of the heap. *)

Lemma cells_lookup_ctx (h : list obj) (C B : obj) :
  (h ++ [C; B])%list !! List.length h = Some C.
Proof. rewrite lookup_app_r by lia. now rewrite Nat.sub_diag. Qed.

Lemma cells_lookup_lab (h : list obj) (C B : obj) :
  (h ++ [C; B])%list !! S (List.length h) = Some B.
Proof.
  rewrite lookup_app_r by lia.
  now replace (S (List.length h) - List.length h)%nat with 1%nat by lia.
Qed.

Lemma cells_lookup_old (h : list obj) (C B : obj) (l : nat) :
  (l < List.length h)%nat -> (h ++ [C; B])%list !! l = h !! l.
Proof. intros Hl. now apply lookup_app_l. Qed.

Lemma cells_insert_ctx (h : list obj) (C B C' : obj) :
  <[List.length h := C']> (h ++ [C; B])%list = (h ++ [C'; B])%list.
Proof.
  rewrite insert_app_r_alt by lia. now rewrite Nat.sub_diag.
Qed.

Lemma cells_insert_lab (h : list obj) (C B B' : obj) :
  <[S (List.length h) := B']> (h ++ [C; B])%list = (h ++ [C; B'])%list.
Proof.
  rewrite insert_app_r_alt by lia.
  now replace (S (List.length h) - List.length h)%nat with 1%nat by lia.
Qed.

Lemma cells_insert_old (h : list obj) (C B o : obj) (l : nat) :
  (l < List.length h)%nat ->
  <[l := o]> (h ++ [C; B])%list = (<[l := o]> h ++ [C; B])%list.
Proof. intros Hl. now apply insert_app_l. Qed.

Section Stepping.

Context `{Host}.

Lemma lookup_member (o : obj) (k : string) :
  Js.inherited k = false -> lookup o k = Some (member o k).
Proof. unfold lookup. now intros ->. Qed.

Lemma lookup_own (o : obj) (k : string) (x : Value) :
  Dict.get k (props o) = Some x -> lookup o k = Some x.
Proof.
  unfold lookup, member. intros ->. now destruct (Js.inherited k).
Qed.

Lemma member_own (o : obj) (k : string) (x : Value) :
  Dict.get k (props o) = Some x -> member o k = x.
Proof. unfold member. now intros ->. Qed.

Lemma getProp_obj (st : state) (l : loc) (o : obj) (k : string) :
  heap st !! l = Some o ->
  Js.inherited k = false ->
  getProp (VObj l) k st = Ret (member o k) st.
Proof.
  intros E Hk. cbv [getProp bind read ret]. rewrite E.
  now rewrite (lookup_member _ _ Hk).
Qed.

Lemma getProp_own (st : state) (l : loc) (o : obj) (k : string) (x : Value) :
  heap st !! l = Some o ->
  Dict.get k (props o) = Some x ->
  getProp (VObj l) k st = Ret x st.
Proof.
  intros E Hk. cbv [getProp bind read ret]. rewrite E.
  now rewrite (lookup_own _ _ _ Hk).
Qed.

Lemma setProp_obj (st : state) (l : loc) (o : obj) (k : string) (x : Value) :
  heap st !! l = Some o ->
  Dict.setsPrototype k (props o) = false ->
  setProp (VObj l) k x st
  = Ret tt (with_heap st (<[l := assigned o k x]> (heap st))).
Proof.
  intros E Hk. cbv [setProp bind read write ret]. rewrite E.
  now rewrite (stored_put _ _ _ Hk).
Qed.

Lemma setProp_label (st : state) (l : loc) (acc : list (string * Value))
  (k : string) (i : nat) :
  heap st !! l = Some (mkObj "Object" acc) ->
  setProp (VObj l) k (VNum (Z.of_nat i)) st
  = Ret tt (with_heap st
              (<[l := mkObj "Object" (recordLabel k i acc)]> (heap st))).
Proof.
  intros E. cbv [setProp bind read write ret]. rewrite E.
  unfold Js.stored, recordLabel. simpl.
  now destruct (Dict.setsPrototype k acc).
Qed.

Lemma findLabelsFrom_scan (compiled : list (list Token)) (lb : loc) :
  forall (i : nat) (st : state) (acc acc' : list (string * Value)),
    heap st !! lb = Some (mkObj "Object" acc) ->
    scanLabels i compiled acc = Some acc' ->
    findLabelsFrom i compiled (VObj lb) st
    = Ret tt (with_heap st (<[lb := mkObj "Object" acc']> (heap st))).
Proof.
  induction compiled as [|current rest IH]; intros i st acc acc' Hlb Hs;
    simpl in *.
  - injection Hs as <-. rewrite list_insert_id by exact Hlb.
    now rewrite with_heap_same.
  - destruct (current !! 0%nat) as [[v|[]|v|v]|]; try discriminate;
      try (now apply (IH _ _ acc)).
    unfold operand_of. destruct (current !! 1%nat) as [t|]; [|discriminate].
    rewrite (bind_Ret _ _ st st (token_value t)) by reflexivity.
    rewrite (bind_Ret _ _ _ _ _ (setProp_label st lb _ _ _ Hlb)).
    pose proof (lookup_lt_Some _ _ _ Hlb) as Hlt.
    set (o := mkObj "Object" (recordLabel (key_of (token_value t)) i acc)).
    assert (E : heap (with_heap st (<[lb := o]> (heap st))) !! lb = Some o)
      by (simpl; now apply list_lookup_insert_eq).
    rewrite (IH _ _ _ acc' E Hs).
    simpl. now rewrite list_insert_insert_eq.
Qed.

Lemma prepare_fresh (compiled : list (list Token)) (depth : Z) (st : state)
  (labs : list (string * Value)) :
  scanLabels 0 compiled [] = Some labs ->
  prepare compiled depth st
  = Ret (VObj (List.length (heap st)))
        (mkState (container st)
                 (heap st ++ [freshContext (List.length (heap st));
                              mkObj "Object" labs])
                 (trace st ++ [EvExecute depth])).
Proof.
  intros Hs. unfold prepare, findLabels.
  cbv [bind alloc log]. simpl.
  rewrite length_app. simpl. rewrite Nat.add_1_r.
  set (n := List.length (heap st)).
  set (c0 := mkObj "Object" [("cursor", VNum 0)]).
  set (l0 := mkObj "Object" []).
  rewrite <- app_assoc. simpl.
  set (st1 := mkState (container st) (heap st ++ [c0; l0])%list
                      (trace st ++ [EvExecute depth])%list).
  change (with_heap (with_heap _ _) _) with st1.
  rewrite (setProp_obj st1 n c0 "labels" (VObj (S n))
             (cells_lookup_ctx (heap st) c0 l0) eq_refl).
  cbv beta iota. simpl heap. subst n. rewrite cells_insert_ctx.
  set (st2 := with_heap st1 _).
  rewrite (findLabelsFrom_scan compiled (S (List.length (heap st))) 0 st2 []
             labs (cells_lookup_lab (heap st) _ l0) Hs).
  simpl. now rewrite cells_insert_lab.
Qed.

End Stepping.

(** ** The depth of nested pipelines *)

Lemma origin_after (a b c : state) : extends a b -> origin b c -> origin a c.
Proof.
  intros [x Hx] [y [Hy Hin]]. exists (x ++ y)%list. split.
  - now rewrite Hy, Hx, app_assoc.
  - apply in_or_app. now right.
Qed.

Lemma guarded_tame {A : Type} (P : Prop) (m : M A) : tame m -> guarded P m.
Proof.
  intros Hm st. specialize (Hm st).
  destruct (m st) as [a st'|e st'| |]; try exact Hm.
  destruct Hm as [Hx He]. split; [exact Hx|]. intros ->. contradiction.
Qed.

Lemma guarded_bind {A B : Type} (P : Prop) (m : M A) (k : A -> M B) :
  guarded P m -> (forall a, guarded P (k a)) -> guarded P (bind m k).
Proof.
  intros Hm Hk st. unfold bind. specialize (Hm st).
  destruct (m st) as [a st1|e st1| |]; try exact Hm.
  specialize (Hk a st1).
  destruct (k a st1) as [b st2|e st2| |]; try exact I.
  - eapply extends_trans; eassumption.
  - destruct Hk as [Hx Ho]. split; [eapply extends_trans; eassumption|].
    intros He HP. eapply origin_after; [exact Hm|]. now apply Ho.
Qed.

Lemma guarded_weaken {A : Type} (P Q : Prop) (m : M A) :
  (Q -> P) -> guarded P m -> guarded Q m.
Proof.
  intros HQP Hm st. specialize (Hm st).
  destruct (m st) as [a st'|e st'| |]; try exact Hm.
  destruct Hm as [Hx Ho]. split; [exact Hx|]. auto.
Qed.

(** Takes a goal [guarded P m] apart along the shape of [m]. *)
Ltac guarded_step :=
  match goal with
  | |- guarded _ (bind _ _) => apply guarded_bind; [|intros ?]
  | |- guarded _ (if ?b then _ else _) => destruct b
  | |- guarded _ (match ?x with _ => _ end) => destruct x
  | |- guarded _ (let _ := _ in _) => cbv zeta
  | |- guarded _ _ => solve [eauto]
  | |- guarded _ _ => apply guarded_tame; solve [tame_auto]
  end.

Section Depth.

Context `{Host}.

Lemma prepare_marks (compiled : list (list Token)) (depth : Z) (st : state) :
  match prepare compiled depth st with
  | Ret _ st' | Throw _ st' =>
      exists evs, trace st' = (trace st ++ EvExecute depth :: evs)%list
  | OutOfFuel | Unsupported => True
  end.
Proof.
  unfold prepare, findLabels. unfold bind at 1. cbv beta iota.
  set (m := bind _ _).
  assert (Hm : tame m).
  { unfold m. pose proof tame_findLabelsFrom. tame_auto. }
  specialize (Hm (log (EvExecute depth) st)).
  destruct (m (log (EvExecute depth) st)) as [a st'|e st'| |]; try exact I.
  - destruct Hm as [evs E]. exists evs. rewrite E. simpl.
    now rewrite <- app_assoc.
  - destruct Hm as [[evs E] _]. exists evs. rewrite E. simpl.
    now rewrite <- app_assoc.
Qed.

Lemma guarded_executeWith
  (run : list (list Token) -> Value -> Value -> Value -> Z -> M Value)
  (compiled : list (list Token)) (input srcObject : Value) (depth : Z) :
  (forall context,
      guarded (depth < 10) (run compiled context input srcObject depth)) ->
  guarded (depth <= 10) (executeWith run compiled input srcObject depth).
Proof.
  intros Hrun st. unfold executeWith, bind.
  pose proof (prepare_marks compiled depth st) as Hp.
  pose proof (tame_prepare compiled depth st) as Ht.
  destruct (prepare compiled depth st) as [context st1|e st1| |];
    try exact I.
  - specialize (Hrun context st1).
    destruct (run compiled context input srcObject depth st1)
      as [v st2|e st2| |]; try exact I.
    + eapply extends_trans; eassumption.
    + destruct Hrun as [Hx Ho]. split; [eapply extends_trans; eassumption|].
      intros He Hd. destruct (Z.eq_dec depth 10) as [->|Hne].
      * destruct Hp as [evs E], Hx as [evs' E'].
        exists (EvExecute 10 :: evs ++ evs')%list. split.
        -- rewrite E', E. now rewrite <- !app_assoc.
        -- now left.
      * eapply origin_after; [exact Ht|]. apply Ho; [exact He|lia].
  - destruct Ht as [Hx He]. split; [exact Hx|]. intros ->. contradiction.
Qed.

Lemma guarded_runPipelineWith
  (execute : list (list Token) -> Value -> Value -> Z -> M Value)
  (src : PipelineSrc) (input srcObject : Value) (depth : Z) :
  (forall compiled,
      guarded (depth <= 10) (execute compiled input srcObject depth)) ->
  guarded (depth <= 10) (runPipelineWith execute src input srcObject depth).
Proof.
  intros Hexec. unfold runPipelineWith.
  destruct (depth >? 10) eqn:Hd.
  - intros st. split; [apply extends_refl|]. intros _ Hle.
    apply Z.gtb_lt in Hd. lia.
  - destruct src; repeat guarded_step.
Qed.

Section Callee.

Variable run : PipelineSrc -> Value -> Value -> Z -> M Value.
Variable depth : Z.
Hypothesis run_guarded :
  forall src input srcObject,
    guarded (depth + 1 <= 10) (run src input srcObject (depth + 1)).

Lemma guarded_executeCall (firstToken : string)
  (context input srcObject : Value) :
  guarded (depth < 10)
          (executeCall run firstToken context input srcObject depth).
Proof using run_guarded.
  unfold executeCall. repeat guarded_step.
  eapply guarded_weaken; [|apply run_guarded]. lia.
Qed.

Lemma guarded_executeAction (step : option (list Token))
  (context input srcObject : Value) :
  guarded (depth < 10) (executeAction run step context input srcObject depth).
Proof using run_guarded.
  pose proof guarded_executeCall.
  unfold executeAction, eqValue, neqValue, gtValue, geValue, ltValue, leValue.
  repeat guarded_step.
Qed.

Lemma guarded_turn (compiled : list (list Token))
  (context input srcObject : Value) :
  guarded (depth < 10) (turn run compiled context input srcObject depth).
Proof using run_guarded.
  pose proof guarded_executeAction. unfold turn. repeat guarded_step.
Qed.

End Callee.

Lemma guarded_loop (fuel : nat) :
  forall (compiled : list (list Token)) (context input srcObject : Value)
         (depth : Z),
    guarded (depth < 10) (loop fuel compiled context input srcObject depth).
Proof.
  induction fuel as [|n IH]; intros compiled context input srcObject depth.
  - intros st. exact I.
  - simpl. apply guarded_bind.
    + apply guarded_turn. intros src input' srcObject'.
      apply guarded_runPipelineWith. intros compiled'.
      apply guarded_executeWith. intros context'. apply IH.
    + intros [input'|]; [apply IH|]. apply guarded_tame, tame_ret.
Qed.

Lemma guarded_runPipeline (fuel : nat) (src : PipelineSrc)
  (input srcObject : Value) (depth : Z) :
  guarded (depth <= 10) (runPipeline fuel src input srcObject depth).
Proof.
  apply guarded_runPipelineWith. intros compiled.
  apply guarded_executeWith. intros context. apply guarded_loop.
Qed.

End Depth.

Section SelfCall.

Context `{Host}.

Variable tag : string.
Variable p : Pipeline.
Hypothesis body : compiled p = [[Call tag]].
Hypothesis no_arrow : JsString.startsWith tag "->" = false.

Lemma getPipeline_strict (st : state) :
  Dict.get tag (pipelines (container st)) = Some p ->
  getPipeline tag st = Ret (Some p) st.
Proof.
  intros E. cbv [getPipeline bind this_container]. now rewrite E.
Qed.

(** One level of the recursion: when the nested activation raises, so does
    this one, with the same state. *)
Lemma self_call_level (fuel : nat) (input srcObject : Value) (d : nat)
  (st st' : state) (e : error) :
  (d <= 10)%nat ->
  Dict.get tag (pipelines (container st)) = Some p ->
  runPipeline fuel (SrcPipeline p) input srcObject (Z.of_nat (S d))
    (mkState (container st)
             (heap st ++ [freshContext (List.length (heap st));
                          mkObj "Object" []])
             (trace st ++ [EvExecute (Z.of_nat d)]))
  = Throw e st' ->
  runPipeline (S fuel) (SrcPipeline p) input srcObject (Z.of_nat d) st
  = Throw e st'.
Proof using body no_arrow.
  intros Hd Hp Hnested.
  unfold runPipeline, runPipelineWith.
  replace (Z.of_nat d >? 10) with false
    by (symmetry; rewrite Z.gtb_ltb; apply Z.ltb_ge; lia).
  unfold execute, executeWith. rewrite body.
  rewrite (bind_Ret _ _ _ _ _ (prepare_fresh [[Call tag]] _ st [] eq_refl)).
  set (st1 := mkState _ _ _) in *.
  simpl loop. apply bind_Throw.
  unfold turn.
  rewrite (bind_Ret _ _ _ _ _
             (getProp_obj st1 _ _ "cursor" (cells_lookup_ctx _ _ _)
                          eq_refl)).
  change (member (freshContext _) "cursor") with (VNum 0).
  rewrite (bind_Ret _ _ st1 st1 true) by reflexivity.
  cbv beta iota. apply bind_Throw.
  change (stepAt [[Call tag]] (VNum 0)) with (Some [Call tag]).
  unfold executeAction.
  change ([Call tag] !! 0%nat) with (Some (Call tag)).
  cbv [has_arrow token_value]. rewrite no_arrow, andb_false_r.
  cbv beta iota. rewrite andb_false_l. unfold executeCall.
  rewrite (bind_Ret _ _ _ _ _ (getPipeline_strict st1 Hp)).
  replace (Z.of_nat d + 1) with (Z.of_nat (S d)) by lia.
  exact Hnested.
Qed.

Lemma self_call_overflows (input srcObject : Value) (k : nat) :
  forall (d : nat) (st : state),
    (d + k = 11)%nat ->
    Dict.get tag (pipelines (container st)) = Some p ->
    exists st',
      runPipeline k (SrcPipeline p) input srcObject (Z.of_nat d) st
      = Throw PipelineDepthExceeded st'
      /\ trace st' = (trace st ++ activations d k)%list
      /\ container st' = container st.
Proof using body no_arrow.
  induction k as [|k IH]; intros d st Hdk Hp.
  - exists st. unfold runPipeline, runPipelineWith.
    replace (Z.of_nat d >? 10) with true
      by (symmetry; rewrite Z.gtb_ltb; apply Z.ltb_lt; lia).
    repeat split. unfold activations. simpl. now rewrite app_nil_r.
  - set (st1 := mkState (container st)
                        (heap st ++ [freshContext (List.length (heap st));
                                     mkObj "Object" []])
                        (trace st ++ [EvExecute (Z.of_nat d)])).
    destruct (IH (S d) st1 ltac:(lia) Hp) as [st' [Hrun [Htr Hc]]].
    exists st'. split; [|split].
    + apply self_call_level; [lia|exact Hp|exact Hrun].
    + rewrite Htr. unfold activations. simpl. now rewrite <- app_assoc.
    + exact Hc.
Qed.

End SelfCall.

(** C2: [runPipeline] called with a depth above 10 raises
    [PipelineDepthExceeded] at once, the state untouched: no instruction
    runs, nothing is looked up.  A pipeline whose body is the call of
    itself therefore raises it after 11 activations, at depths 0 to 10, the
    twelfth call being refused.  An invocation at a depth of at most 10 is
    not refused: when it ends with that error, the error comes from a call
    nested in it, an activation at depth 10 having been entered since. *)
Theorem C2_depth_is_capped `{Host} :
  (forall (fuel : nat) (src : PipelineSrc) (input srcObject : Value)
          (depth : Z) (st : state),
      10 < depth ->
      runPipeline fuel src input srcObject depth st
      = Throw PipelineDepthExceeded st)
  /\ (forall (tag : string) (p : Pipeline) (input srcObject : Value)
             (st : state),
         compiled p = [[Call tag]] ->
         JsString.startsWith tag "->" = false ->
         Dict.get tag (pipelines (container st)) = Some p ->
         exists st',
           runPipeline 11 (SrcTag tag) input srcObject 0 st
           = Throw PipelineDepthExceeded st'
           /\ trace st' = (trace st ++ activations 0 11)%list
           /\ container st' = container st)
  /\ (forall (fuel : nat) (src : PipelineSrc) (input srcObject : Value)
             (depth : Z) (st st' : state),
         depth <= 10 ->
         runPipeline fuel src input srcObject depth st
         = Throw PipelineDepthExceeded st' ->
         origin st st').
Proof.
  split; [|split].
  - intros fuel src input srcObject depth st Hd.
    unfold runPipeline, runPipelineWith.
    replace (depth >? 10) with true
      by (symmetry; rewrite Z.gtb_ltb; apply Z.ltb_lt; lia).
    reflexivity.
  - intros tag p input srcObject st Hbody Harrow Hp.
    destruct (self_call_overflows tag p Hbody Harrow input srcObject 11 0 st
                eq_refl Hp) as [st' [Hrun Hrest]].
    exists st'. split; [|exact Hrest].
    rewrite <- Hrun. unfold runPipeline, runPipelineWith. simpl.
    now rewrite (bind_Ret _ _ _ _ _ (getPipeline_strict tag p st Hp)).
  - intros fuel src input srcObject depth st st' Hd Hrun.
    pose proof (guarded_runPipeline fuel src input srcObject depth st) as G.
    rewrite Hrun in G. now apply G.
Qed.

Lemma C2_depth_is_capped_witness :
  exists st',
    runPipeline (H := quietHost) 11 (SrcTag "loop") VUndef VUndef 0 selfCalling
    = Throw PipelineDepthExceeded st'
    /\ trace st' = (trace selfCalling ++ activations 0 11)%list
    /\ container st' = container selfCalling.
Proof.
  apply (proj1 (proj2 (C2_depth_is_capped (H := quietHost)))
               "loop" (built ["$loop"] []));
    reflexivity.
Defined.

(** ** Singletons *)

Lemma with_container_same (st : state) : with_container st (container st) = st.
Proof. now destruct st. Qed.

Section Singletons.

Context `{Host}.

Lemma get_strict (st : state) (name : string) (item : FactoryItem)
  (settings : Value) :
  Dict.get name (factory (container st)) = Some item ->
  get name settings st = instantiate item settings st.
Proof.
  intros E. unfold get. destruct st as [c h t]. simpl in *.
  destruct c as [cl fa pi co ca pa]. simpl in *. now rewrite E.
Qed.

(** One [get] of a singleton that lives at [l] and exposes
    [applySettings]. *)
Lemma get_singleton_applies (st : state) (name : string) (item : FactoryItem)
  (settings : Value) (l : nat) (o : obj) (f : string) (bound : option nat)
  (v : Value) (h' : list obj) :
  Dict.get name (factory (container st)) = Some item ->
  isSingleton item = true ->
  instance item = VObj l ->
  heap st !! l = Some o ->
  member o "applySettings" = VFun f bound ->
  host_call f (receiverOf bound l) [member o "settings"; settings] (heap st)
  = HostReturn v h' ->
  get name settings st
  = Ret (VObj l)
        (mkState (container st) h'
           (trace st ++ [EvCall f (receiverOf bound l)
                                [member o "settings"; settings]])).
Proof.
  intros Hitem Hsingle Hinst Hl Hm Hcall.
  rewrite (get_strict st name item settings Hitem).
  unfold instantiate. rewrite Hsingle, Hinst. simpl Js.truthy. cbv iota.
  rewrite (bind_Ret _ _ _ _ _
             (getProp_obj st l o "applySettings" Hl eq_refl)).
  rewrite Hm. simpl Js.truthy. cbv iota.
  unfold bind at 1. unfold bind at 1.
  rewrite (getProp_obj st l o "settings" Hl eq_refl).
  unfold bind at 1. unfold callMethod, callFunction.
  fold (receiverOf bound l). simpl. rewrite Hcall. reflexivity.
Qed.

(** C4: a name registered as a singleton keeps its instance: [register]
    stores the value given, and every [get] of the name returns that very
    instance and leaves the container as it is.  When the instance exposes
    no [applySettings], [get] changes nothing at all; when it exposes one
    and the method returns, each [get] calls it once, on the instance, with
    the instance's settings and the settings given: two calls in a row
    return the same object twice and call [applySettings] twice. *)
Theorem C4_singleton_is_stable (st : state) (name : string)
  (item : FactoryItem) (cfg1 cfg2 : Value) :
  Dict.get name (factory (container st)) = Some item ->
  isSingleton item = true ->
  (forall x, Js.is_function x = false ->
             exists st1,
               register name x true st = Ret tt st1
               /\ Dict.get name (factory (container st1))
                  = Some (mkFactoryItem name true x)
               /\ heap st1 = heap st /\ trace st1 = trace st)
  /\ (forall m,
         (if Js.truthy (instance item)
          then peek st (instance item) "applySettings"
          else Some VUndef) = Some m ->
         Js.truthy m = false ->
         get name cfg1 st = Ret (instance item) st)
  /\ (forall (l : nat) (o o' : obj) (f f' : string)
             (bound bound' : option nat) (v v' : Value)
             (h' h'' : list obj),
         instance item = VObj l ->
         heap st !! l = Some o ->
         member o "applySettings" = VFun f bound ->
         host_call f (receiverOf bound l) [member o "settings"; cfg1]
                   (heap st)
         = HostReturn v h' ->
         h' !! l = Some o' ->
         member o' "applySettings" = VFun f' bound' ->
         host_call f' (receiverOf bound' l) [member o' "settings"; cfg2] h'
         = HostReturn v' h'' ->
         (let* a := get name cfg1 in
          let* b := get name cfg2 in
          ret (a, b)) st
         = Ret (instance item, instance item)
               (mkState (container st) h''
                  (trace st
                   ++ [EvCall f (receiverOf bound l)
                              [member o "settings"; cfg1];
                       EvCall f' (receiverOf bound' l)
                              [member o' "settings"; cfg2]]))).
Proof.
  intros Hitem Hsingle. split; [|split].
  - intros x Hx. unfold register. rewrite Hx.
    cbv [bind update_container ret this_container]. simpl.
    rewrite setsPrototype_own by (unfold Dict.has; now rewrite Hitem).
    eexists. split; [reflexivity|]. simpl.
    split; [apply Dict_get_put_eq|]. split; reflexivity.
  - intros m Hm Hfalsy.
    rewrite (get_strict st name item cfg1 Hitem).
    unfold instantiate. rewrite Hsingle.
    destruct (Js.truthy (instance item)).
    + apply peek_Some in Hm.
      rewrite (bind_Ret _ _ _ _ _ Hm). now rewrite Hfalsy.
    + injection Hm as <-. reflexivity.
  - intros l o o' f f' bound bound' v v' h' h'' Hinst Hl Hm Hcall Hl' Hm'
           Hcall'.
    rewrite Hinst.
    rewrite (bind_Ret _ _ _ _ _
               (get_singleton_applies st name item cfg1 l o f bound v h'
                  Hitem Hsingle Hinst Hl Hm Hcall)).
    set (st1 := mkState _ _ _).
    rewrite (bind_Ret _ _ _ _ _
               (get_singleton_applies st1 name item cfg2 l o' f' bound' v' h''
                  Hitem Hsingle Hinst Hl' Hm' Hcall')).
    unfold ret, st1. simpl. now rewrite <- app_assoc.
Qed.

End Singletons.

Lemma C4_singleton_is_stable_witness :
  (let* a := get (H := componentHost) "c" (VNum 2) in
   let* b := get (H := componentHost) "c" (VNum 3) in
   ret (a, b)) oneComponent
  = Ret (VObj 0%nat, VObj 0%nat)
        (mkState (container oneComponent) (heap oneComponent)
           [EvCall "Component.applySettings" (Some 0%nat) [VNum 1; VNum 2];
            EvCall "Component.applySettings" (Some 0%nat) [VNum 1; VNum 3]]).
Proof.
  apply (proj2 (proj2 (C4_singleton_is_stable (H := componentHost)
                         oneComponent "c"
                         (mkFactoryItem "c" true (VObj 0%nat))
                         (VNum 2) (VNum 3) eq_refl eq_refl))
               0%nat (mkObj "Component" [("settings", VNum 1)])
               (mkObj "Component" [("settings", VNum 1)])
               "Component.applySettings" "Component.applySettings"
               None None VUndef VUndef
               (heap oneComponent) (heap oneComponent));
    reflexivity.
Defined.

(** ** Looking a name up *)

Lemma carries_ret {A : Type} (a : A) : carries (ret a).
Proof. intros st c. reflexivity. Qed.

Lemma carries_throw {A : Type} (e : error) : carries (throw (A := A) e).
Proof. intros st c. reflexivity. Qed.

Lemma carries_bind {A B : Type} (m : M A) (k : A -> M B) :
  carries m -> (forall a, carries (k a)) -> carries (bind m k).
Proof.
  intros Hm Hk st c. unfold bind. rewrite Hm.
  destruct (m st) as [a s|e s| |]; try reflexivity. apply Hk.
Qed.

Section Lookup.

Context `{Host}.

Lemma carries_getProp (v : Value) (k : string) : carries (getProp v k).
Proof.
  intros st c.
  destruct v; cbv [getProp bind read ret throw unsupported lift];
    try reflexivity;
    try (match goal with
         | |- context [if ?b then _ else _] => now destruct b
         end).
  - now destruct (stringMember s k).
  - simpl. destruct (heap st !! l) as [o|]; [|reflexivity].
    now destruct (lookup o k).
Qed.

Lemma carries_callFunction (f : Value) (this : option nat)
  (args : list Value) : carries (callFunction f this args).
Proof.
  intros st c. destruct f; try reflexivity.
  unfold callFunction. simpl. destruct (host_call _ _ _ _); reflexivity.
Qed.

Lemma carries_construct (Clazz : Value) (args : list Value) :
  carries (construct Clazz args).
Proof.
  intros st c. destruct Clazz; try reflexivity.
  cbv [construct bind alloc]. simpl.
  destruct (host_call _ _ _ _); reflexivity.
Qed.

Lemma carries_instantiate (item : FactoryItem) (settings : Value) :
  carries (instantiate item settings).
Proof.
  unfold instantiate, callMethod.
  repeat match goal with
         | |- carries (bind _ _) => apply carries_bind; [|intros ?]
         | |- carries (if ?b then _ else _) => destruct b
         | |- carries _ =>
             first [ apply carries_getProp | apply carries_ret
                   | apply carries_callFunction | apply carries_construct ]
         end.
Qed.

Lemma with_container_twice (st : state) (a b : Container) :
  with_container (with_container st a) b = with_container st b.
Proof. reflexivity. Qed.

(** What [get] does with [c] as [this], in one equation. *)
Lemma firstMatch_first (name : string) (keys : list string) :
  match firstMatch name keys with
  | Some k => firstAccepted name keys k
  | None => forall k, In k keys -> compareWildcards name k = false
  end.
Proof.
  induction keys as [|k0 keys IH]; simpl; [intros k []|].
  destruct (compareWildcards name k0) eqn:E.
  - exists [], keys. split; [reflexivity|]. split; [exact E|]. intros k' [].
  - destruct (firstMatch name keys) as [k|].
    + destruct IH as [before [after [-> [Hk Hb]]]].
      exists (k0 :: before), after. split; [reflexivity|].
      split; [exact Hk|]. intros k' [<-|Hin]; [exact E|now apply Hb].
    + intros k [<-|Hin]; [exact E|now apply IH].
Qed.

Lemma firstMatch_held {V : Type} (name k : string) (d : list (string * V)) :
  firstMatch name (Dict.keys d) = Some k -> exists v, Dict.get k d = Some v.
Proof.
  unfold Dict.keys.
  induction d as [|[k0 v0] d IH]; simpl; [discriminate|].
  destruct (compareWildcards name k0).
  - intros [= <-]. exists v0. now rewrite String.eqb_refl.
  - intros Hf. destruct (String.eqb k k0); [now exists v0|]. now apply IH.
Qed.

Lemma findsInherited_absent (c : Container) (name : string) :
  findsInherited c name = false ->
  Dict.get name (factory c) = None ->
  Js.inherited name = false.
Proof.
  unfold findsInherited, Dict.has. intros Hf E. rewrite E in Hf.
  now rewrite andb_true_r in Hf.
Qed.

Lemma get_in_resolves (c : Container) :
  forall (name : string) (settings : Value) (st : state),
    bestKeysAgree (rootOf c) ->
    findsInherited c name = false ->
    get_in c name settings st
    = match resolvedItem c name with
      | Some item =>
          instantiate item settings (with_container st (memoised c name))
      | None => Ret VUndef (with_container st (memoised c name))
      end.
Proof.
  induction c as [c Hp|c p Hp IH] using Container_chain_ind;
    intros name settings st Hagree Hni;
    pose proof (findsInherited_absent _ _ Hni) as Hn;
    destruct c as [cl fa pi co ca pa];
    simpl in Hp; subst pa; simpl in *.
  - unfold bestKeysAgree in Hagree. simpl in Hagree.
    destruct (Dict.get name fa) as [item|]; [reflexivity|].
    rewrite (Hn eq_refl).
    cbv [bind getBestKey this_container]. simpl.
    destruct (Dict.get name (Cache.bestKeys ca)) as [[k|]|] eqn:Hc.
    + rewrite (Hagree name (Some k) Hc). simpl.
      destruct (firstMatch_held _ _ _ (Hagree name (Some k) Hc)) as [v Hv].
      destruct (String.eqb k EmptyString); simpl; [reflexivity|].
      unfold itemAt. simpl. now rewrite Hv.
    + rewrite (Hagree name None Hc). reflexivity.
    + rewrite (Hn eq_refl).
      destruct (firstMatch name (Dict.keys fa)) as [k|] eqn:Hf; simpl;
        [|reflexivity].
      destruct (firstMatch_held _ _ _ Hf) as [v Hv].
      destruct (String.eqb k EmptyString); simpl; [reflexivity|].
      unfold itemAt. simpl. now rewrite Hv.
  - destruct (Dict.get name fa) as [item|]; [reflexivity|].
    rewrite (Hn eq_refl).
    assert (Hp : findsInherited p name = false)
      by (unfold findsInherited; now rewrite (Hn eq_refl)).
    rewrite (IH name settings st Hagree Hp).
    destruct (resolvedItem p name) as [item|]; [|reflexivity].
    rewrite (carries_instantiate item settings st (memoised p name)).
    rewrite (carries_instantiate item settings st).
    destruct (instantiate item settings st); reflexivity.
Qed.

Lemma get_in_inherited (c : Container) (name : string) (settings : Value)
  (st : state) :
  findsInherited c name = true ->
  get_in c name settings st = Throw TypeError (with_container st c).
Proof.
  unfold findsInherited, Dict.has. intros Hf.
  apply andb_true_iff in Hf as [Hi Hf].
  destruct c as [cl fa pi co ca pa]. simpl in *.
  destruct (Dict.get name fa); [discriminate|]. now rewrite Hi.
Qed.

Lemma memoised_agrees (c : Container) (name : string) :
  bestKeysAgree (rootOf c) -> bestKeysAgree (rootOf (memoised c name)).
Proof.
  induction c as [c Hp|c p Hp IH] using Container_chain_ind;
    intros Hagree; destruct c as [cl fa pi co ca pa];
    simpl in Hp; subst pa; simpl in *.
  - destruct (Dict.get name fa); [exact Hagree|].
    destruct (Dict.get name (Cache.bestKeys ca)) eqn:Hc; [exact Hagree|].
    unfold bestKeysAgree in *. simpl in *. intros n k.
    destruct (String.eqb name n) eqn:En.
    + apply String.eqb_eq in En. subst n.
      rewrite Dict_get_put_eq. now intros [= <-].
    + apply String.eqb_neq in En. rewrite Dict_get_put_ne by exact En.
      apply Hagree.
  - destruct (Dict.get name fa); [exact Hagree|]. simpl. now apply IH.
Qed.

Lemma memoised_remembers (c : Container) (name : string) :
  parent c = None ->
  Dict.get name (factory c) = None ->
  bestKeysAgree c ->
  Dict.get name (Cache.bestKeys (cache (memoised c name)))
  = Some (firstMatch name (Dict.keys (factory c))).
Proof.
  intros Hp Hf Hagree. destruct c as [cl fa pi co ca pa].
  unfold bestKeysAgree in Hagree. simpl in *.
  subst pa. rewrite Hf.
  destruct (Dict.get name (Cache.bestKeys ca)) as [k|] eqn:Hc; simpl.
  - rewrite Hc. f_equal. symmetry. now apply Hagree.
  - apply Dict_get_put_eq.
Qed.

(** C3, as the code has it: [get] looks the name up in the container's own
    factory; when it is absent and the container has a parent, [get]
    returns what the parent's [get] returns and tries nothing else; in a
    container without parent it goes on to the wildcard search, where
    [getBestKey] gives the first key of the factory, oldest first, that
    matches the name, and remembers hits and misses in [cache.bestKeys];
    no match, or a match that is the empty string, gives [undefined].  The
    cache is taken to agree with the factory, as it does after [register],
    which empties it, and after [get], which keeps the agreement.  One
    case stands apart: under a key of [Object.prototype] that the own
    factory does not hold, the first lookup finds the member of the
    prototype, which is neither a singleton nor a class, and [get] raises
    a [TypeError]. *)
Theorem C3_get_resolves (st : state) (name : string) (settings : Value) :
  bestKeysAgree (rootOf (container st)) ->
  (findsInherited (container st) name = false ->
   get name settings st
   = match resolvedItem (container st) name with
     | Some item =>
         instantiate item settings
           (with_container st (memoised (container st) name))
     | None => Ret VUndef (with_container st (memoised (container st) name))
     end)
  /\ (findsInherited (container st) name = true ->
      get name settings st = Throw TypeError st)
  /\ match firstMatch name (Dict.keys (factory (container st))) with
     | Some k => firstAccepted name (Dict.keys (factory (container st))) k
     | None =>
         forall k, In k (Dict.keys (factory (container st))) ->
                   compareWildcards name k = false
     end
  /\ bestKeysAgree (rootOf (memoised (container st) name))
  /\ (parent (container st) = None ->
      Dict.get name (factory (container st)) = None ->
      Dict.get name
        (Cache.bestKeys (cache (memoised (container st) name)))
      = Some (firstMatch name (Dict.keys (factory (container st)))))
  /\ (forall x isSingleton st1,
         parent (container st) = None ->
         register name x isSingleton st = Ret tt st1 ->
         bestKeysAgree (rootOf (container st1))).
Proof.
  intros Hagree. split; [|split; [|split; [|split; [|split]]]].
  - intros Hni. unfold get. now apply get_in_resolves.
  - intros Hi. unfold get. rewrite (get_in_inherited _ _ _ _ Hi).
    now rewrite with_container_same.
  - apply firstMatch_first.
  - now apply memoised_agrees.
  - intros Hp Hf. apply memoised_remembers; try assumption.
    destruct (container st) as [cl fa pi co ca pa]. simpl in *. now subst pa.
  - intros x single st1 Hp Hreg. unfold register in Hreg.
    unfold bind at 1 in Hreg. simpl in Hreg.
    unfold bind at 1 in Hreg.
    set (st0 := with_container st _) in Hreg.
    set (m := if single then _ else _) in Hreg.
    assert (Hm : forall s a s', m s = Ret a s' -> container s' = container s).
    { intros s a s' Hrun. unfold m in Hrun.
      destruct single, (Js.is_function x).
      + pose proof (carries_construct x [] s (container s)) as Hc.
        rewrite with_container_same in Hc. rewrite Hrun in Hc.
        injection Hc as Hc. rewrite Hc at 1. reflexivity.
      + now injection Hrun as _ <-.
      + now injection Hrun as _ <-.
      + destruct x; simpl in Hrun; try discriminate;
          try (now injection Hrun as _ <-).
        pose proof (getProp_pure (VObj l) "constructor" s) as Hg.
        rewrite Hrun in Hg. now subst. }
    destruct (m st0) as [a s'|e s'| |] eqn:E; try discriminate.
    apply Hm in E. cbv [bind this_container] in Hreg.
    destruct (Dict.setsPrototype name (factory (container s')));
      [discriminate|].
    injection Hreg as <-. simpl. rewrite E. unfold st0. simpl.
    rewrite Hp. simpl. intros n k. simpl. discriminate.
Qed.

End Lookup.

Lemma C3_get_resolves_witness :
  get (H := globHost) "token-xx" VUndef
      (mkState (with_parent childWithWildcard None) [] [])
  = Ret (VNum 7)
        (mkState
           (memoised (H := globHost) (with_parent childWithWildcard None)
                     "token-xx")
           [] []).
Proof.
  apply (proj1 (C3_get_resolves (H := globHost)
                  (mkState (with_parent childWithWildcard None) [] [])
                  "token-xx" VUndef
                  ltac:(intros n k; discriminate))).
  reflexivity.
Defined.

(** C3, as stated, fails in two ways.  In a child whose parent resolves
    nothing, a key of the child's own factory that matches the name is
    never tried.  And for the name [constructor], which nothing was
    registered under and no key matches, [get] on an empty container does
    not return [undefined]: it raises. *)
Lemma C3_get_is_not_as_claimed :
  (claimedItem (H := globHost) childWithWildcard "token-xx" = Some tokenItem
   /\ exists st',
        get (H := globHost) "token-xx" VUndef
            (mkState childWithWildcard [] [])
        = Ret VUndef st')
  /\ (claimedItem (H := globHost) emptyContainer "constructor" = None
      /\ get (H := globHost) "constructor" VUndef
             (mkState emptyContainer [] [])
         = Throw TypeError (mkState emptyContainer [] [])).
Proof.
  split; split; try reflexivity. eexists. vm_compute. reflexivity.
Qed.

(** ** JSON and back *)

Lemma Dict_remove_put {V : Type} (k : string) (v : V) (d : list (string * V)) :
  Dict.remove k (Dict.put k v d) = Dict.remove k d.
Proof.
  induction d as [|[k' v'] d IH]; simpl.
  - now rewrite String.eqb_refl.
  - destruct (String.eqb k k') eqn:E; simpl.
    + now rewrite String.eqb_refl.
    + now rewrite E, IH.
Qed.

Lemma Dict_get_remove_eq {V : Type} (k : string) (d : list (string * V)) :
  Dict.get k (Dict.remove k d) = None.
Proof.
  induction d as [|[k' v'] d IH]; simpl; [reflexivity|].
  destruct (String.eqb k k') eqn:E; simpl; [exact IH|]. now rewrite E.
Qed.

Lemma Dict_get_remove_ne {V : Type} (k k' : string) (d : list (string * V)) :
  k <> k' -> Dict.get k' (Dict.remove k d) = Dict.get k' d.
Proof.
  intros Hne. induction d as [|[k0 v0] d IH]; simpl; [reflexivity|].
  destruct (String.eqb k k0) eqn:E; simpl.
  - apply String.eqb_eq in E. subst k0.
    destruct (String.eqb k' k) eqn:E'; [|exact IH].
    apply String.eqb_eq in E'. congruence.
  - now rewrite IH.
Qed.

Lemma Dict_get_In {V : Type} (k : string) (v : V) (d : list (string * V)) :
  List.NoDup (Dict.keys d) -> In (k, v) d -> Dict.get k d = Some v.
Proof.
  induction d as [|[k' v'] d IH]; simpl; intros Hnd Hin; [contradiction|].
  apply NoDup_cons_iff in Hnd as [Hnotin Hnd].
  destruct Hin as [[= -> ->]|Hin].
  - now rewrite String.eqb_refl.
  - destruct (String.eqb k k') eqn:E; [|now apply IH].
    apply String.eqb_eq in E. subst k'. exfalso. apply Hnotin.
    change k with (fst (k, v)). now apply in_map.
Qed.

Lemma Dict_get_Some_In {V : Type} (k : string) (v : V) (d : list (string * V)) :
  Dict.get k d = Some v -> In (k, v) d.
Proof.
  induction d as [|[k' v'] d IH]; simpl; [discriminate|].
  destruct (String.eqb k k') eqn:E.
  - apply String.eqb_eq in E. subst k'. intros [= ->]. now left.
  - intros Hg. right. now apply IH.
Qed.

(** [Object.assign] ends with every property of the source. *)
Lemma Dict_get_assign {V : Type} (src : list (string * V)) :
  List.NoDup (Dict.keys src) ->
  forall (d : list (string * V)) (k : string) (v : V),
    Dict.get k src = Some v -> Dict.get k (Dict.assign d src) = Some v.
Proof.
  unfold Dict.assign.
  induction src as [|[k0 v0] src IH]; simpl; intros Hnd d k v Hg;
    [discriminate|].
  apply NoDup_cons_iff in Hnd as [Hnotin Hnd].
  destruct (String.eqb k k0) eqn:E.
  - apply String.eqb_eq in E. subst k0. injection Hg as ->.
    clear IH. revert d.
    assert (G : forall d, Dict.get k d = Some v ->
                          Dict.get k
                            (fold_left
                               (fun acc kv => Dict.put (fst kv) (snd kv) acc)
                               src d) = Some v).
    { induction src as [|[k1 v1] src IH]; simpl; intros d Hd; [exact Hd|].
      simpl in Hnotin. apply IH.
      - intros Hin. apply Hnotin. now right.
      - now apply NoDup_cons_iff in Hnd.
      - rewrite Dict_get_put_ne; [exact Hd|].
        intros ->. apply Hnotin. now left. }
    intros d. apply G. apply Dict_get_put_eq.
  - now apply IH.
Qed.

Lemma Dict_keys_put_NoDup {V : Type} (k : string) (v : V)
  (d : list (string * V)) :
  List.NoDup (Dict.keys d) -> List.NoDup (Dict.keys (Dict.put k v d)).
Proof.
  unfold Dict.keys.
  induction d as [|[k' v'] d IH]; simpl; intros Hnd.
  - constructor; [intros []|constructor].
  - apply NoDup_cons_iff in Hnd as [Hnotin Hnd].
    destruct (String.eqb k k') eqn:E; simpl.
    + apply String.eqb_eq in E. subst k'. now constructor.
    + constructor; [|now apply IH].
      intros Hin. apply Hnotin.
      apply in_map_iff in Hin as [[k1 v1] [Hk Hin]]. simpl in Hk. subst k1.
      clear IH Hnd Hnotin. induction d as [|[k2 v2] d IH]; simpl in *.
      * destruct Hin as [[= -> ->]|[]]. now rewrite String.eqb_refl in E.
      * destruct (String.eqb k k2) eqn:E2; simpl in *.
        -- destruct Hin as [[= -> ->]|Hin];
             [now rewrite String.eqb_refl in E|].
           right. change k' with (fst (k', v1)). now apply in_map.
        -- destruct Hin as [[= -> ->]|Hin]; [now left|]. right. now apply IH.
Qed.

Lemma snoc_lookup (h : list obj) (o : obj) :
  (h ++ [o])%list !! List.length h = Some o.
Proof. now apply list_lookup_middle. Qed.

Lemma snoc_insert (h : list obj) (o o' : obj) :
  <[List.length h := o']> (h ++ [o])%list = (h ++ [o'])%list.
Proof. rewrite insert_app_r_alt by lia. now rewrite Nat.sub_diag. Qed.

Section JsonFacts.

Context `{Host}.

Lemma deleteProp_obj (st : state) (l : nat) (o : obj) (k : string) :
  heap st !! l = Some o ->
  deleteProp (VObj l) k st
  = Ret tt (with_heap st
              (<[l := mkObj (cls o) (Dict.remove k (props o))]> (heap st))).
Proof. intros E. cbv [deleteProp bind read write ret]. now rewrite E. Qed.

Lemma read_obj (st : state) (l : nat) (o : obj) :
  heap st !! l = Some o -> read l st = Ret o st.
Proof. intros E. unfold read. now rewrite E. Qed.

Lemma constructorName_class (st : state) (l : nat) (o : obj) :
  heap st !! l = Some o ->
  ownClass o = true ->
  constructorName (VObj l) st = Ret (VStr (cls o)) st.
Proof.
  intros Hl Hc. unfold constructorName, ownClass in *.
  rewrite (bind_Ret _ _ _ _ _ (read_obj st l o Hl)).
  destruct (Dict.get "constructor" (props o)); [discriminate|].
  now destruct (class_method (cls o) "constructor").
Qed.

Lemma assign_puts (src : list (string * Value)) :
  Dict.has "__proto__" src = false ->
  forall d, Js.assign d src = Some (Dict.assign d src).
Proof.
  unfold Js.assign, Dict.assign, Dict.has.
  induction src as [|[k v] src IH]; intros Hs d; [reflexivity|].
  cbn [Dict.get] in Hs. cbn [fold_left fst snd].
  destruct (String.eqb "__proto__" k) eqn:E; [discriminate|].
  unfold Js.stored at 2. unfold Dict.setsPrototype.
  rewrite String.eqb_sym, E. cbn [andb]. now apply IH.
Qed.

(** [toJSON] of an object without a [toJSON] of its own. *)
Lemma toJSON_plain (st : state) (l : nat) (o : obj) :
  heap st !! l = Some o ->
  Js.truthy (member o "toJSON") = false ->
  ownClass o = true ->
  toJSON (VObj l) st
  = Ret (VObj (List.length (heap st)))
        (with_heap st (heap st ++ [jsonOf o])).
Proof.
  intros Hl Hm Hc. unfold toJSON.
  rewrite (bind_Ret _ _ _ _ _ (getProp_obj st l o "toJSON" Hl eq_refl)).
  rewrite Hm.
  unfold bind at 1. unfold bind at 1. rewrite (read_obj st l o Hl).
  unfold alloc. cbv beta iota.
  set (st1 := with_heap st _).
  assert (Hl1 : heap st1 !! l = Some o).
  { unfold st1. simpl. apply lookup_app_l_Some, Hl. }
  rewrite (bind_Ret _ _ _ _ _ (constructorName_class st1 l o Hl1 Hc)).
  assert (Hj : heap st1 !! List.length (heap st)
               = Some (mkObj "Object" (props o))).
  { unfold st1. simpl. apply snoc_lookup. }
  rewrite (bind_Ret _ _ _ _ _
             (setProp_obj st1 _ _ "className" _ Hj eq_refl)).
  unfold ret, st1. simpl. now rewrite snoc_insert.
Qed.

Lemma fromJSON_unregistered (st : state) (lj : nat) (j : obj) (n0 : string)
  (settings : Value) :
  heap st !! lj = Some j ->
  Dict.get "className" (props j) = Some (VStr n0) ->
  Dict.get n0 (classes (container st)) = None ->
  Js.inherited n0 = false ->
  fromJSON (VObj lj) settings st
  = Ret (VObj (List.length (heap st)))
        (with_heap st
           (heap st ++ [mkObj "Object" (Dict.remove "className" (props j))])).
Proof.
  intros Hj Hname Hclass Hn0. unfold fromJSON.
  rewrite (bind_Ret _ _ _ _ _ (getProp_own st lj j _ _ Hj Hname)).
  simpl Js.toString. simpl lift.
  rewrite (bind_Ret _ _ st st n0) by reflexivity.
  rewrite (bind_Ret _ _ st st (container st)) by reflexivity.
  rewrite Hclass, Hn0.
  replace (String.eqb n0 "constructor") with false
    by (destruct (String.eqb n0 "constructor") eqn:E; [|reflexivity];
        apply String.eqb_eq in E; now subst n0).
  rewrite (bind_Ret _ _ st st VUndef) by reflexivity.
  simpl Js.truthy. cbv iota.
  unfold bind at 1. unfold bind at 1. rewrite (read_obj st lj j Hj).
  unfold alloc. cbv beta iota.
  set (st1 := with_heap st _).
  assert (Hi : heap st1 !! List.length (heap st)
               = Some (mkObj "Object" (props j))).
  { unfold st1. simpl. apply snoc_lookup. }
  rewrite (bind_Ret _ _ _ _ _ (deleteProp_obj st1 _ _ _ Hi)).
  unfold ret, st1. simpl. now rewrite snoc_insert.
Qed.

Lemma fromJSON_registered (st : state) (lj : nat) (j : obj) (n0 n : string)
  (b : option nat) (settings v : Value) (h2 : list obj) (dst : obj) :
  heap st !! lj = Some j ->
  Dict.get "className" (props j) = Some (VStr n0) ->
  Dict.has "__proto__" (props j) = false ->
  Dict.get n0 (classes (container st)) = Some (VFun n b) ->
  host_call n (Some (List.length (heap st))) [settings]
            (heap st ++ [mkObj n []])
  = HostReturn v h2 ->
  Js.is_object v = false ->
  h2 !! lj = Some j ->
  h2 !! List.length (heap st) = Some dst ->
  Js.truthy (member dst "fromJSON") = false ->
  fromJSON (VObj lj) settings st
  = Ret (VObj (List.length (heap st)))
        (mkState (container st)
           (<[List.length (heap st)
              := mkObj (cls dst)
                       (Dict.remove "className"
                          (Dict.assign (props dst) (props j)))]> h2)
           (trace st ++ [EvNew n (List.length (heap st)) [settings]])).
Proof.
  intros Hj Hname Hproto Hclass Hcall Hv Hj2 Hi Hm. unfold fromJSON.
  rewrite (bind_Ret _ _ _ _ _ (getProp_own st lj j _ _ Hj Hname)).
  simpl Js.toString. simpl lift.
  rewrite (bind_Ret _ _ st st n0) by reflexivity.
  rewrite (bind_Ret _ _ st st (container st)) by reflexivity.
  rewrite Hclass.
  rewrite (bind_Ret _ _ st st (VFun n b)) by reflexivity.
  simpl Js.truthy. cbv iota.
  set (st2 := mkState (container st) h2
                (trace st ++ [EvNew n (List.length (heap st)) [settings]])).
  assert (Hnew : construct (VFun n b) [settings] st
                 = Ret (VObj (List.length (heap st))) st2).
  { cbv [construct bind alloc]. simpl. now rewrite Hcall, Hv. }
  unfold bind at 1. unfold bind at 1. rewrite Hnew.
  rewrite (bind_Ret _ _ _ _ _ (getProp_obj st2 _ dst "fromJSON" Hi eq_refl)).
  rewrite Hm.
  rewrite (bind_Ret _ _ _ _ _ (read_obj st2 lj j Hj2)).
  rewrite (bind_Ret _ _ _ _ _ (read_obj st2 _ dst Hi)).
  rewrite (assign_puts _ Hproto).
  rewrite (bind_Ret _ _ st2 st2 (Dict.assign (props dst) (props j)))
    by reflexivity.
  unfold bind at 1. unfold write at 1. cbv beta iota.
  unfold bind at 1. unfold ret at 1. cbv beta iota.
  pose proof (lookup_lt_Some _ _ _ Hi) as Hlt.
  set (st3 := with_heap st2 _).
  assert (Hi3 : heap st3 !! List.length (heap st)
                = Some (mkObj (cls dst) (Dict.assign (props dst) (props j)))).
  { unfold st3. simpl. now apply list_lookup_insert_eq. }
  rewrite (deleteProp_obj st3 _ _ _ Hi3).
  unfold ret, st3, st2. simpl. now rewrite list_insert_insert_eq.
Qed.

(** C7, as the code has it: for an object that has no [toJSON], that has
    its class under [constructor], and whose properties are distinct,
    [fromJSON (toJSON x)] gives a new object that has no [className] and
    keeps every other property of [x] with its value.
    When the class of [x] is not registered (and its name is no key of
    [Object.prototype]) the new object is a plain one holding exactly those
    properties; when it is registered, [x] has no property [__proto__],
    and the constructor returns no object, leaves the JSON copy alone and
    builds an instance of the class without [fromJSON], the new object is
    that instance, with the properties of [x] assigned over its own.  [x]
    itself is not changed by the first case. *)
Theorem C7_round_trip_keeps_other_fields (st : state) (l : nat) (o : obj)
  (settings : Value) :
  heap st !! l = Some o ->
  Js.truthy (member o "toJSON") = false ->
  ownClass o = true ->
  List.NoDup (Dict.keys (props o)) ->
  let lj := List.length (heap st) in
  let li := S (List.length (heap st)) in
  (Dict.get (cls o) (classes (container st)) = None ->
   Js.inherited (cls o) = false ->
   exists st',
     roundTrip (VObj l) settings st = Ret (VObj li) st'
     /\ heap st' !! li
        = Some (mkObj "Object" (Dict.remove "className" (props o)))
     /\ heap st' !! l = Some o)
  /\ (forall (n : string) (b : option nat) (v : Value) (h2 : list obj)
             (dst : obj),
         Dict.get (cls o) (classes (container st)) = Some (VFun n b) ->
         Dict.has "__proto__" (props o) = false ->
         host_call n (Some li) [settings]
                   ((heap st ++ [jsonOf o]) ++ [mkObj n []])
         = HostReturn v h2 ->
         Js.is_object v = false ->
         h2 !! lj = Some (jsonOf o) ->
         h2 !! li = Some dst ->
         cls dst = n ->
         Js.truthy (member dst "fromJSON") = false ->
         exists st' r,
           roundTrip (VObj l) settings st = Ret (VObj li) st'
           /\ heap st' !! li = Some r
           /\ cls r = n
           /\ Dict.get "className" (props r) = None
           /\ (forall k x, k <> "className" ->
                           Dict.get k (props o) = Some x ->
                           Dict.get k (props r) = Some x))
  /\ Dict.get "className" (Dict.remove "className" (props o)) = None
  /\ (forall k, k <> "className" ->
                Dict.get k (Dict.remove "className" (props o))
                = Dict.get k (props o)).
Proof.
  intros Hl Hm Hown Hnd lj li. subst lj li.
  assert (Hlt : (l < List.length (heap st))%nat)
    by (eapply lookup_lt_Some; exact Hl).
  assert (Hname : Dict.get "className" (props (jsonOf o))
                  = Some (VStr (cls o))) by apply Dict_get_put_eq.
  set (st1 := with_heap st (heap st ++ [jsonOf o])).
  assert (Hj : heap st1 !! List.length (heap st) = Some (jsonOf o))
    by apply snoc_lookup.
  assert (Hlen : List.length (heap st1) = S (List.length (heap st))).
  { unfold st1. simpl. rewrite length_app. simpl. lia. }
  split; [|split; [|split]].
  - intros Hclass Hni. unfold roundTrip.
    rewrite (bind_Ret _ _ _ _ _ (toJSON_plain st l o Hl Hm Hown)).
    fold st1.
    rewrite (fromJSON_unregistered st1 (List.length (heap st)) (jsonOf o)
               (cls o) settings Hj Hname Hclass Hni).
    rewrite Hlen. eexists. split; [reflexivity|]. simpl. split.
    + rewrite <- Hlen. unfold st1. simpl.
      rewrite snoc_lookup. now rewrite Dict_remove_put.
    + rewrite lookup_app_l by (rewrite length_app; lia).
      now apply lookup_app_l_Some.
  - intros n b v h2 dst Hclass Hproto Hcall Hv Hj2 Hi Hcls Hfrom.
    unfold roundTrip.
    rewrite (bind_Ret _ _ _ _ _ (toJSON_plain st l o Hl Hm Hown)).
    fold st1.
    assert (Hcall1 : host_call n (Some (List.length (heap st1))) [settings]
                               (heap st1 ++ [mkObj n []])
                     = HostReturn v h2) by (rewrite Hlen; exact Hcall).
    assert (Hi1 : h2 !! List.length (heap st1) = Some dst)
      by (rewrite Hlen; exact Hi).
    assert (Hproto1 : Dict.has "__proto__" (props (jsonOf o)) = false).
    { unfold Dict.has, jsonOf in *. simpl.
      rewrite Dict_get_put_ne by discriminate. exact Hproto. }
    rewrite (fromJSON_registered st1 (List.length (heap st)) (jsonOf o)
               (cls o) n b settings v h2 dst Hj Hname Hproto1 Hclass Hcall1
               Hv Hj2 Hi1 Hfrom).
    rewrite Hlen. eexists. eexists. split; [reflexivity|]. simpl.
    pose proof (lookup_lt_Some _ _ _ Hi) as Hlt2.
    split; [now apply list_lookup_insert_eq|]. simpl.
    split; [exact Hcls|]. split; [apply Dict_get_remove_eq|].
    intros k x Hk Hx.
    rewrite Dict_get_remove_ne by congruence.
    apply Dict_get_assign.
    + now apply Dict_keys_put_NoDup.
    + simpl. rewrite Dict_get_put_ne by congruence. exact Hx.
  - apply Dict_get_remove_eq.
  - intros k Hk. apply Dict_get_remove_ne. congruence.
Qed.

End JsonFacts.

Lemma C7_round_trip_keeps_other_fields_witness :
  (exists st',
     roundTrip (H := quietHost) (VObj 0%nat) VUndef
               (mkState emptyContainer [mkObj "Point" [("x", VNum 1)]] [])
     = Ret (VObj 2%nat) st'
     /\ heap st' !! 2%nat
        = Some (mkObj "Object" (Dict.remove "className" [("x", VNum 1)]))
     /\ heap st' !! 0%nat = Some (mkObj "Point" [("x", VNum 1)]))
  /\ (exists st' r,
        roundTrip (H := quietHost) (VObj 0%nat) VUndef pointRegistered
        = Ret (VObj 2%nat) st'
        /\ heap st' !! 2%nat = Some r
        /\ cls r = "Point"
        /\ Dict.get "className" (props r) = None
        /\ Dict.get "x" (props r) = Some (VNum 1)).
Proof.
  split.
  - apply (proj1 (C7_round_trip_keeps_other_fields (H := quietHost)
                    (mkState emptyContainer
                             [mkObj "Point" [("x", VNum 1)]] [])
                    0%nat (mkObj "Point" [("x", VNum 1)]) VUndef
                    eq_refl eq_refl eq_refl
                    ltac:(repeat constructor; simpl; intuition discriminate)));
      reflexivity.
  - destruct (proj1 (proj2 (C7_round_trip_keeps_other_fields
                              (H := quietHost) pointRegistered
                              0%nat (mkObj "Point" [("x", VNum 1)]) VUndef
                              eq_refl eq_refl eq_refl
                              ltac:(repeat constructor; simpl;
                                    intuition discriminate)))
                "Point" None VUndef _ (mkObj "Point" [])
                eq_refl eq_refl eq_refl eq_refl eq_refl eq_refl eq_refl
                eq_refl)
      as [st' [r [E [Hr [Hc [Hn Hk]]]]]].
    exists st', r. repeat split; try assumption.
    apply Hk; [discriminate|reflexivity].
Defined.

(** C7, as stated, fails for objects of several kinds.  A property of
    [x] that is called [className] does not come back.  The round trip
    raises for an [x] whose property [constructor] is [null], for an [x]
    whose own [toJSON] returns nothing, and for an [x] of a class called
    [toString].  And where the class of [x] is registered: an instance
    whose [fromJSON] ignores the JSON has none of the fields; a
    constructor that returns another object makes that object, which is
    no instance of the class, the outcome; and a field called [__proto__]
    that holds a number is not assigned. *)
Lemma C7_round_trip_loses_or_raises :
  (exists o r st',
     heap namedObject !! 0%nat = Some o
     /\ Dict.get "className" (props o) = Some (VStr "mine")
     /\ roundTrip (H := quietHost) (VObj 0%nat) VUndef namedObject
        = Ret (VObj 2%nat) st'
     /\ heap st' !! 2%nat = Some r
     /\ Dict.get "className" (props r) = None)
  /\ (exists st',
        roundTrip (H := quietHost) (VObj 0%nat) VUndef nullConstructor
        = Throw TypeError st')
  /\ (exists st',
        roundTrip (H := quietHost) (VObj 0%nat) VUndef silentToJSON
        = Throw TypeError st')
  /\ (exists st',
        roundTrip (H := quietHost) (VObj 0%nat) VUndef prototypeNamed
        = Throw TypeError st')
  /\ (exists r st',
        roundTrip (H := deafHost) (VObj 0%nat) VUndef pointRegistered
        = Ret (VObj 2%nat) st'
        /\ heap st' !! 2%nat = Some r
        /\ Dict.get "x" (props r) = None)
  /\ (exists r st',
        roundTrip (H := lendingHost) (VObj 0%nat) VUndef pointAndPlain
        = Ret (VObj 1%nat) st'
        /\ heap st' !! 1%nat = Some r
        /\ cls r = "Object")
  /\ (exists o r st',
        heap protoField !! 0%nat = Some o
        /\ Dict.get "__proto__" (props o) = Some (VNum 5)
        /\ roundTrip (H := quietHost) (VObj 0%nat) VUndef protoField
           = Ret (VObj 2%nat) st'
        /\ heap st' !! 2%nat = Some r
        /\ Dict.get "__proto__" (props r) = None).
Proof.
  repeat split; repeat eexists; vm_compute; repeat split.
Qed.

(** ** The cursor *)

Lemma triple_bind {A B : Type} (P : state -> Prop) (R : A -> state -> Prop)
  (Q : B -> state -> Prop) (m : M A) (k : A -> M B) :
  triple P m R -> (forall a, triple (R a) (k a) Q) -> triple P (bind m k) Q.
Proof.
  intros Hm Hk st HP. unfold bind. specialize (Hm st HP).
  destruct (m st) as [a st1|e st1| |]; try exact I.
  apply (Hk a st1 Hm).
Qed.

Lemma triple_ret {A : Type} (P : state -> Prop) (Q : A -> state -> Prop)
  (a : A) :
  (forall st, P st -> Q a st) -> triple P (ret a) Q.
Proof. intros HPQ st HP. now apply HPQ. Qed.

Lemma triple_weaken {A : Type} (P P' : state -> Prop)
  (Q Q' : A -> state -> Prop) (m : M A) :
  (forall st, P' st -> P st) ->
  (forall a st, Q a st -> Q' a st) ->
  triple P m Q -> triple P' m Q'.
Proof.
  intros HP HQ Hm st HP'. specialize (Hm st (HP st HP')).
  destruct (m st); try exact I. now apply HQ.
Qed.

(** [m] reads the state and leaves it as it is. *)
Lemma triple_of_pure {A : Type} (P : state -> Prop) (m : M A) :
  (forall st, match m st with
              | Ret _ st' => st' = st
              | Throw _ _ | OutOfFuel | Unsupported => True
              end) ->
  triple P m (fun _ st' => P st').
Proof.
  intros Hm st HP. specialize (Hm st).
  destruct (m st); try exact I. now subst.
Qed.

Lemma scanLabels_range (compiled : list (list Token)) :
  forall (i : nat) (acc acc' : list (string * Value)),
    scanLabels i compiled acc = Some acc' ->
    (forall k v, Dict.get k acc = Some v ->
                 exists j, v = VNum (Z.of_nat j)
                           /\ (j < i + List.length compiled)%nat) ->
    forall k v, Dict.get k acc' = Some v ->
                exists j, v = VNum (Z.of_nat j)
                          /\ (j < i + List.length compiled)%nat.
Proof.
  induction compiled as [|current rest IH]; intros i acc acc' Hs Hacc k v Hk;
    simpl in *.
  - injection Hs as <-. exact (Hacc k v Hk).
  - assert (Hstep : forall a,
               scanLabels (S i) rest a = Some acc' ->
               (forall k v, Dict.get k a = Some v ->
                            exists j, v = VNum (Z.of_nat j)
                                      /\ (j < S i + List.length rest)%nat) ->
               exists j, v = VNum (Z.of_nat j)
                         /\ (j < i + S (List.length rest))%nat).
    { intros a Ha Hin. destruct (IH (S i) a acc' Ha Hin k v Hk) as [j [-> Hj]].
      exists j. split; [reflexivity|lia]. }
    assert (Hold : forall k v, Dict.get k acc = Some v ->
                               exists j, v = VNum (Z.of_nat j)
                                         /\ (j < S i + List.length rest)%nat).
    { intros k0 v0 H0. destruct (Hacc k0 v0 H0) as [j [-> Hj]].
      exists j. split; [reflexivity|lia]. }
    clear Hacc.
    destruct (current !! 0%nat) as [[c|[]|c|c]|]; try discriminate;
      try (exact (Hstep acc Hs Hold)).
    destruct (current !! 1%nat) as [t|]; [|discriminate].
    apply (Hstep _ Hs). intros k0 v0 H0. unfold recordLabel in H0.
    destruct (Dict.setsPrototype _ acc); [exact (Hold k0 v0 H0)|].
    destruct (String.eqb (key_of (token_value t)) k0) eqn:E.
    + apply String.eqb_eq in E. subst k0. rewrite Dict_get_put_eq in H0.
      injection H0 as <-. exists i. split; [reflexivity|lia].
    + apply String.eqb_neq in E. rewrite Dict_get_put_ne in H0 by exact E.
      exact (Hold k0 v0 H0).
Qed.

Section Cursor.

Context `{Host}.

Lemma walk_pure (step : string) (n : nat) (rest : list string) :
  forall (i : nat) (v : Value) (st : state),
    match walk step n i rest v st with
    | Ret _ st' => st' = st
    | Throw _ _ | OutOfFuel | Unsupported => True
    end.
Proof.
  induction rest as [|k rest IH]; intros i v st; simpl; [reflexivity|].
  unfold bind.
  assert (G : forall x, match (if Js.truthy v then
                                 fun st0 =>
                                   match getProp v k st0 with
                                   | Ret a st' => ret (negb (Js.truthy a)) st'
                                   | Throw e st' => Throw e st'
                                   | OutOfFuel => OutOfFuel
                                   | Unsupported => Unsupported
                                   end
                               else ret x) st with
                        | Ret _ st' => st' = st
                        | _ => True
                        end).
  { intros x. destruct (Js.truthy v); [|reflexivity].
    pose proof (getProp_pure v k st) as Hp.
    destruct (getProp v k st); try exact I. exact Hp. }
  destruct (Js.truthy v); simpl.
  - pose proof (getProp_pure v k st) as Hp.
    destruct (getProp v k st) as [x st1|e st1| |]; try exact I. subst st1.
    simpl. destruct (negb (Js.truthy x) && (i <? n - 1)%nat); [exact I|].
    pose proof (getProp_pure v k st) as Hp.
    destruct (getProp v k st) as [y st1|e st1| |]; try exact I. subst st1.
    apply IH.
  - destruct (i <? n - 1)%nat; simpl; [exact I|].
    pose proof (getProp_pure v k st) as Hp.
    destruct (getProp v k st) as [y st1|e st1| |]; try exact I. subst st1.
    apply IH.
Qed.

Lemma resolveRoot_pure (token : string) (context input srcObject : Value)
  (st : state) :
  (String.eqb token "input" || String.eqb token "output"
   || String.eqb token "this" || String.eqb token "context") = true ->
  match resolveRoot token context input srcObject st with
  | Ret _ st' => st' = st
  | Throw _ _ | OutOfFuel | Unsupported => True
  end.
Proof.
  intros Ht. unfold resolveRoot.
  destruct (String.eqb token "input" || String.eqb token "output") eqn:E1;
    [reflexivity|].
  simpl in Ht.
  destruct (String.eqb token "this") eqn:E3.
  - rewrite andb_false_r. reflexivity.
  - simpl in Ht. rewrite Ht. simpl. rewrite andb_false_r. reflexivity.
Qed.

Lemma resolvePathWithType_pure (p : option string)
  (context input srcObject : Value) (st : state) :
  pureOperand p = true ->
  match resolvePathWithType p context input srcObject st with
  | Ret _ st' => st' = st
  | Throw _ _ | OutOfFuel | Unsupported => True
  end.
Proof.
  destruct p as [step|]; [|intros _; exact I].
  unfold pureOperand, pureHead. intros Hp.
  destruct (literalHead (headToken step)) eqn:Hl.
  - unfold resolvePathWithType, literalHead in *.
    destruct (JsString.isnum (headToken step)).
    + unfold bind, lift.
      destruct (Js.number _); [reflexivity|exact I].
    + destruct (JsString.startsWith (headToken step) JsString.dquote);
        [reflexivity|].
      destruct (JsString.startsWith (headToken step) "'"); [reflexivity|].
      destruct (String.eqb (headToken step) "true"); [reflexivity|].
      destruct (String.eqb (headToken step) "false"); [reflexivity|].
      discriminate.
  - rewrite (resolve_not_literal _ _ _ _ Hl). simpl in Hp.
    unfold bind.
    pose proof (resolveRoot_pure (headToken step) context input srcObject st
                  Hp) as Hr.
    destruct (resolveRoot _ _ _ _ st) as [root st1|e st1| |]; try exact I.
    subst st1.
    pose proof (walk_pure step (List.length (JsString.split "." step)) 
                  (tl (JsString.split "." step)) 1 root st) as Hw.
    destruct (walk _ _ _ _ _ st) as [v st1|e st1| |]; try exact I.
    subst st1. destruct (Js.is_function v); reflexivity.
Qed.

Lemma resolvePath_pure (p : option string) (context input srcObject : Value)
  (st : state) :
  pureOperand p = true ->
  match resolvePath p context input srcObject st with
  | Ret _ st' => st' = st
  | Throw _ _ | OutOfFuel | Unsupported => True
  end.
Proof.
  intros Hp. unfold resolvePath, bind.
  pose proof (resolvePathWithType_pure p context input srcObject st Hp) as Hr.
  destruct (resolvePathWithType _ _ _ _ st); try exact I. exact Hr.
Qed.

(** The parent path of a direct member of the input resolves to the
    input. *)
Lemma resolvePath_input (tokens : list string)
  (context input srcObject : Value) (st : state) :
  inputMember tokens = true ->
  resolvePath (Some (parentPath tokens)) context input srcObject st
  = Ret input st.
Proof.
  unfold inputMember. intros Hm. apply andb_prop in Hm as [Hlen Hhead].
  apply Nat.eqb_eq in Hlen.
  set (parent := parentPath tokens) in *.
  assert (Hl : literalHead (headToken parent) = false).
  { apply orb_prop in Hhead as [E|E]; apply String.eqb_eq in E;
      now rewrite E. }
  unfold resolvePath. rewrite (resolve_not_literal _ _ _ _ Hl).
  assert (Hroot : resolveRoot (headToken parent) context input srcObject st
                  = Ret input st).
  { unfold resolveRoot. now rewrite Hhead. }
  unfold bind at 1. unfold bind at 1. rewrite Hroot.
  destruct (JsString.split "." parent) as [|t [|t' ts]]; try discriminate.
  simpl. unfold bind, ret. destruct (Js.is_function input); reflexivity.
Qed.

End Cursor.

Section CursorInvariant.

Context `{Host}.

Variable n : nat.
Variable labs : list (string * Value).
Variable len : nat.
Variable input : Value.
Hypothesis input_below : allocatedBelow n input.
Hypothesis labs_range :
  forall k v, Dict.get k labs = Some v ->
              exists j, v = VNum (Z.of_nat j) /\ (j < len)%nat.

Lemma contextAt_other (z : Z) (st : state) (l : nat) (o : obj) :
  (l < n)%nat ->
  contextAt n labs z st ->
  contextAt n labs z (with_heap st (<[l := o]> (heap st))).
Proof.
  intros Hl [C [HC [Hcur [Hlab HB]]]]. exists C. simpl.
  rewrite !list_lookup_insert_ne by lia. auto.
Qed.

Lemma contextAt_member (z : Z) (st : state) (k : string) (x : Value) :
  k <> "cursor" -> k <> "labels" -> Js.inherited k = false ->
  contextAt n labs z st ->
  triple (fun s => s = st) (setProp (VObj n) k x)
         (fun _ st' => contextAt n labs z st').
Proof.
  intros Hk1 Hk2 Hk3 [C [HC [Hcur [Hlab HB]]]] s ->.
  rewrite (setProp_obj st n C k x HC (setsPrototype_inherited _ _ Hk3)).
  exists (assigned C k x). simpl.
  rewrite list_lookup_insert_eq by (eapply lookup_lt_Some; exact HC).
  rewrite list_lookup_insert_ne by lia.
  rewrite !Dict_get_put_ne by congruence. auto.
Qed.

Lemma contextAt_cursor (z z' : Z) (st : state) :
  contextAt n labs z st ->
  setProp (VObj n) "cursor" (VNum z') st
  = Ret tt (with_heap st (<[n := assigned
                                   (match heap st !! n with
                                    | Some C => C
                                    | None => mkObj "" []
                                    end) "cursor" (VNum z')]> (heap st)))
  /\ contextAt n labs z'
       (with_heap st (<[n := assigned
                               (match heap st !! n with
                                | Some C => C
                                | None => mkObj "" []
                                end) "cursor" (VNum z')]> (heap st))).
Proof.
  intros [C [HC [Hcur [Hlab HB]]]]. rewrite HC. split.
  - now apply setProp_obj.
  - exists (assigned C "cursor" (VNum z')). simpl.
    rewrite list_lookup_insert_eq by (eapply lookup_lt_Some; exact HC).
    rewrite list_lookup_insert_ne by lia.
    rewrite Dict_get_put_eq.
    rewrite Dict_get_put_ne by congruence. auto.
Qed.

Lemma safe_setProp_input (z : Z) (k : string) (x : Value) :
  triple (contextAt n labs z) (setProp input k x)
         (fun _ st' => contextAt n labs z st').
Proof using input_below.
  intros st Hc. destruct input; try exact I.
  - unfold setProp. now destruct (String.eqb k "__proto__").
  - unfold setProp. now destruct (String.eqb k "__proto__").
  - unfold setProp. now destruct (String.eqb k "__proto__").
  - unfold setProp. now destruct (String.eqb k "__proto__").
  - cbv [setProp bind read write ret lift unsupported].
    destruct (heap st !! l) as [o|]; [|exact I].
    destruct (Js.stored k x (props o)); [|exact I].
    now apply contextAt_other.
Qed.

Lemma safe_deleteProp_input (z : Z) (k : string) :
  triple (contextAt n labs z) (deleteProp input k)
         (fun _ st' => contextAt n labs z st').
Proof using input_below.
  intros st Hc. destruct input; try exact I; try exact Hc.
  - unfold deleteProp. destruct (String.eqb k "length"); [exact I|].
    destruct (Js.index_of k) as [i|]; [|exact Hc].
    destruct (i <? String.length s)%nat; [exact I|exact Hc].
  - cbv [deleteProp bind read write ret].
    destruct (heap st !! l); [|exact I]. now apply contextAt_other.
Qed.

Lemma safe_resolvePath (z : Z) (p : option string)
  (context srcObject : Value) :
  pureOperand p = true ->
  triple (contextAt n labs z) (resolvePath p context input srcObject)
         (fun _ st' => contextAt n labs z st').
Proof.
  intros Hp. apply triple_of_pure. intros st.
  now apply resolvePath_pure.
Qed.

Lemma safe_getProp (z : Z) (v : Value) (k : string) :
  triple (contextAt n labs z) (getProp v k)
         (fun _ st' => contextAt n labs z st').
Proof.
  apply triple_of_pure. intros st.
  pose proof (getProp_pure v k st) as Hp.
  destruct (getProp v k st); try exact I. exact Hp.
Qed.

Lemma safe_lift {A : Type} (z : Z) (o : option A) :
  triple (contextAt n labs z) (lift o) (fun _ st' => contextAt n labs z st').
Proof. destruct o; intros st Hc; [exact Hc|exact I]. Qed.

Lemma safe_splitPath (z : Z) (path : option string) :
  triple (contextAt n labs z) (splitPath path)
         (fun tokens st' =>
            contextAt n labs z st'
            /\ exists p, path = Some p /\ tokens = JsString.split "." p).
Proof.
  destruct path as [p|]; intros st Hc; [|exact I].
  split; [exact Hc|]. now exists p.
Qed.

Lemma safe_resolve_input (z : Z) (tokens : list string)
  (context srcObject : Value) :
  inputMember tokens = true ->
  triple (contextAt n labs z)
         (resolvePath (Some (parentPath tokens)) context input srcObject)
         (fun v st' => v = input /\ contextAt n labs z st').
Proof.
  intros Hm st Hc. rewrite (resolvePath_input tokens _ _ _ st Hm). auto.
Qed.

Lemma safe_setValue (z : Z) (path valuePath : option string)
  (context srcObject : Value) :
  targetOk (JsString.split ".") path = true ->
  pureOperand valuePath = true ->
  triple (contextAt n labs z)
         (setValue path valuePath context input srcObject)
         (fun _ st' => contextAt n labs z st').
Proof using input_below.
  intros Ht Hv. unfold setValue.
  eapply triple_bind; [now apply safe_resolvePath|]. intros value.
  eapply triple_bind; [apply safe_splitPath|]. intros tokens.
  intros st [Hc [p [-> ->]]]. simpl in Ht.
  rewrite (bind_Ret _ _ _ _ _ (resolvePath_input _ _ _ _ st Ht)).
  now apply safe_setProp_input.
Qed.

Lemma safe_deleteValue (z : Z) (path : option string)
  (context srcObject : Value) :
  targetOk (JsString.split ".") path = true ->
  triple (contextAt n labs z)
         (deleteValue path context input srcObject)
         (fun _ st' => contextAt n labs z st').
Proof using input_below.
  intros Ht. unfold deleteValue.
  eapply triple_bind; [apply safe_splitPath|]. intros tokens.
  intros st [Hc [p [-> ->]]]. simpl in Ht.
  rewrite (bind_Ret _ _ _ _ _ (resolvePath_input _ _ _ _ st Ht)).
  now apply safe_deleteProp_input.
Qed.

Lemma safe_update (z : Z) (tokens : list string)
  (op : Value -> Value -> option Value) (value context srcObject : Value) :
  inputMember tokens = true ->
  triple (contextAt n labs z)
         (let* currentObject :=
            resolvePath (Some (parentPath tokens)) context input srcObject in
          let* old := getProp currentObject (lastToken tokens) in
          let* new := lift (op old value) in
          setProp currentObject (lastToken tokens) new)
         (fun _ st' => contextAt n labs z st').
Proof using input_below.
  intros Ht st Hc.
  rewrite (bind_Ret _ _ _ _ _ (resolvePath_input _ _ _ _ st Ht)).
  revert st Hc. change (triple (contextAt n labs z)
    (let* old := getProp input (lastToken tokens) in
     let* new := lift (op old value) in
     setProp input (lastToken tokens) new)
    (fun _ st' => contextAt n labs z st')).
  eapply triple_bind; [apply safe_getProp|]. intros old.
  eapply triple_bind; [apply safe_lift|]. intros new.
  apply safe_setProp_input.
Qed.

Lemma safe_incValue (z : Z) (path valuePath : option string)
  (context srcObject : Value) :
  targetOk incTokens path = true ->
  pureOperand valuePath = true ->
  triple (contextAt n labs z)
         (incValue path valuePath context input srcObject)
         (fun _ st' => contextAt n labs z st').
Proof using input_below.
  intros Ht Hv. unfold incValue.
  eapply triple_bind; [now apply safe_resolvePath|]. intros value.
  eapply triple_bind; [apply safe_splitPath|]. intros tokens.
  intros st [Hc [p [-> ->]]]. simpl in Ht. unfold incTokens in Ht.
  revert st Hc. apply safe_update. exact Ht.
Qed.

Lemma safe_decValue (z : Z) (path valuePath : option string)
  (context srcObject : Value) :
  targetOk (JsString.split ".") path = true ->
  pureOperand valuePath = true ->
  triple (contextAt n labs z)
         (decValue path valuePath context input srcObject)
         (fun _ st' => contextAt n labs z st').
Proof using input_below.
  intros Ht Hv. unfold decValue.
  eapply triple_bind; [now apply safe_resolvePath|]. intros value.
  eapply triple_bind; [apply safe_splitPath|]. intros tokens.
  intros st [Hc [p [-> ->]]]. simpl in Ht.
  revert st Hc. apply safe_update. exact Ht.
Qed.

Lemma safe_compareValue (z : Z) (op : Value -> Value -> option bool)
  (pathA pathB : option string) (srcObject : Value) :
  pureOperand pathA = true ->
  pureOperand pathB = true ->
  triple (contextAt n labs z)
         (compareValue op pathA pathB (VObj n) input srcObject)
         (fun _ st' => contextAt n labs z st').
Proof.
  intros Ha Hb. unfold compareValue.
  eapply triple_bind; [now apply safe_resolvePath|]. intros valueA.
  eapply triple_bind; [now apply safe_resolvePath|]. intros valueB.
  eapply triple_bind; [apply safe_lift|]. intros r.
  intros st Hc.
  apply (contextAt_member z st "floating" (VBool r) ltac:(discriminate)
           ltac:(discriminate) eq_refl);
    [exact Hc|reflexivity].
Qed.

Lemma safe_doGoto (z : Z) (label : option string) :
  Dict.has (key_of label) labs = true ->
  triple (contextAt n labs z) (doGoto label (VObj n))
         (fun _ st' =>
            exists z', contextAt n labs z' st'
                       /\ 0 <= z' < Z.of_nat len).
Proof using labs_range.
  intros Hhas st Hc. pose proof Hc as [C [HC [Hcur [Hlab HB]]]].
  unfold doGoto, Dict.has in *.
  destruct (Dict.get (key_of label) labs) as [v|] eqn:Hv; [|discriminate].
  rewrite (bind_Ret _ _ _ _ _ (getProp_own st n C _ _ HC Hlab)).
  rewrite (bind_Ret _ _ _ _ _ (getProp_own st (S n) _ _ _ HB Hv)).
  destruct (labs_range _ _ Hv) as [j [-> Hj]].
  destruct (contextAt_cursor z (Z.of_nat j) st Hc) as [E Hc'].
  rewrite E. exists (Z.of_nat j). split; [exact Hc'|lia].
Qed.

Lemma settled_keeps (z : Z) (m : M unit) :
  triple (contextAt n labs z) m (fun _ st' => contextAt n labs z st') ->
  triple (contextAt n labs z) (m ;;; ret input) (settled n labs len input z).
Proof.
  intros Hm. eapply triple_bind; [exact Hm|]. intros _ st Hc.
  split; [reflexivity|]. exists z. auto.
Qed.

Lemma settled_jumps (z : Z) (m : M unit) :
  triple (contextAt n labs z) m
         (fun _ st' => exists z', contextAt n labs z' st'
                                  /\ 0 <= z' < Z.of_nat len) ->
  triple (contextAt n labs z) (m ;;; ret input) (settled n labs len input z).
Proof.
  intros Hm. eapply triple_bind; [exact Hm|]. intros _ st [z' [Hc Hz]].
  split; [reflexivity|]. exists z'. auto.
Qed.

Lemma settled_stays (z : Z) :
  triple (contextAt n labs z) (ret input) (settled n labs len input z).
Proof. intros st Hc. split; [reflexivity|]. exists z. auto. Qed.

Lemma safe_jump (z : Z) (step : list Token) :
  match step !! 1%nat with
  | Some t => Dict.has (key_of (token_value t)) labs
  | None => true
  end = true ->
  triple (contextAt n labs z)
         (let* label := operand_of step 1 in
          (doGoto label (VObj n) ;;; ret input))
         (settled n labs len input z).
Proof using labs_range.
  intros Hs. unfold operand_of.
  destruct (step !! 1%nat) as [t|]; [|intros st _; exact I].
  intros st Hc. rewrite (bind_Ret _ _ _ _ _ eq_refl).
  revert st Hc. apply settled_jumps. now apply safe_doGoto.
Qed.

Lemma safe_executeAction
  (run : PipelineSrc -> Value -> Value -> Z -> M Value) (z : Z)
  (step : list Token) (srcObject : Value) (depth : Z) :
  contextSafe labs step = true ->
  triple (contextAt n labs z)
         (executeAction run (Some step) (VObj n) input srcObject depth)
         (settled n labs len input z).
Proof using input_below labs_range.
  unfold contextSafe, executeAction.
  destruct (step !! 0%nat) as [[c|k|v|v]|] eqn:H0; try discriminate.
  - intros _.
    destruct (has_arrow (Some (Comment c))); simpl;
      [destruct (depth >? 0)|]; apply settled_stays.
  - change (has_arrow (Some (Op k))) with false. cbv beta iota. simpl andb.
    cbv beta iota.
    destruct k; intros Hs; try discriminate;
      try (apply andb_prop in Hs; destruct Hs as [Hs1 Hs2]).
    + (* set *)
      unfold operand_of. unfold operand in Hs1 at 1.
      destruct (step !! 1%nat) as [t|]; [|intros st _; exact I].
      intros st Hc. rewrite (bind_Ret _ _ _ _ _ eq_refl).
      revert st Hc. apply settled_keeps. now apply safe_setValue.
    + (* delete *)
      unfold operand_of. unfold operand in Hs.
      destruct (step !! 1%nat) as [t|]; [|intros st _; exact I].
      intros st Hc. rewrite (bind_Ret _ _ _ _ _ eq_refl).
      revert st Hc. apply settled_keeps. now apply safe_deleteValue.
    + (* inc *)
      apply settled_keeps. now apply safe_incValue.
    + (* dec *)
      apply settled_keeps. now apply safe_decValue.
    + apply settled_keeps. now apply safe_compareValue.
    + apply settled_keeps. now apply safe_compareValue.
    + apply settled_keeps. now apply safe_compareValue.
    + apply settled_keeps. now apply safe_compareValue.
    + apply settled_keeps. now apply safe_compareValue.
    + apply settled_keeps. now apply safe_compareValue.
    + apply settled_stays.
    + now apply safe_jump.
    + eapply triple_bind; [apply safe_getProp|]. intros floating.
      destruct (negb (Js.truthy floating));
        [now apply safe_jump|apply settled_stays].
    + eapply triple_bind; [apply safe_getProp|]. intros floating.
      destruct (Js.truthy floating);
        [now apply safe_jump|apply settled_stays].
Qed.

End CursorInvariant.

(** ** The loop keeps the cursor in range *)

Section Turns.

Context `{Host}.

Variable n : nat.
Variable labs : list (string * Value).
Variable compiled : list (list Token).
Variable input : Value.
Hypothesis input_below : allocatedBelow n input.
Hypothesis labs_range :
  forall k v, Dict.get k labs = Some v ->
              exists j, v = VNum (Z.of_nat j)
                        /\ (j < List.length compiled)%nat.
Hypothesis all_safe : forallb (contextSafe labs) compiled = true.

Lemma contextAt_peek (z : Z) (st : state) :
  contextAt n labs z st -> peek st (VObj n) "cursor" = Some (VNum z).
Proof.
  intros [C [HC [Hcur _]]]. unfold peek.
  now rewrite (getProp_own st n C _ _ HC Hcur).
Qed.

Lemma contextAt_read (z : Z) (st : state) :
  contextAt n labs z st -> getProp (VObj n) "cursor" st = Ret (VNum z) st.
Proof.
  intros [C [HC [Hcur _]]].
  now rewrite (getProp_own st n C _ _ HC Hcur).
Qed.

Lemma safe_turn (run : PipelineSrc -> Value -> Value -> Z -> M Value)
  (srcObject : Value) (depth : Z) :
  triple (betweenTurns n labs (List.length compiled))
         (turn run compiled (VObj n) input srcObject depth)
         (fun r st' =>
            (r = None \/ r = Some input)
            /\ betweenTurns n labs (List.length compiled) st').
Proof using input_below labs_range all_safe.
  intros st [z [Hc Hz]]. unfold turn.
  rewrite (bind_Ret _ _ _ _ _ (contextAt_read z st Hc)).
  change (cursorBelow compiled (VNum z))
    with (Some (if z <? Z.of_nat (List.length compiled)
                then true else false)).
  unfold lift at 1. rewrite (bind_Ret _ _ _ _ _ eq_refl).
  destruct (z <? Z.of_nat (List.length compiled)) eqn:Hlt.
  - apply Z.ltb_lt in Hlt. unfold stepAt.
    destruct (0 <=? z) eqn:H0; [|apply Z.leb_gt in H0; lia].
    destruct (lookup_lt_is_Some_2 compiled (Z.to_nat z)) as [step Hstep];
      [lia|].
    rewrite Hstep.
    assert (Hsafe : contextSafe labs step = true).
    { rewrite forallb_forall in all_safe. apply all_safe.
      apply list_elem_of_In. eapply list_elem_of_lookup_2. exact Hstep. }
    pose proof (safe_executeAction n labs (List.length compiled) input
                  input_below labs_range run z step srcObject depth Hsafe
                  st Hc) as HE.
    unfold bind at 1.
    destruct (executeAction run (Some step) (VObj n) input srcObject depth
                            st) as [v st1|e st1| |]; try exact I.
    destruct HE as [-> [z' [Hc' Hz']]].
    rewrite (bind_Ret _ _ _ _ _ (contextAt_read z' st1 Hc')).
    change (Js.add (VNum z') (VNum 1)) with (Js.number (z' + 1)).
    unfold Js.number, lift.
    destruct (Js.in_range (z' + 1)); [|exact I].
    rewrite (bind_Ret _ _ _ _ _ eq_refl).
    destruct (contextAt_cursor n labs z' (z' + 1) st1 Hc') as [E Hc''].
    rewrite (bind_Ret _ _ _ _ _ E).
    split; [now right|]. exists (z' + 1). split; [exact Hc''|lia].
  - split; [now left|]. exists z. auto.
Qed.

Lemma safe_turns (fuel k : nat) (srcObject : Value) (depth : Z) :
  triple (betweenTurns n labs (List.length compiled))
         (turns fuel k compiled (VObj n) input srcObject depth)
         (fun _ st' => betweenTurns n labs (List.length compiled) st').
Proof using input_below labs_range all_safe.
  induction k as [|k IH]; simpl.
  - intros st Hb. exact Hb.
  - eapply triple_bind; [apply safe_turn|]. intros [v|].
    + intros st [[Hv|Hv] Hb]; [discriminate|].
      injection Hv as ->. now apply IH.
    + intros st [_ Hb]. exact Hb.
Qed.

End Turns.




(** * Further properties of the code *)

(** ** The default compiler: words and quotes *)

Module CompilerFacts.

Import DefaultCompilerSyntax.

Lemma startsWith_cons (c d : ascii) (r q : string) :
  JsString.startsWith (String d r) (String c q)
  = if Ascii.eqb c d then JsString.startsWith r q else false.
Proof.
  unfold JsString.startsWith. simpl.
  destruct (ascii_dec c d) as [->|N].
  - now rewrite Ascii.eqb_refl.
  - apply Ascii.eqb_neq in N. now rewrite N.
Qed.

Lemma startsWith_nil (s : string) : JsString.startsWith s EmptyString = true.
Proof. now destruct s. Qed.

Lemma quoted_is_reference (s : string) :
  unquoted s = false -> getTokenFromWord s = Reference s.
Proof.
  unfold unquoted, JsString.dquote.
  destruct s as [|c r]; [discriminate|].
  rewrite !startsWith_cons, !startsWith_nil.
  destruct (Ascii.eqb_spec "034"%char c) as [<-|N1]; [reflexivity|].
  destruct (Ascii.eqb_spec "'"%char c) as [<-|N2]; [reflexivity|].
  discriminate.
Qed.

Lemma fold_unquoted (ws : list string) :
  forall s,
    currentQuote s = None ->
    forallb unquoted ws = true ->
    fold_left compileWord ws s
    = mkLineState (tokens s ++ map getTokenFromWord ws)%list
                  (currentString s) None.
Proof.
  induction ws as [|w ws IH]; intros s Hq Hu; simpl in *.
  - rewrite app_nil_r. destruct s. simpl in *. now subst.
  - apply andb_prop in Hu. destruct Hu as [Hw Hws].
    unfold unquoted in Hw. apply andb_prop in Hw. destruct Hw as [H1 H2].
    apply negb_true_iff in H1, H2.
    unfold compileWord at 2. rewrite Hq, H1, H2.
    rewrite IH by (try reflexivity; exact Hws). simpl.
    now rewrite <- app_assoc.
Qed.

(** What one word does in a state where no quote is open and the word
    begins with the mark [q]. *)
Lemma compileWord_opens (s : lineState) (q w : string) :
  currentQuote s = None ->
  quoteMark q = true ->
  JsString.startsWith w q = true ->
  compileWord s w
  = if JsString.endsWith w q
    then mkLineState (tokens s ++ [getTokenFromWord w])%list w None
    else mkLineState (tokens s) w (Some q).
Proof.
  intros Hq Hm Hs. unfold compileWord. rewrite Hq.
  unfold quoteMark in Hm. apply orb_prop in Hm.
  destruct Hm as [E|E]; apply String.eqb_eq in E; subst q.
  - now rewrite Hs.
  - assert (N : JsString.startsWith w JsString.dquote = false).
    { destruct w as [|c r]; [discriminate|].
      unfold JsString.dquote in *. rewrite startsWith_cons in *.
      destruct (Ascii.eqb_spec "'"%char c) as [<-|]; [reflexivity|].
      discriminate. }
    now rewrite N, Hs.
Qed.

Lemma fold_open (q : string) (ws : list string) :
  forall s,
    currentQuote s = Some q ->
    forallb (leavesOpen q) ws = true ->
    fold_left compileWord ws s
    = mkLineState (tokens s)
                  (fold_left (fun cs w => cs ++ " " ++ w) ws (currentString s))
                  (Some q).
Proof.
  induction ws as [|w ws IH]; intros s Hq Ho; simpl in *.
  - destruct s. simpl in *. now subst.
  - apply andb_prop in Ho. destruct Ho as [Hw Hws].
    unfold leavesOpen in Hw. apply negb_true_iff in Hw.
    unfold compileWord at 2. rewrite Hq, Hw.
    now rewrite IH by (try reflexivity; exact Hws).
Qed.

Lemma append_assoc (a b c : string) : (a ++ b) ++ c = a ++ (b ++ c).
Proof. induction a as [|x a IH]; simpl; [reflexivity|now rewrite IH]. Qed.

Lemma concat_snoc (sep : string) (ws : list string) (w0 w : string) :
  String.concat sep ((w0 :: ws) ++ [w])%list
  = String.concat sep (w0 :: ws) ++ sep ++ w.
Proof.
  revert w0. induction ws as [|x ws IH]; intros w0.
  - reflexivity.
  - change (String.concat sep ((w0 :: x :: ws) ++ [w])%list)
      with (w0 ++ sep ++ String.concat sep ((x :: ws) ++ [w])%list).
    rewrite IH.
    change (String.concat sep (w0 :: x :: ws))
      with (w0 ++ sep ++ String.concat sep (x :: ws)).
    now rewrite !append_assoc.
Qed.

(** The text a quote gathers: the words put together with one space. *)
Lemma fold_joins (ws : list string) :
  forall w0,
    fold_left (fun cs w => cs ++ " " ++ w) ws w0
    = JsString.join " " (w0 :: ws).
Proof.
  enough (G : forall l w0,
             fold_left (fun cs w => cs ++ " " ++ w) ws
                       (JsString.join " " (w0 :: l))
             = JsString.join " " ((w0 :: l) ++ ws)%list)
    by (intros w0; apply (G [] w0)).
  induction ws as [|w ws IH]; intros l w0.
  - now rewrite app_nil_r.
  - cbn [fold_left].
    replace (JsString.join " " (w0 :: l) ++ " " ++ w)
      with (JsString.join " " (w0 :: (l ++ [w]))%list)
      by apply concat_snoc.
    rewrite IH. cbn [app]. now rewrite <- app_assoc.
Qed.

Lemma startsWith_append (a b q : string) :
  JsString.startsWith a q = true -> JsString.startsWith (a ++ b) q = true.
Proof.
  revert a. induction q as [|c q IH]; intros a Ha.
  - apply startsWith_nil.
  - destruct a as [|d a]; [discriminate|]. cbn [append].
    rewrite startsWith_cons in *.
    destruct (Ascii.eqb c d); [now apply IH|discriminate].
Qed.

Lemma join_head (w0 : string) (ws : list string) :
  exists rest, JsString.join " " (w0 :: ws) = w0 ++ rest.
Proof.
  destruct ws as [|w ws].
  - exists EmptyString. simpl. induction w0; simpl; congruence.
  - eexists. reflexivity.
Qed.

Lemma unquoted_opens (q w : string) :
  quoteMark q = true -> JsString.startsWith w q = true -> unquoted w = false.
Proof.
  intros Hm Hs. unfold quoteMark in Hm. apply orb_prop in Hm.
  unfold unquoted.
  destruct Hm as [E|E]; apply String.eqb_eq in E; subst q; rewrite Hs.
  - reflexivity.
  - apply andb_false_r.
Qed.

(** A line none of whose words opens a quote compiles word by word: every
    word, the empty words between two spaces in a row included, gives one
    token. *)
Theorem compile_word_by_word (line : string) :
  forallb unquoted (lineWords line) = true ->
  compileLine line = map getTokenFromWord (lineWords line).
Proof.
  intros Hu. unfold compileLine. fold (lineWords line).
  now rewrite fold_unquoted.
Qed.

Lemma compile_word_by_word_witness :
  compileLine "set  input.x 1"
  = [Op OpSet; Reference ""; Reference "input.x"; Reference "1"].
Proof.
  apply (compile_word_by_word "set  input.x 1"). reflexivity.
Defined.

(** Words from one that begins with a quote mark to the first that ends
    with the same mark give one token, a reference whose value is those
    words, marks included, put together with single spaces. *)
Theorem compile_quoted_phrase (line q closing : string)
  (before inside after : list string) :
  lineWords line = (before ++ (inside ++ [closing]) ++ after)%list ->
  forallb unquoted before = true ->
  quoteMark q = true ->
  JsString.startsWith (hd closing inside) q = true ->
  forallb (leavesOpen q) inside = true ->
  JsString.endsWith closing q = true ->
  forallb unquoted after = true ->
  compileLine line
  = (map getTokenFromWord before
     ++ [Reference (JsString.join " " (inside ++ [closing]))]
     ++ map getTokenFromWord after)%list.
Proof.
  intros Hw Hb Hm Hs Ho Hc Ha. unfold compileLine. fold (lineWords line).
  rewrite Hw, (fold_left_app _ before),
    (fold_left_app _ (inside ++ [closing])%list after),
    (fold_unquoted before) by (try reflexivity; exact Hb).
  simpl tokens. simpl currentString.
  set (s0 := mkLineState (map getTokenFromWord before) EmptyString None).
  assert (G : fold_left compileWord (inside ++ [closing])%list s0
              = mkLineState
                  (tokens s0
                   ++ [Reference
                         (JsString.join " " (inside ++ [closing]))])%list
                  (JsString.join " " (inside ++ [closing])) None).
  { destruct inside as [|w0 inside].
    - cbn [app fold_left hd] in *.
      rewrite (compileWord_opens s0 q closing eq_refl Hm Hs), Hc.
      rewrite quoted_is_reference by (eapply unquoted_opens; eauto).
      reflexivity.
    - cbn [hd] in Hs. cbn [forallb] in Ho.
      apply andb_prop in Ho. destruct Ho as [Ho0 Ho].
      unfold leavesOpen in Ho0. apply negb_true_iff in Ho0.
      cbn [app fold_left].
      rewrite (compileWord_opens s0 q w0 eq_refl Hm Hs), Ho0.
      rewrite fold_left_app.
      rewrite (fold_open q inside) by (try reflexivity; exact Ho).
      cbn [fold_left tokens currentString].
      unfold compileWord. cbn [currentQuote currentString tokens].
      rewrite Hc, fold_joins.
      replace (JsString.join " " (w0 :: inside) ++ " " ++ closing)
        with (JsString.join " " (w0 :: (inside ++ [closing]))%list)
        by apply concat_snoc.
      rewrite quoted_is_reference; [reflexivity|].
      destruct (join_head w0 (inside ++ [closing])%list) as [rest ->].
      apply (unquoted_opens q); [exact Hm|].
      now apply startsWith_append. }
  rewrite G. rewrite fold_unquoted by (try reflexivity; exact Ha).
  simpl. now rewrite <- app_assoc.
Qed.

Lemma compile_quoted_phrase_witness :
  compileLine "set input.text 'a  b c' 1"
  = [Op OpSet; Reference "input.text"; Reference "'a  b c'"; Reference "1"].
Proof.
  apply (compile_quoted_phrase "set input.text 'a  b c' 1" "'" "c'"
           ["set"; "input.text"] ["'a"; ""; "b"] ["1"]);
    reflexivity.
Defined.

(** A quote that is opened and never closed takes the rest of the line
    with it: the word that opens it and every word after it give no
    token. *)
Theorem compile_unclosed_quote (line q : string)
  (before rest : list string) (opening : string) :
  lineWords line = (before ++ opening :: rest)%list ->
  forallb unquoted before = true ->
  quoteMark q = true ->
  JsString.startsWith opening q = true ->
  forallb (leavesOpen q) (opening :: rest) = true ->
  compileLine line = map getTokenFromWord before.
Proof.
  intros Hw Hb Hm Hs Ho. unfold compileLine. fold (lineWords line).
  rewrite Hw, fold_left_app, (fold_unquoted before)
    by (try reflexivity; exact Hb).
  cbn [forallb] in Ho. apply andb_prop in Ho. destruct Ho as [Ho0 Ho].
  unfold leavesOpen in Ho0. apply negb_true_iff in Ho0.
  cbn [fold_left tokens currentString app].
  set (s0 := mkLineState (map getTokenFromWord before) EmptyString None).
  rewrite (compileWord_opens s0 q opening eq_refl Hm Hs), Ho0.
  rewrite (fold_open q rest) by (try reflexivity; exact Ho).
  reflexivity.
Qed.

Lemma compile_unclosed_quote_witness :
  compileLine "set input.text 'a b 1" = [Op OpSet; Reference "input.text"].
Proof.
  apply (compile_unclosed_quote "set input.text 'a b 1" "'"
           ["set"; "input.text"] ["b"; "1"] "'a");
    reflexivity.
Defined.

End CompilerFacts.

(** ** The prescan of labels *)

Lemma scanLabels_lastLabel (compiled : list (list Token)) :
  forall (i : nat) (acc acc' : list (string * Value)),
    scanLabels i compiled acc = Some acc' ->
    Dict.get "__proto__" acc = None ->
    forall k,
      Dict.get k acc'
      = if String.eqb k "__proto__" then None
        else match lastLabel i compiled k with
             | Some j => Some (VNum (Z.of_nat j))
             | None => Dict.get k acc
             end.
Proof.
  assert (Hsame : forall rest i k (acc : list (string * Value)),
             Dict.get "__proto__" acc = None ->
             (if String.eqb k "__proto__" then None
              else match lastLabel i rest k with
                   | Some j => Some (VNum (Z.of_nat j))
                   | None => Dict.get k acc
                   end)
             = (if String.eqb k "__proto__" then None
                else match
                       match lastLabel i rest k with
                       | Some j => Some j
                       | None => None
                       end
                     with
                     | Some j => Some (VNum (Z.of_nat j))
                     | None => Dict.get k acc
                     end)).
  { intros rest i k acc _. now destruct (lastLabel i rest k). }
  induction compiled as [|step rest IH]; intros i acc acc' Hs Hp k;
    cbn [scanLabels lastLabel] in *.
  - injection Hs as <-.
    destruct (String.eqb_spec k "__proto__") as [->|N]; [exact Hp|reflexivity].
  - destruct step as [|t0 step]; [discriminate|].
    change ((t0 :: step) !! 0%nat) with (Some t0) in Hs.
    destruct t0 as [v|o|v|v];
      try (rewrite (IH _ _ _ Hs Hp k); now apply Hsame).
    destruct o;
      try (rewrite (IH _ _ _ Hs Hp k); now apply Hsame).
    destruct step as [|t step]; [discriminate|].
    change ((Op OpLabel :: t :: step) !! 1%nat) with (Some t) in Hs.
    cbn [isLabel]. unfold recordLabel, Dict.setsPrototype, Dict.has in Hs.
    destruct (String.eqb_spec (key_of (token_value t)) "__proto__")
      as [E|N]; cbn [andb] in Hs.
    + rewrite E, Hp in Hs. cbn [negb] in Hs.
      rewrite (IH _ _ _ Hs Hp k). rewrite E.
      destruct (String.eqb_spec k "__proto__") as [->|Nk]; [reflexivity|].
      destruct (lastLabel (S i) rest k); [reflexivity|].
      destruct (String.eqb_spec "__proto__" k) as [<-|_]; [|reflexivity].
      contradiction.
    + assert (Hp' : Dict.get "__proto__"
                      (Dict.put (key_of (token_value t)) (VNum (Z.of_nat i))
                                acc) = None)
        by (rewrite Dict_get_put_ne by exact N; exact Hp).
      rewrite (IH _ _ _ Hs Hp' k).
      destruct (String.eqb k "__proto__"); [reflexivity|].
      destruct (lastLabel (S i) rest k); [reflexivity|].
      destruct (String.eqb_spec (key_of (token_value t)) k) as [<-|Nk].
      * apply Dict_get_put_eq.
      * apply Dict_get_put_ne. congruence.
Qed.

Lemma lastLabel_Some (compiled : list (list Token)) (k : string) :
  forall i j,
    lastLabel i compiled k = Some j ->
    (i <= j)%nat
    /\ (exists step, compiled !! (j - i)%nat = Some step
                     /\ isLabel step k = true)
    /\ forall j' step,
         (j < j')%nat -> compiled !! (j' - i)%nat = Some step ->
         isLabel step k = false.
Proof.
  induction compiled as [|step rest IH]; intros i j Hl; cbn [lastLabel] in Hl.
  - discriminate.
  - destruct (lastLabel (S i) rest k) as [j0|] eqn:E.
    + injection Hl as ->. destruct (IH _ _ E) as [Hle [[s [Hs Hk]] Hlast]].
      split; [lia|]. split.
      * exists s. split; [|exact Hk].
        replace (j - i)%nat with (S (j - S i)) by lia. exact Hs.
      * intros j' s' Hlt Hs'. apply (Hlast j' s' Hlt).
        replace (j' - i)%nat with (S (j' - S i)) in Hs' by lia. exact Hs'.
    + destruct (isLabel step k) eqn:Hk; [|discriminate].
      injection Hl as ->. split; [lia|]. split.
      * exists step. rewrite Nat.sub_diag. auto.
      * intros j' s' Hlt Hs'.
        replace (j' - j)%nat with (S (j' - S j)) in Hs' by lia.
        cbn in Hs'.
        clear IH. revert Hs' E. generalize (j' - S j)%nat. generalize (S j).
        induction rest as [|r rest IHr]; intros a b Hs' E; [discriminate|].
        cbn [lastLabel] in E.
        destruct (lastLabel (S a) rest k) eqn:E'; [discriminate|].
        destruct b as [|b]; cbn in Hs'.
        -- injection Hs' as <-. now destruct (isLabel r k).
        -- now apply (IHr (S a) b).
Qed.

Lemma lastLabel_None (compiled : list (list Token)) (k : string) :
  forall i,
    lastLabel i compiled k = None ->
    forall j step, compiled !! j = Some step -> isLabel step k = false.
Proof.
  induction compiled as [|s rest IH]; intros i Hl j step Hs;
    [discriminate|].
  cbn [lastLabel] in Hl.
  destruct (lastLabel (S i) rest k) eqn:E; [discriminate|].
  destruct j as [|j]; cbn in Hs.
  - injection Hs as <-. now destruct (isLabel s k).
  - now apply (IH (S i) E j).
Qed.

Lemma scanLabels_None (compiled : list (list Token)) :
  forall (i : nat) (acc : list (string * Value)),
    scanLabels i compiled acc = None <-> existsb unscannable compiled = true.
Proof.
  induction compiled as [|step rest IH]; intros i acc;
    cbn [scanLabels existsb].
  - split; discriminate.
  - destruct step as [|t0 step]; [now split|].
    change ((t0 :: step) !! 0%nat) with (Some t0).
    destruct t0 as [v|o|v|v]; try apply IH.
    destruct o; try apply IH.
    destruct step as [|t step]; [now split|].
    change ((Op OpLabel :: t :: step) !! 1%nat) with (Some t).
    apply IH.
Qed.

Section Prescan.

Context `{Host}.

(** When the prescan raises, it raises a [TypeError] and has touched the
    labels object only. *)
Lemma findLabelsFrom_raises (compiled : list (list Token)) (lb : nat) :
  forall (i : nat) (st : state) (acc : list (string * Value)),
    heap st !! lb = Some (mkObj "Object" acc) ->
    scanLabels i compiled acc = None ->
    exists acc',
      findLabelsFrom i compiled (VObj lb) st
      = Throw TypeError
              (with_heap st (<[lb := mkObj "Object" acc']> (heap st))).
Proof.
  induction compiled as [|current rest IH]; intros i st acc Hlb Hs;
    cbn [scanLabels findLabelsFrom] in *.
  - discriminate.
  - destruct (current !! 0%nat) as [[v|[]|v|v]|];
      try (now apply (IH _ _ acc)).
    + unfold operand_of. destruct (current !! 1%nat) as [t|].
      * rewrite (bind_Ret _ _ st st (token_value t)) by reflexivity.
        rewrite (bind_Ret _ _ _ _ _ (setProp_label st lb _ _ _ Hlb)).
        pose proof (lookup_lt_Some _ _ _ Hlb) as Hlt.
        set (o := mkObj "Object"
                    (recordLabel (key_of (token_value t)) i acc)).
        assert (E : heap (with_heap st (<[lb := o]> (heap st))) !! lb
                    = Some o)
          by (simpl; now apply list_lookup_insert_eq).
        destruct (IH _ _ _ E Hs) as [acc' ->].
        exists acc'. simpl. now rewrite list_insert_insert_eq.
      * exists acc. unfold bind, throw.
        rewrite list_insert_id by exact Hlb. now rewrite with_heap_same.
    + exists acc. unfold throw.
      rewrite list_insert_id by exact Hlb. now rewrite with_heap_same.
Qed.

(** What [prepare] does when the prescan raises. *)
Lemma prepare_raises (compiled : list (list Token)) (depth : Z) (st : state) :
  scanLabels 0 compiled [] = None ->
  exists acc,
    prepare compiled depth st
    = Throw TypeError
        (mkState (container st)
                 (heap st ++ [freshContext (List.length (heap st));
                              mkObj "Object" acc])
                 (trace st ++ [EvExecute depth])).
Proof.
  intros Hs. unfold prepare, findLabels.
  cbv [bind alloc log]. simpl.
  rewrite length_app. simpl. rewrite Nat.add_1_r.
  set (n := List.length (heap st)).
  set (c0 := mkObj "Object" [("cursor", VNum 0)]).
  set (l0 := mkObj "Object" []).
  rewrite <- app_assoc. simpl.
  set (st1 := mkState (container st) (heap st ++ [c0; l0])%list
                      (trace st ++ [EvExecute depth])%list).
  change (with_heap (with_heap _ _) _) with st1.
  rewrite (setProp_obj st1 n c0 "labels" (VObj (S n))
             (cells_lookup_ctx (heap st) c0 l0) eq_refl).
  cbv beta iota. simpl heap. subst n. rewrite cells_insert_ctx.
  set (st2 := with_heap st1 _).
  destruct (findLabelsFrom_raises compiled (S (List.length (heap st))) 0 st2
              [] (cells_lookup_lab (heap st) _ l0) Hs) as [acc ->].
  exists acc. simpl. now rewrite cells_insert_lab.
Qed.

(** A pipeline one of whose instruction vectors is empty, or is a [label]
    without a name, cannot be executed at all: whatever the fuel, [execute]
    raises a [TypeError] from the prescan, before the first turn of the
    loop.  The container and every object that was there are as before. *)
Theorem execute_raises_on_unscannable (compiled : list (list Token))
  (input srcObject : Value) (depth : Z) (fuel : nat) (st : state) :
  existsb unscannable compiled = true ->
  exists st',
    execute fuel compiled input srcObject depth st = Throw TypeError st'
    /\ container st' = container st
    /\ trace st' = (trace st ++ [EvExecute depth])%list
    /\ forall l o, heap st !! l = Some o -> heap st' !! l = Some o.
Proof.
  intros Hu. apply (scanLabels_None compiled 0 []) in Hu.
  destruct (prepare_raises compiled depth st Hu) as [acc E].
  eexists. unfold execute, executeWith.
  rewrite (bind_Throw _ _ _ _ _ E).
  split; [reflexivity|]. split; [reflexivity|]. split; [reflexivity|].
  intros l o Hl. simpl. now apply lookup_app_l_Some.
Qed.

(** When [prepare] returns, the labels object of the new context holds,
    under each name, the index of the last [label] instruction of that
    name, and holds nothing under a name that no [label] instruction
    has.  The name [__proto__] is the exception: a label of that name is
    not recorded, the assignment being taken by the setter of
    [Object.prototype], which has no use for a number. *)
Theorem prescan_records_last_label (compiled : list (list Token))
  (depth : Z) (st st0 : state) (ctx : Value) :
  prepare compiled depth st = Ret ctx st0 ->
  exists labs,
    heap st0 !! S (List.length (heap st)) = Some (mkObj "Object" labs)
    /\ Dict.get "__proto__" labs = None
    /\ forall k,
         k <> "__proto__" ->
         match Dict.get k labs with
         | Some v =>
             exists i step,
               v = VNum (Z.of_nat i)
               /\ compiled !! i = Some step
               /\ isLabel step k = true
               /\ forall j later,
                    (i < j)%nat -> compiled !! j = Some later ->
                    isLabel later k = false
         | None =>
             forall j step, compiled !! j = Some step -> isLabel step k = false
         end.
Proof.
  intros Hp.
  destruct (scanLabels 0 compiled []) as [labs|] eqn:Hs.
  - rewrite (prepare_fresh compiled depth st labs Hs) in Hp.
    injection Hp as <- <-. exists labs. split; [apply cells_lookup_lab|].
    split; [now rewrite (scanLabels_lastLabel compiled 0 [] labs Hs eq_refl)|].
    intros k Hne.
    rewrite (scanLabels_lastLabel compiled 0 [] labs Hs eq_refl k).
    apply String.eqb_neq in Hne. rewrite Hne.
    destruct (lastLabel 0 compiled k) as [i|] eqn:El.
    + destruct (lastLabel_Some compiled k 0 i El) as [_ [[s [Hi Hk]] Hlast]].
      rewrite Nat.sub_0_r in Hi.
      exists i, s. repeat split; try assumption.
      intros j later Hj Hl. apply (Hlast j later Hj).
      now rewrite Nat.sub_0_r.
    + cbn. now apply (lastLabel_None compiled k 0).
  - destruct (prepare_raises compiled depth st Hs) as [acc E].
    rewrite E in Hp. discriminate.
Qed.

End Prescan.

Lemma execute_raises_on_unscannable_witness :
  exists st',
    execute (H := quietHost) 0
            (DefaultCompilerSyntax.compile ["set input.a 1"; "label"])
            (VObj 0%nat) VUndef 0 emptyInput
    = Throw TypeError st'
    /\ container st' = container emptyInput
    /\ trace st' = (trace emptyInput ++ [EvExecute 0])%list
    /\ forall l o, heap emptyInput !! l = Some o -> heap st' !! l = Some o.
Proof.
  apply (execute_raises_on_unscannable (H := quietHost)
           (DefaultCompilerSyntax.compile ["set input.a 1"; "label"])
           (VObj 0%nat) VUndef 0 0 emptyInput).
  reflexivity.
Defined.

Lemma prescan_records_last_label_witness :
  exists labs,
    heap (mkState emptyContainer
            [mkObj "Object" [];
             freshContext 1; mkObj "Object" [("a", VNum 2)]]
            [EvExecute 0])
    !! S (List.length (heap emptyInput))
    = Some (mkObj "Object" labs)
    /\ Dict.get "__proto__" labs = None
    /\ forall k,
         k <> "__proto__" ->
         match Dict.get k labs with
         | Some v =>
             exists i step,
               v = VNum (Z.of_nat i)
               /\ DefaultCompilerSyntax.compile
                    ["label a"; "inc input.n"; "label a"] !! i
                  = Some step
               /\ isLabel step k = true
               /\ forall j later,
                    (i < j)%nat ->
                    DefaultCompilerSyntax.compile
                      ["label a"; "inc input.n"; "label a"] !! j
                    = Some later ->
                    isLabel later k = false
         | None =>
             forall j step,
               DefaultCompilerSyntax.compile
                 ["label a"; "inc input.n"; "label a"] !! j
               = Some step ->
               isLabel step k = false
         end.
Proof.
  apply (prescan_records_last_label
           (DefaultCompilerSyntax.compile
              ["label a"; "inc input.n"; "label a"])
           0 emptyInput _ (VObj 1%nat)).
  reflexivity.
Defined.


(** ** Pipelines without jumps end *)

(** Only the loop of [execute] can run out of fuel. *)

Lemma finishes_ret {A : Type} (a : A) : finishes (ret a).
Proof. intros st. discriminate. Qed.

Lemma finishes_throw {A : Type} (e : error) : finishes (throw (A := A) e).
Proof. intros st. discriminate. Qed.

Lemma finishes_unsupported {A : Type} : finishes (unsupported (A := A)).
Proof. intros st. discriminate. Qed.

Lemma finishes_lift {A : Type} (o : option A) : finishes (lift o).
Proof. destruct o; intros st; discriminate. Qed.

Lemma finishes_bind {A B : Type} (m : M A) (k : A -> M B) :
  finishes m -> (forall a, finishes (k a)) -> finishes (bind m k).
Proof.
  intros Hm Hk st. unfold bind. specialize (Hm st).
  destruct (m st) as [a st1|e st1| |]; try discriminate; [|congruence].
  apply Hk.
Qed.

Lemma finishes_container_step (f : Container -> Container) :
  finishes (update_container f).
Proof. intros st. discriminate. Qed.

Lemma finishes_this_container : finishes this_container.
Proof. intros st. discriminate. Qed.

Create HintDb finishes discriminated.

#[export] Hint Resolve finishes_ret finishes_throw finishes_unsupported
  finishes_lift finishes_container_step finishes_this_container : finishes.

(** Takes a goal [finishes m] apart along the shape of [m]. *)
Ltac finishes_step :=
  match goal with
  | |- finishes (bind _ _) => apply finishes_bind; [|intros ?]
  | |- finishes (if ?b then _ else _) => destruct b
  | |- finishes (match ?x with _ => _ end) => destruct x
  | |- finishes (let _ := _ in _) => cbv zeta
  | |- finishes _ => solve [eauto with finishes]
  end.

Ltac finishes_auto := repeat finishes_step.

Section Finishes.

Context `{Host}.

Lemma finishes_alloc (o : obj) : finishes (alloc o).
Proof. intros st. discriminate. Qed.

Lemma finishes_read (l : nat) : finishes (read l).
Proof. intros st. unfold read. destruct (heap st !! l); discriminate. Qed.

Lemma finishes_write (l : nat) (o : obj) : finishes (write l o).
Proof. intros st. discriminate. Qed.

Hint Resolve finishes_alloc finishes_read finishes_write : finishes.

Lemma finishes_getProp (v : Value) (k : string) : finishes (getProp v k).
Proof. unfold getProp. finishes_auto. Qed.

Lemma finishes_setProp (v : Value) (k : string) (x : Value) :
  finishes (setProp v k x).
Proof. unfold setProp. finishes_auto. Qed.

Lemma finishes_deleteProp (v : Value) (k : string) :
  finishes (deleteProp v k).
Proof. unfold deleteProp. finishes_auto. Qed.

Lemma finishes_callFunction (f : Value) (this : option nat)
  (args : list Value) :
  finishes (callFunction f this args).
Proof.
  unfold callFunction. destruct f; try apply finishes_throw.
  intros st. destruct (host_call _ _ _ _); discriminate.
Qed.

Lemma finishes_callMethod (m receiver : Value) (args : list Value) :
  finishes (callMethod m receiver args).
Proof. apply finishes_callFunction. Qed.

Lemma finishes_construct (Clazz : Value) (args : list Value) :
  finishes (construct Clazz args).
Proof.
  unfold construct. destruct Clazz; try apply finishes_throw.
  apply finishes_bind; [apply finishes_alloc|].
  intros [| | | | | |l| |]; finishes_auto.
  intros st. destruct (host_call _ _ _ _); discriminate.
Qed.

Hint Resolve finishes_getProp finishes_setProp finishes_deleteProp
  finishes_callFunction finishes_callMethod finishes_construct : finishes.

Lemma finishes_getBestKey (name : string) : finishes (getBestKey name).
Proof. unfold getBestKey, setBestKey. finishes_auto. Qed.

Lemma finishes_instantiate (item : FactoryItem) (settings : Value) :
  finishes (instantiate item settings).
Proof. unfold instantiate. finishes_auto. Qed.

Hint Resolve finishes_getBestKey finishes_instantiate : finishes.

Lemma finishes_get_in (c : Container) :
  forall (name : string) (settings : Value),
    finishes (get_in c name settings).
Proof.
  induction c as [c Hp|c p Hp IH] using Container_chain_ind;
    intros name settings st; destruct c as [cl fa pi co ca pa];
    simpl in Hp; subst pa; simpl.
  - destruct (Dict.get name fa) as [item|].
    + apply finishes_instantiate.
    + destruct (Js.inherited name); [discriminate|].
      match goal with |- ?m _ <> _ => assert (G : finishes m) end;
        [unfold itemAt; finishes_auto|apply G].
  - destruct (Dict.get name fa) as [item|].
    + apply finishes_instantiate.
    + destruct (Js.inherited name); [discriminate|].
      specialize (IH name settings st).
      destruct (get_in p name settings st); congruence.
Qed.

Lemma finishes_get (name : string) (settings : Value) :
  finishes (get name settings).
Proof. intros st. apply finishes_get_in. Qed.

Hint Resolve finishes_get : finishes.

Lemma finishes_walk (step : string) (n : nat) (rest : list string) :
  forall (i : nat) (v : Value), finishes (walk step n i rest v).
Proof.
  induction rest as [|k rest IH]; intros i v; simpl; [apply finishes_ret|].
  finishes_auto.
Qed.

Hint Resolve finishes_walk : finishes.

Lemma finishes_resolvePath (step : option string)
  (context input srcObject : Value) :
  finishes (resolvePath step context input srcObject).
Proof.
  unfold resolvePath, resolvePathWithType, resolveRoot, buildLiteral.
  finishes_auto.
Qed.

Lemma finishes_splitPath (path : option string) : finishes (splitPath path).
Proof. unfold splitPath. finishes_auto. Qed.

Hint Resolve finishes_resolvePath finishes_splitPath : finishes.

Lemma finishes_setValue (path valuePath : option string)
  (context input srcObject : Value) :
  finishes (setValue path valuePath context input srcObject).
Proof. unfold setValue. finishes_auto. Qed.

Lemma finishes_incValue (path valuePath : option string)
  (context input srcObject : Value) :
  finishes (incValue path valuePath context input srcObject).
Proof. unfold incValue. finishes_auto. Qed.

Lemma finishes_decValue (path valuePath : option string)
  (context input srcObject : Value) :
  finishes (decValue path valuePath context input srcObject).
Proof. unfold decValue. finishes_auto. Qed.

Lemma finishes_compareValue (op : Value -> Value -> option bool)
  (pathA pathB : option string) (context input srcObject : Value) :
  finishes (compareValue op pathA pathB context input srcObject).
Proof. unfold compareValue. finishes_auto. Qed.

Lemma finishes_deleteValue (path : option string)
  (context input srcObject : Value) :
  finishes (deleteValue path context input srcObject).
Proof. unfold deleteValue. finishes_auto. Qed.

Lemma finishes_doGoto (label : option string) (context : Value) :
  finishes (doGoto label context).
Proof. unfold doGoto. finishes_auto. Qed.

Lemma finishes_operand_of (step : list Token) (i : nat) :
  finishes (operand_of step i).
Proof. unfold operand_of. finishes_auto. Qed.

Hint Resolve finishes_setValue finishes_incValue finishes_decValue
  finishes_compareValue finishes_deleteValue finishes_doGoto
  finishes_operand_of : finishes.

(** An instruction that is context-safe runs no pipeline, so it cannot run
    out of fuel. *)
Lemma finishes_safe_action
  (run : PipelineSrc -> Value -> Value -> Z -> M Value)
  (labs : list (string * Value)) (step : list Token)
  (context input srcObject : Value) (depth : Z) :
  contextSafe labs step = true ->
  finishes (executeAction run (Some step) context input srcObject depth).
Proof.
  unfold contextSafe, executeAction.
  destruct (step !! 0%nat) as [[c|k|v|v]|] eqn:H0; try discriminate.
  - intros _.
    destruct (has_arrow (Some (Comment c))); simpl;
      [destruct (depth >? 0)|]; apply finishes_ret.
  - change (has_arrow (Some (Op k))) with false. cbv beta iota. simpl andb.
    cbv beta iota.
    destruct k; intros Hs; try discriminate;
      unfold eqValue, neqValue, gtValue, geValue, ltValue, leValue;
      finishes_auto.
Qed.

End Finishes.

Section Straight.

Context `{Host}.

Variable n : nat.
Variable labs : list (string * Value).
Variable compiled : list (list Token).
Variable input : Value.
Hypothesis input_below : allocatedBelow n input.
Hypothesis all_straight : forallb straight compiled = true.

Lemma straight_safe (l : list (string * Value)) (step : list Token) :
  straight step = true -> contextSafe l step = true.
Proof.
  unfold straight, contextSafe.
  destruct (step !! 0%nat) as [[c|k|v|v]|]; try discriminate; auto.
  destruct k; auto; destruct (step !! 1%nat); auto; discriminate.
Qed.

Lemma straight_jump (z : Z) (step : list Token) :
  match step !! 1%nat with
  | Some t => Dict.has (key_of (token_value t)) [] (V := Value)
  | None => true
  end = true ->
  triple (contextAt n labs z)
         (let* label := operand_of step 1 in
          (doGoto label (VObj n) ;;; ret input))
         (fun v st' => v = input /\ contextAt n labs z st').
Proof.
  intros Hs. unfold operand_of.
  destruct (step !! 1%nat) as [t|]; [discriminate|]. intros st _. exact I.
Qed.

Lemma straight_keeps (z : Z) (m : M unit) :
  triple (contextAt n labs z) m (fun _ st' => contextAt n labs z st') ->
  triple (contextAt n labs z) (m ;;; ret input)
         (fun v st' => v = input /\ contextAt n labs z st').
Proof.
  intros Hm. eapply triple_bind; [exact Hm|]. intros _ st Hc. now split.
Qed.

Lemma straight_executeAction
  (run : PipelineSrc -> Value -> Value -> Z -> M Value) (z : Z)
  (step : list Token) (srcObject : Value) (depth : Z) :
  straight step = true ->
  triple (contextAt n labs z)
         (executeAction run (Some step) (VObj n) input srcObject depth)
         (fun v st' => v = input /\ contextAt n labs z st').
Proof using input_below.
  unfold straight, contextSafe, executeAction.
  destruct (step !! 0%nat) as [[c|k|v|v]|] eqn:H0; try discriminate.
  - intros _.
    destruct (has_arrow (Some (Comment c))); simpl;
      [destruct (depth >? 0)|]; intros st Hc; now split.
  - change (has_arrow (Some (Op k))) with false. cbv beta iota. simpl andb.
    cbv beta iota.
    destruct k; intros Hs; try discriminate;
      try (apply andb_prop in Hs; destruct Hs as [Hs1 Hs2]).
    + unfold operand_of. unfold operand in Hs1 at 1.
      destruct (step !! 1%nat) as [t|]; [|intros st _; exact I].
      intros st Hc. rewrite (bind_Ret _ _ _ _ _ eq_refl).
      revert st Hc. apply straight_keeps.
      now apply (safe_setValue n labs input input_below).
    + unfold operand_of. unfold operand in Hs.
      destruct (step !! 1%nat) as [t|]; [|intros st _; exact I].
      intros st Hc. rewrite (bind_Ret _ _ _ _ _ eq_refl).
      revert st Hc. apply straight_keeps.
      now apply (safe_deleteValue n labs input input_below).
    + apply straight_keeps.
      now apply (safe_incValue n labs input input_below).
    + apply straight_keeps.
      now apply (safe_decValue n labs input input_below).
    + apply straight_keeps. now apply safe_compareValue.
    + apply straight_keeps. now apply safe_compareValue.
    + apply straight_keeps. now apply safe_compareValue.
    + apply straight_keeps. now apply safe_compareValue.
    + apply straight_keeps. now apply safe_compareValue.
    + apply straight_keeps. now apply safe_compareValue.
    + intros st Hc. now split.
    + now apply straight_jump.
    + eapply triple_bind; [apply safe_getProp|]. intros floating.
      destruct (negb (Js.truthy floating));
        [now apply straight_jump|intros st Hc; now split].
    + eapply triple_bind; [apply safe_getProp|]. intros floating.
      destruct (Js.truthy floating);
        [now apply straight_jump|intros st Hc; now split].
Qed.

Lemma straight_turn (run : PipelineSrc -> Value -> Value -> Z -> M Value)
  (srcObject : Value) (depth : Z) (z : Z) (st : state) :
  contextAt n labs z st ->
  0 <= z <= Z.of_nat (List.length compiled) ->
  (z < Z.of_nat (List.length compiled) ->
   match turn run compiled (VObj n) input srcObject depth st with
   | Ret r st' => r = Some input /\ contextAt n labs (z + 1) st'
   | Throw _ _ | Unsupported => True
   | OutOfFuel => False
   end)
  /\ (z = Z.of_nat (List.length compiled) ->
      turn run compiled (VObj n) input srcObject depth st = Ret None st).
Proof using input_below all_straight.
  intros Hc Hz. unfold turn.
  rewrite (bind_Ret _ _ _ _ _ (contextAt_read n labs z st Hc)).
  change (cursorBelow compiled (VNum z))
    with (Some (if z <? Z.of_nat (List.length compiled)
                then true else false)).
  unfold lift at 1. rewrite (bind_Ret _ _ _ _ _ eq_refl).
  split; intros Hlt.
  - apply Z.ltb_lt in Hlt. rewrite Hlt. apply Z.ltb_lt in Hlt.
    unfold stepAt.
    destruct (0 <=? z) eqn:H0; [|apply Z.leb_gt in H0; lia].
    destruct (lookup_lt_is_Some_2 compiled (Z.to_nat z)) as [step Hstep];
      [lia|].
    rewrite Hstep.
    assert (Hs : straight step = true).
    { rewrite forallb_forall in all_straight. apply all_straight.
      apply list_elem_of_In. eapply list_elem_of_lookup_2. exact Hstep. }
    pose proof (straight_executeAction run z step srcObject depth Hs st Hc)
      as HE.
    pose proof (finishes_safe_action run labs step (VObj n) input srcObject
                  depth (straight_safe labs step Hs) st) as HF.
    unfold bind at 1.
    destruct (executeAction run (Some step) (VObj n) input srcObject depth
                            st) as [v st1|e st1| |]; try exact I;
      [|congruence].
    destruct HE as [-> Hc'].
    rewrite (bind_Ret _ _ _ _ _ (contextAt_read n labs z st1 Hc')).
    change (Js.add (VNum z) (VNum 1)) with (Js.number (z + 1)).
    unfold Js.number, lift.
    destruct (Js.in_range (z + 1)); [|exact I].
    rewrite (bind_Ret _ _ _ _ _ eq_refl).
    destruct (contextAt_cursor n labs z (z + 1) st1 Hc') as [E Hc''].
    rewrite (bind_Ret _ _ _ _ _ E). now split.
  - subst z. now rewrite Z.ltb_irrefl.
Qed.

Lemma straight_loop (srcObject : Value) (depth : Z) :
  forall (fuel : nat) (z : Z) (st : state),
    contextAt n labs z st ->
    0 <= z <= Z.of_nat (List.length compiled) ->
    Z.of_nat (List.length compiled) - z < Z.of_nat fuel ->
    match loop fuel compiled (VObj n) input srcObject depth st with
    | Ret v _ => v = input
    | Throw _ _ | Unsupported => True
    | OutOfFuel => False
    end.
Proof using input_below all_straight.
  induction fuel as [|fuel IH]; intros z st Hc Hz Hf; [lia|].
  cbn [loop].
  destruct (straight_turn (runPipelineWith (executeWith (loop fuel)))
              srcObject depth z st Hc Hz) as [Hgo Hstop].
  destruct (Z.eq_dec z (Z.of_nat (List.length compiled))) as [E|N].
  - now rewrite (bind_Ret _ _ _ _ _ (Hstop E)).
  - assert (Hlt : z < Z.of_nat (List.length compiled)) by lia.
    specialize (Hgo Hlt). unfold bind.
    destruct (turn _ compiled (VObj n) input srcObject depth st)
      as [r st1|e st1| |]; try exact I; [|exact Hgo].
    destruct Hgo as [-> Hc1]. apply (IH (z + 1) st1 Hc1); lia.
Qed.

End Straight.



(** ** Lines that begin with an arrow *)

Lemma split_not_nil (sep : ascii) (s : string) : JsString.split sep s <> [].
Proof.
  induction s as [|c r IH]; simpl; [discriminate|].
  destruct (Ascii.eqb c sep); [discriminate|].
  destruct (JsString.split sep r); discriminate.
Qed.

Lemma split_cons (sep c : ascii) (r : string) :
  Ascii.eqb c sep = false ->
  JsString.split sep (String c r)
  = String c (hd EmptyString (JsString.split sep r))
    :: tl (JsString.split sep r).
Proof.
  intros E. simpl. rewrite E.
  pose proof (split_not_nil sep r) as N.
  destruct (JsString.split sep r); [congruence|reflexivity].
Qed.

Lemma tokens_grow (ws : list string) :
  forall s,
    exists more,
      DefaultCompilerSyntax.tokens
        (fold_left DefaultCompilerSyntax.compileWord ws s)
      = (DefaultCompilerSyntax.tokens s ++ more)%list.
Proof.
  induction ws as [|w ws IH]; intros s; simpl.
  - exists []. now rewrite app_nil_r.
  - destruct (IH (DefaultCompilerSyntax.compileWord s w)) as [more ->].
    unfold DefaultCompilerSyntax.compileWord.
    destruct (DefaultCompilerSyntax.currentQuote s);
      repeat match goal with
             | |- context [if ?b then _ else _] => destruct b
             end;
      simpl; try (eexists; reflexivity);
      rewrite <- app_assoc; eexists; reflexivity.
Qed.

(** The first token of a line that begins with an arrow. *)
Lemma arrow_line_head (line : string) :
  JsString.startsWith (JsString.trim line) "->" = true ->
  exists w rest,
    lineWords line = (String "-" (String ">" w)) :: rest
    /\ exists more,
         DefaultCompilerSyntax.compileLine line
         = Reference (String "-" (String ">" w)) :: more.
Proof.
  intros Hs. unfold DefaultCompilerSyntax.compileLine. fold (lineWords line).
  unfold lineWords.
  destruct (JsString.trim line) as [|c0 [|c1 r]]; try discriminate.
  { rewrite CompilerFacts.startsWith_cons in Hs.
    destruct (Ascii.eqb "-" c0); discriminate. }
  rewrite !CompilerFacts.startsWith_cons in Hs.
  destruct (Ascii.eqb_spec "-"%char c0) as [<-|]; [|discriminate].
  destruct (Ascii.eqb_spec ">"%char c1) as [<-|]; [|discriminate].
  rewrite (split_cons " " "-") by reflexivity.
  rewrite (split_cons " " ">") by reflexivity.
  cbn [hd tl].
  exists (hd EmptyString (JsString.split " " r)),
         (tl (JsString.split " " r)).
  split; [reflexivity|].
  cbn [fold_left].
  destruct (tokens_grow (tl (JsString.split " " r))
              (DefaultCompilerSyntax.compileWord
                 (DefaultCompilerSyntax.mkLineState [] EmptyString None)
                 (String "-"
                    (String ">" (hd EmptyString (JsString.split " " r))))))
    as [more ->].
  exists more. reflexivity.
Qed.

Section Arrows.

Context `{Host}.


End Arrows.


(** ** Strings: splitting and trimming *)

Module StringFacts.

Lemma split_lacks (sep : ascii) (s : string) :
  lacks sep s = true -> JsString.split sep s = [s].
Proof.
  induction s as [|c r IH]; intros Hl; [reflexivity|].
  cbn [lacks] in Hl. apply andb_prop in Hl. destruct Hl as [Hc Hr].
  apply negb_true_iff in Hc. rewrite split_cons by exact Hc.
  now rewrite (IH Hr).
Qed.

Lemma split_append (sep : ascii) (a b : string) :
  lacks sep a = true ->
  JsString.split sep (a ++ String sep b) = a :: JsString.split sep b.
Proof.
  induction a as [|c r IH]; intros Hl.
  - simpl. now rewrite Ascii.eqb_refl.
  - cbn [lacks] in Hl. apply andb_prop in Hl. destruct Hl as [Hc Hr].
    apply negb_true_iff in Hc. cbn [append].
    rewrite split_cons by exact Hc. now rewrite (IH Hr).
Qed.

Lemma dropSpaces_head (c : ascii) (r : list ascii) :
  JsString.is_space c = false -> JsString.dropSpaces (c :: r) = c :: r.
Proof. intros E. simpl. now rewrite E. Qed.

Lemma trim_trimmed (s : string) : trimmed s = true -> JsString.trim s = s.
Proof.
  unfold trimmed, JsString.trim. intros Ht.
  destruct (list_ascii_of_string s) as [|c r] eqn:E.
  - rewrite <- (string_of_list_ascii_of_string s), E. reflexivity.
  - destruct (rev (c :: r)) as [|d t] eqn:Er.
    + apply (f_equal (@List.length ascii)) in Er.
      rewrite length_rev in Er. discriminate.
    + apply andb_prop in Ht. destruct Ht as [H1 H2].
      apply negb_true_iff in H1, H2.
      rewrite (dropSpaces_head c r H1), Er.
      rewrite (dropSpaces_head _ t H2), <- Er, rev_involutive, <- E.
      apply string_of_list_ascii_of_string.
Qed.

Lemma digit_not_space (c : ascii) :
  JsString.is_digit c = true -> JsString.is_space c = false.
Proof.
  unfold JsString.is_digit, JsString.is_space. intros Hd.
  apply andb_prop in Hd. destruct Hd as [H1 H2].
  apply Nat.leb_le in H1, H2. cbn [existsb].
  repeat (rewrite (proj2 (Nat.eqb_neq _ _)) by lia). reflexivity.
Qed.

Lemma digit_not_dot (c : ascii) :
  JsString.is_digit c = true -> Ascii.eqb c "." = false.
Proof.
  intros Hd. destruct (Ascii.eqb_spec c ".") as [->|]; [|reflexivity].
  discriminate.
Qed.

Lemma digits_lack_dot (d : string) :
  JsString.all_digits d = true -> lacks "." d = true.
Proof.
  induction d as [|c r IH]; intros Hd; [reflexivity|].
  cbn [JsString.all_digits lacks] in *.
  apply andb_prop in Hd. destruct Hd as [Hc Hr].
  now rewrite (digit_not_dot c Hc), (IH Hr).
Qed.

Lemma all_digits_forallb (d : string) :
  JsString.all_digits d = forallb JsString.is_digit (list_ascii_of_string d).
Proof. induction d as [|c r IH]; simpl; [reflexivity|now rewrite IH]. Qed.

Lemma digits_trimmed (d : string) :
  JsString.all_digits d = true -> trimmed d = true.
Proof.
  unfold trimmed. rewrite all_digits_forallb. intros Hd.
  rewrite forallb_forall in Hd.
  destruct (list_ascii_of_string d) as [|c r] eqn:E; [reflexivity|].
  destruct (rev (c :: r)) as [|e t] eqn:Er; [reflexivity|].
  rewrite (digit_not_space c) by (apply Hd; now left).
  rewrite (digit_not_space e); [reflexivity|].
  apply Hd. apply in_rev. rewrite Er. now left.
Qed.

(** The head token of a path whose first token is [t], already trimmed
    and not empty. *)
Lemma headToken_first (t rest : string) :
  lacks "." t = true ->
  trimmed t = true ->
  t <> EmptyString ->
  headToken t = t /\ headToken (t ++ String "." rest) = t.
Proof.
  intros Hl Ht Hn. unfold headToken.
  rewrite (split_append "." t rest Hl), (split_lacks "." t Hl). cbn [hd].
  rewrite (trim_trimmed t Ht).
  apply String.eqb_neq in Hn. now rewrite Hn.
Qed.

End StringFacts.

(** ** Literals *)

Section Literals.

Context `{Host}.

(** A path whose first token is made of digits is a number literal, and
    its value is the number those digits spell: what follows the first dot
    is not read, so that [3.14] is 3. *)
Theorem number_literal_stops_at_dot (digits rest : string)
  (context input srcObject : Value) (st : state) :
  JsString.isnum digits = true ->
  Js.in_range (JsString.digits_value 0 digits) = true ->
  resolvePath (Some digits) context input srcObject st
  = Ret (VNum (JsString.digits_value 0 digits)) st
  /\ resolvePath (Some (digits ++ String "." rest)) context input srcObject st
     = Ret (VNum (JsString.digits_value 0 digits)) st.
Proof.
  intros Hn Hr. pose proof Hn as Hd. unfold JsString.isnum in Hd.
  apply andb_prop in Hd. destruct Hd as [Hne Hd].
  apply negb_true_iff, String.eqb_neq in Hne.
  destruct (StringFacts.headToken_first digits rest
              (StringFacts.digits_lack_dot digits Hd)
              (StringFacts.digits_trimmed digits Hd) Hne) as [H1 H2].
  unfold resolvePath, resolvePathWithType.
  rewrite H1, H2, Hn. unfold Js.number. rewrite Hr. split; reflexivity.
Qed.

End Literals.

Lemma number_literal_stops_at_dot_witness :
  resolvePath (H := quietHost) (Some "3") VUndef VUndef VUndef emptyInput
  = Ret (VNum (JsString.digits_value 0 "3")) emptyInput
  /\ resolvePath (H := quietHost) (Some ("3" ++ String "." "14")) VUndef
                 VUndef VUndef emptyInput
     = Ret (VNum (JsString.digits_value 0 "3")) emptyInput.
Proof.
  apply (number_literal_stops_at_dot (H := quietHost) "3" "14" VUndef VUndef
           VUndef emptyInput);
    reflexivity.
Defined.

Module LiteralFacts.

Lemma list_of_append (a b : string) :
  list_ascii_of_string (a ++ b)
  = (list_ascii_of_string a ++ list_ascii_of_string b)%list.
Proof. induction a as [|c r IH]; simpl; [reflexivity|now rewrite IH]. Qed.

Lemma lacks_append (c : ascii) (a b : string) :
  lacks c (a ++ b) = lacks c a && lacks c b.
Proof.
  induction a as [|d r IH]; simpl; [reflexivity|].
  now rewrite IH, andb_assoc.
Qed.

Lemma lacks_forallb (c : ascii) (s : string) :
  lacks c s
  = forallb (fun d => negb (Ascii.eqb d c)) (list_ascii_of_string s).
Proof. induction s as [|d r IH]; simpl; [reflexivity|now rewrite IH]. Qed.

Lemma oneLine_forallb (s : string) :
  oneLine s
  = forallb (fun x => negb (JsString.is_line_terminator x))
            (list_ascii_of_string s).
Proof. induction s as [|d r IH]; simpl; [reflexivity|now rewrite IH]. Qed.

Lemma forallb_rev {A : Type} (f : A -> bool) (l : list A) :
  forallb f (rev l) = forallb f l.
Proof.
  induction l as [|x l IH]; [reflexivity|].
  simpl. rewrite forallb_app, IH. simpl. rewrite andb_true_r.
  apply andb_comm.
Qed.

(** The two quote marks, as characters. *)
Lemma mark_cases (q : ascii) :
  quoteMark (mark q) = true -> q = "034"%char \/ q = "'"%char.
Proof.
  unfold quoteMark, mark, JsString.dquote. intros Hq.
  apply orb_prop in Hq. destruct Hq as [E|E]; apply String.eqb_eq in E;
    injection E as ->; auto.
Qed.

Lemma stripQuotes_closed (q : ascii) (body : string) :
  body <> EmptyString ->
  oneLine body = true ->
  JsString.stripQuotes q (String q (body ++ mark q)) = body.
Proof.
  intros Hn Ho. unfold JsString.stripQuotes.
  cbn [list_ascii_of_string]. rewrite list_of_append.
  cbn [mark list_ascii_of_string].
  rewrite rev_app_distr. cbn [rev app].
  rewrite Ascii.eqb_refl. cbn [andb].
  rewrite length_rev, forallb_rev, <- oneLine_forallb, Ho.
  destruct body as [|c r]; [congruence|].
  cbn [list_ascii_of_string length Nat.eqb negb andb].
  rewrite rev_involutive.
  apply (string_of_list_ascii_of_string (String c r)).
Qed.

Lemma stripQuotes_open (q : ascii) (a : string) :
  lacks q a = true ->
  JsString.stripQuotes q (String q a) = String q a.
Proof.
  intros Hl. unfold JsString.stripQuotes. cbn [list_ascii_of_string].
  destruct (rev (list_ascii_of_string a)) as [|d mid] eqn:E; [reflexivity|].
  rewrite lacks_forallb, <- forallb_rev, E in Hl. cbn [forallb] in Hl.
  apply andb_prop in Hl. destruct Hl as [Hd _].
  apply negb_true_iff in Hd. rewrite Ascii.eqb_refl. cbn [andb].
  now rewrite Hd.
Qed.

Lemma closed_trimmed (q : ascii) (body : string) :
  JsString.is_space q = false -> trimmed (String q (body ++ mark q)) = true.
Proof.
  intros Hq. unfold trimmed. cbn [list_ascii_of_string].
  rewrite list_of_append. cbn [mark list_ascii_of_string].
  change (rev (q :: (list_ascii_of_string body ++ [q])%list))
    with (rev (list_ascii_of_string body ++ [q]) ++ [q])%list.
  rewrite rev_app_distr. cbn [rev app]. now rewrite Hq.
Qed.

End LiteralFacts.

Section Quoted.

Context `{Host}.

(** A path in quote marks, with no dot between them, is a string literal
    whose value is the text between the marks.  The text must be there:
    two marks with nothing between them are a literal whose value is the
    two marks.  And a dot cuts the literal short: the value is then what
    stands before the first dot, opening mark included. *)
Theorem string_literal_value (q : ascii) (body rest : string)
  (context input srcObject : Value) (st : state) :
  quoteMark (mark q) = true ->
  (body <> EmptyString ->
   lacks "." body = true ->
   oneLine body = true ->
   resolvePath (Some (String q (body ++ mark q))) context input srcObject st
   = Ret (VStr body) st)
  /\ resolvePath (Some (String q (mark q))) context input srcObject st
     = Ret (VStr (String q (mark q))) st
  /\ (lacks "." body = true ->
      lacks q body = true ->
      trimmed (String q body) = true ->
      resolvePath (Some (String q body ++ String "." rest)) context input
                  srcObject st
      = Ret (VStr (String q body)) st).
Proof.
  intros Hq.
  assert (Hs : JsString.is_space q = false
               /\ JsString.is_digit q = false
               /\ Ascii.eqb q "." = false)
    by (destruct (LiteralFacts.mark_cases q Hq) as [->| ->]; now repeat split).
  destruct Hs as [Hsp [Hdg Hdot]].
  assert (Lit : forall tok tail,
             headToken (String q tok) = String q tok ->
             JsString.stripQuotes q (String q tok) = tail ->
             forall step,
               headToken step = String q tok ->
               resolvePath (Some step) context input srcObject st
               = Ret (VStr tail) st).
  { intros tok tail _ Hstrip step Hh.
    unfold resolvePath, resolvePathWithType. rewrite Hh.
    assert (Hn : JsString.isnum (String q tok) = false)
      by (unfold JsString.isnum; cbn [JsString.all_digits];
          now rewrite Hdg, andb_false_r).
    rewrite Hn.
    destruct (LiteralFacts.mark_cases q Hq) as [->| ->].
    - unfold JsString.dquote.
      rewrite CompilerFacts.startsWith_cons, CompilerFacts.startsWith_nil.
      cbn [Ascii.eqb Bool.eqb]. cbv beta iota.
      unfold bind, ret, buildLiteral. simpl value. now rewrite Hstrip.
    - unfold JsString.dquote.
      rewrite !CompilerFacts.startsWith_cons, CompilerFacts.startsWith_nil.
      cbn [Ascii.eqb Bool.eqb]. cbv beta iota.
      unfold bind, ret, buildLiteral. simpl value. now rewrite Hstrip. }
  assert (Closed : forall b,
             lacks "." b = true ->
             headToken (String q (b ++ mark q)) = String q (b ++ mark q)).
  { intros b Hb.
    apply (proj1 (StringFacts.headToken_first (String q (b ++ mark q))
                    EmptyString
                    ltac:(cbn [lacks]; rewrite Hdot, LiteralFacts.lacks_append,
                            Hb; cbn [mark lacks]; now rewrite Hdot)
                    (LiteralFacts.closed_trimmed q b Hsp)
                    ltac:(discriminate))). }
  split; [|split].
  - intros Hn Hl Ho.
    apply (Lit (body ++ mark q) body (Closed body Hl)
               (LiteralFacts.stripQuotes_closed q body Hn Ho)).
    apply (Closed body Hl).
  - apply (Lit (mark q) (String q (mark q)) (Closed EmptyString eq_refl)).
    + unfold JsString.stripQuotes, mark. cbn. rewrite Ascii.eqb_refl.
      reflexivity.
    + apply (Closed EmptyString eq_refl).
  - intros Hl Hlq Ht.
    assert (Hd : lacks "." (String q body) = true)
      by (cbn [lacks]; now rewrite Hdot, Hl).
    destruct (StringFacts.headToken_first (String q body) rest Hd Ht
                ltac:(discriminate)) as [H1 H2].
    apply (Lit body (String q body) H1
               (LiteralFacts.stripQuotes_open q body Hlq)).
    exact H2.
Qed.

End Quoted.

Lemma string_literal_value_witness :
  resolvePath (H := quietHost) (Some (String "'" ("a b" ++ mark "'")))
              VUndef VUndef VUndef emptyInput
  = Ret (VStr "a b") emptyInput
  /\ resolvePath (H := quietHost) (Some (String "'" (mark "'")))
                 VUndef VUndef VUndef emptyInput
     = Ret (VStr (String "'" (mark "'"))) emptyInput
  /\ resolvePath (H := quietHost)
                 (Some (String "'" "a b" ++ String "." "c'"))
                 VUndef VUndef VUndef emptyInput
     = Ret (VStr (String "'" "a b")) emptyInput.
Proof.
  destruct (string_literal_value (H := quietHost) "'" "a b" "c'" VUndef
              VUndef VUndef emptyInput eq_refl) as [A [B C]].
  split; [|split].
  - apply A; [discriminate|reflexivity|reflexivity].
  - exact B.
  - apply C; reflexivity.
Defined.

(** ** Lines that are a path *)

Section References.

Context `{Host}.


End References.


(** ** Members of the input: set, get, inc, dec, delete *)

Section Members.

Context `{Host}.

Variable l : nat.
Variable o : obj.
Variable st : state.
Hypothesis input_there : heap st !! l = Some o.

Variable context srcObject : Value.

Lemma operand_value (p : option string) (v : Value) (st' : state) :
  pureOperand p = true ->
  resolvePath p context (VObj l) srcObject st = Ret v st' ->
  resolvePath p context (VObj l) srcObject st = Ret v st.
Proof.
  intros Hp E. pose proof (resolvePath_pure p context (VObj l) srcObject st Hp)
    as Hs.
  rewrite E in Hs. now subst.
Qed.

Lemma member_not_blank (p : string) :
  inputMember (JsString.split "." p) = true -> String.eqb p EmptyString = false.
Proof. destruct p; [discriminate|reflexivity]. Qed.

(** The state after the member [k] of the input is given the value [x]. *)
Lemma member_written (k : string) (x : Value) :
  let st1 := with_heap st (<[l := assigned o k x]> (heap st)) in
  heap st1 !! l = Some (assigned o k x)
  /\ Dict.get k (props (assigned o k x)) = Some x
  /\ forall l', l' <> l -> heap st1 !! l' = heap st !! l'.
Proof using input_there.
  pose proof (lookup_lt_Some _ _ _ input_there) as Hlt.
  split; [|split].
  - simpl. now apply list_lookup_insert_eq.
  - unfold assigned. simpl. now rewrite Dict_get_put_eq.
  - intros l' N. simpl. apply list_lookup_insert_ne. congruence.
Qed.

Lemma not_proto {A : Type} (k : string) (d : list (string * A)) :
  k <> "__proto__" -> Dict.setsPrototype k d = false.
Proof.
  intros N. unfold Dict.setsPrototype.
  apply String.eqb_neq in N. now rewrite N.
Qed.

Lemma member_is_own (k : string) (a : Z) (x : obj) :
  member x k = VNum a -> Dict.get k (props x) = Some (VNum a).
Proof.
  unfold member. destruct (Dict.get k (props x)) as [y|]; [now intros ->|].
  destruct (class_method (cls x) k); discriminate.
Qed.

(** [setValue] on a direct member of the input, with an operand that is
    a literal or a path from one of the four roots: [getValue] on the same
    path gives the value of the operand back, and no other object has
    changed.  The member is not called [__proto__]: an assignment under
    that name goes to the setter of [Object.prototype]. *)
Theorem setValue_then_getValue (p : string) (valuePath : option string)
  (v : Value) (st0 : state) :
  inputMember (JsString.split "." p) = true ->
  lastToken (JsString.split "." p) <> "__proto__" ->
  pureOperand valuePath = true ->
  resolvePath valuePath context (VObj l) srcObject st = Ret v st0 ->
  exists st1,
    setValue (Some p) valuePath context (VObj l) srcObject st = Ret tt st1
    /\ getValue (Some p) context (VObj l) srcObject st1 = Ret v st1
    /\ forall l', l' <> l -> heap st1 !! l' = heap st !! l'.
Proof using input_there.
  intros Hm Hk Hp Hv. apply (operand_value _ _ _ Hp) in Hv.
  set (k := lastToken (JsString.split "." p)) in *.
  destruct (member_written k v) as [H1 [H2 H3]].
  eexists. split; [|split; [|exact H3]].
  - unfold setValue. rewrite (bind_Ret _ _ _ _ _ Hv).
    unfold splitPath. rewrite (bind_Ret _ _ _ _ _ eq_refl).
    rewrite (bind_Ret _ _ _ _ _ (resolvePath_input _ _ _ _ st Hm)).
    apply (setProp_obj st l o _ _ input_there (not_proto _ _ Hk)).
  - unfold getValue. rewrite (member_not_blank p Hm).
    rewrite (bind_Ret _ _ _ _ _ (resolvePath_input _ _ _ _ _ Hm)).
    apply (getProp_own _ l _ _ _ H1 H2).
Qed.

(** [incValue] on a direct member of the input stores what [+] gives for
    the member and the operand; a member that was never set reads as
    [undefined], so that a number added to it leaves NaN.  The member is
    one that can be read, and is not called [__proto__]. *)
Theorem incValue_adds (p : string) (valuePath : option string)
  (old v r : Value) (st0 : state) :
  let k := lastToken (incTokens p) in
  inputMember (incTokens p) = true ->
  k <> "__proto__" ->
  pureOperand valuePath = true ->
  resolvePath valuePath context (VObj l) srcObject st = Ret v st0 ->
  peek st (VObj l) k = Some old ->
  Js.add old v = Some r ->
  exists st1,
    incValue (Some p) valuePath context (VObj l) srcObject st = Ret tt st1
    /\ peek st1 (VObj l) k = Some r
    /\ (forall l', l' <> l -> heap st1 !! l' = heap st !! l')
    /\ (old = VUndef -> forall b, v = VNum b -> r = VNaN).
Proof using input_there.
  intros k Hm Hk Hp Hv Hold Hadd. apply (operand_value _ _ _ Hp) in Hv.
  destruct (member_written k r) as [H1 [H2 H3]].
  eexists. split; [|split; [|split; [exact H3|]]].
  - unfold incValue. rewrite (bind_Ret _ _ _ _ _ Hv).
    unfold splitPath. rewrite (bind_Ret _ _ _ _ _ eq_refl).
    fold (incTokens p).
    rewrite (bind_Ret _ _ _ _ _ (resolvePath_input _ _ _ _ st Hm)).
    rewrite (bind_Ret _ _ _ _ _ (peek_Some _ _ _ _ Hold)).
    rewrite Hadd. unfold lift.
    rewrite (bind_Ret _ _ _ _ _ eq_refl).
    apply (setProp_obj st l o _ _ input_there (not_proto _ _ Hk)).
  - unfold peek. now rewrite (getProp_own _ l _ _ _ H1 H2).
  - intros -> b ->. now injection Hadd as <-.
Qed.

(** [incValue] and then [decValue] by the same number, on a direct member
    of the input that holds a number: the member holds that number again
    (the sum being a number the embedding has). *)
Theorem incValue_then_decValue (p : string) (valuePath : option string)
  (a b : Z) (st0 : state) :
  let k := lastToken (JsString.split "." p) in
  inputMember (JsString.split "." p) = true ->
  JsString.startsWith p "." = false ->
  pureOperand valuePath = true ->
  (forall s, resolvePath valuePath context (VObj l) srcObject s
             = Ret (VNum b) s) ->
  member o k = VNum a ->
  Js.in_range a = true ->
  Js.in_range (a + b) = true ->
  exists st1 st2,
    incValue (Some p) valuePath context (VObj l) srcObject st = Ret tt st1
    /\ peek st1 (VObj l) k = Some (VNum (a + b))
    /\ decValue (Some p) valuePath context (VObj l) srcObject st1
       = Ret tt st2
    /\ peek st2 (VObj l) k = Some (VNum a).
Proof using input_there.
  intros k Hm Hdot Hp Hv Ha Hra Hrab.
  apply member_is_own in Ha.
  assert (Hown : Dict.setsPrototype k (props o) = false)
    by (apply setsPrototype_own; unfold Dict.has; now rewrite Ha).
  pose proof (lookup_lt_Some _ _ _ input_there) as Hlt.
  assert (Hinc : incTokens p = JsString.split "." p)
    by (unfold incTokens; now rewrite Hdot).
  set (o1 := assigned o k (VNum (a + b))).
  set (st1 := with_heap st (<[l := o1]> (heap st))).
  assert (H1 : heap st1 !! l = Some o1)
    by (simpl; now apply list_lookup_insert_eq).
  assert (M1 : Dict.get k (props o1) = Some (VNum (a + b)))
    by (unfold o1, assigned; simpl; now rewrite Dict_get_put_eq).
  assert (Hown1 : Dict.setsPrototype k (props o1) = false)
    by (apply setsPrototype_own; unfold Dict.has; now rewrite M1).
  set (o2 := assigned o1 k (VNum a)).
  set (st2 := with_heap st1 (<[l := o2]> (heap st1))).
  exists st1, st2. split; [|split; [|split]].
  - unfold incValue. rewrite (bind_Ret _ _ _ _ _ (Hv st)).
    unfold splitPath. rewrite (bind_Ret _ _ _ _ _ eq_refl).
    fold (incTokens p). rewrite Hinc.
    rewrite (bind_Ret _ _ _ _ _ (resolvePath_input _ _ _ _ st Hm)).
    rewrite (bind_Ret _ _ _ _ _ (getProp_own st l o _ _ input_there Ha)).
    change (Js.add (VNum a) (VNum b)) with (Js.number (a + b)).
    unfold Js.number. rewrite Hrab. unfold lift.
    rewrite (bind_Ret _ _ _ _ _ eq_refl).
    apply (setProp_obj st l o _ _ input_there Hown).
  - unfold peek. now rewrite (getProp_own _ l _ _ _ H1 M1).
  - unfold decValue. rewrite (bind_Ret _ _ _ _ _ (Hv st1)).
    unfold splitPath. rewrite (bind_Ret _ _ _ _ _ eq_refl).
    rewrite (bind_Ret _ _ _ _ _ (resolvePath_input _ _ _ _ st1 Hm)).
    rewrite (bind_Ret _ _ _ _ _ (getProp_own st1 l o1 _ _ H1 M1)).
    change (Js.sub (VNum (a + b)) (VNum b)) with (Js.number (a + b - b)).
    replace (a + b - b) with a by lia.
    unfold Js.number. rewrite Hra. unfold lift.
    rewrite (bind_Ret _ _ _ _ _ eq_refl).
    apply (setProp_obj st1 l o1 _ _ H1 Hown1).
  - assert (H2 : heap st2 !! l = Some o2).
    { simpl. apply list_lookup_insert_eq. now rewrite length_insert. }
    unfold peek.
    assert (M2 : Dict.get k (props o2) = Some (VNum a))
      by (unfold o2, assigned; simpl; now rewrite Dict_get_put_eq).
    now rewrite (getProp_own _ l _ _ _ H2 M2).
Qed.

(** [deleteValue] on a direct member of the input: the member is gone, and
    [getValue] on the same path gives [undefined] unless the class of the
    input has a method of that name, or [Object.prototype] a member. *)
Theorem deleteValue_then_getValue (p : string) :
  let k := lastToken (JsString.split "." p) in
  inputMember (JsString.split "." p) = true ->
  class_method (cls o) k = None ->
  Js.inherited k = false ->
  exists st1,
    deleteValue (Some p) context (VObj l) srcObject st = Ret tt st1
    /\ getValue (Some p) context (VObj l) srcObject st1 = Ret VUndef st1
    /\ heap st1 !! l = Some (mkObj (cls o) (Dict.remove k (props o)))
    /\ forall l', l' <> l -> heap st1 !! l' = heap st !! l'.
Proof using input_there.
  intros k Hm Hc Hi.
  pose proof (lookup_lt_Some _ _ _ input_there) as Hlt.
  set (o1 := mkObj (cls o) (Dict.remove k (props o))).
  set (st1 := with_heap st (<[l := o1]> (heap st))).
  assert (H1 : heap st1 !! l = Some o1)
    by (simpl; now apply list_lookup_insert_eq).
  exists st1. split; [|split; [|split; [exact H1|]]].
  - unfold deleteValue, splitPath. rewrite (bind_Ret _ _ _ _ _ eq_refl).
    rewrite (bind_Ret _ _ _ _ _ (resolvePath_input _ _ _ _ st Hm)).
    apply (deleteProp_obj st l o _ input_there).
  - unfold getValue. rewrite (member_not_blank p Hm).
    rewrite (bind_Ret _ _ _ _ _ (resolvePath_input _ _ _ _ _ Hm)).
    rewrite (getProp_obj _ l _ _ H1 Hi). fold k.
    unfold member, o1. simpl. now rewrite Dict_get_remove_eq, Hc.
  - intros l' N. simpl. apply list_lookup_insert_ne. congruence.
Qed.

End Members.

Section Floating.

Context `{Host}.

(** A comparison leaves its outcome in the member [floating] of the
    context, and [getValue] without a path, or with the empty path, reads
    it from there: [get] alone gives the outcome of the last comparison.
    This holds for the six comparisons, which differ by [op] only. *)
Theorem compareValue_then_getValue (op : Value -> Value -> option bool)
  (pathA pathB : option string) (n : nat) (C : obj)
  (input srcObject valueA valueB : Value) (r : bool) (st sa sb : state) :
  heap st !! n = Some C ->
  pureOperand pathA = true ->
  pureOperand pathB = true ->
  resolvePath pathA (VObj n) input srcObject st = Ret valueA sa ->
  resolvePath pathB (VObj n) input srcObject st = Ret valueB sb ->
  op valueA valueB = Some r ->
  exists st1,
    compareValue op pathA pathB (VObj n) input srcObject st = Ret tt st1
    /\ getValue None (VObj n) input srcObject st1 = Ret (VBool r) st1
    /\ getValue (Some EmptyString) (VObj n) input srcObject st1
       = Ret (VBool r) st1
    /\ forall l', l' <> n -> heap st1 !! l' = heap st !! l'.
Proof.
  intros HC Ha Hb Hva Hvb Hop.
  pose proof (resolvePath_pure pathA (VObj n) input srcObject st Ha) as Pa.
  rewrite Hva in Pa. subst sa.
  pose proof (resolvePath_pure pathB (VObj n) input srcObject st Hb) as Pb.
  rewrite Hvb in Pb. subst sb.
  pose proof (lookup_lt_Some _ _ _ HC) as Hlt.
  set (C1 := assigned C "floating" (VBool r)).
  set (st1 := with_heap st (<[n := C1]> (heap st))).
  assert (H1 : heap st1 !! n = Some C1)
    by (simpl; now apply list_lookup_insert_eq).
  assert (G : getValue None (VObj n) input srcObject st1
              = Ret (VBool r) st1).
  { unfold getValue. cbv [resolvePath resolvePathWithType bind ret]. simpl.
    apply (getProp_own _ n _ _ _ H1).
    unfold C1, assigned. simpl. now rewrite Dict_get_put_eq. }
  exists st1. split; [|split; [exact G|split; [exact G|]]].
  - unfold compareValue. rewrite (bind_Ret _ _ _ _ _ Hva).
    rewrite (bind_Ret _ _ _ _ _ Hvb). rewrite Hop. unfold lift.
    rewrite (bind_Ret _ _ _ _ _ eq_refl).
    apply (setProp_obj st n C "floating" _ HC eq_refl).
  - intros l' N. simpl. apply list_lookup_insert_ne. congruence.
Qed.

End Floating.

Lemma setValue_then_getValue_witness :
  exists st1,
    setValue (H := quietHost) (Some "input.name") (Some "'Ann'") (VObj 1%nat)
             (VObj 0%nat) VUndef counting
    = Ret tt st1
    /\ getValue (H := quietHost) (Some "input.name") (VObj 1%nat)
                (VObj 0%nat) VUndef st1
       = Ret (VStr "Ann") st1
    /\ forall l', l' <> 0%nat -> heap st1 !! l' = heap counting !! l'.
Proof.
  apply (setValue_then_getValue (H := quietHost) 0%nat
           (mkObj "Object" [("count", VNum 4)]) counting eq_refl
           (VObj 1%nat) VUndef "input.name" (Some "'Ann'") (VStr "Ann")
           counting);
    try reflexivity; discriminate.
Defined.

Lemma incValue_adds_witness :
  exists st1,
    incValue (H := quietHost) (Some "input.seen") (Some "1") (VObj 1%nat)
             (VObj 0%nat) VUndef counting
    = Ret tt st1
    /\ peek (H := quietHost) st1 (VObj 0%nat) "seen" = Some VNaN
    /\ (forall l', l' <> 0%nat -> heap st1 !! l' = heap counting !! l')
    /\ (VUndef = VUndef -> forall b, VNum 1 = VNum b -> VNaN = VNaN).
Proof.
  apply (incValue_adds (H := quietHost) 0%nat
           (mkObj "Object" [("count", VNum 4)]) counting eq_refl
           (VObj 1%nat) VUndef "input.seen" (Some "1") VUndef (VNum 1) VNaN
           counting);
    try reflexivity; discriminate.
Defined.

Lemma incValue_then_decValue_witness :
  exists st1 st2,
    incValue (H := quietHost) (Some "input.count") (Some "3") (VObj 1%nat)
             (VObj 0%nat) VUndef counting
    = Ret tt st1
    /\ peek (H := quietHost) st1 (VObj 0%nat) "count" = Some (VNum (4 + 3))
    /\ decValue (H := quietHost) (Some "input.count") (Some "3") (VObj 1%nat)
                (VObj 0%nat) VUndef st1
       = Ret tt st2
    /\ peek (H := quietHost) st2 (VObj 0%nat) "count" = Some (VNum 4).
Proof.
  apply (incValue_then_decValue (H := quietHost) 0%nat
           (mkObj "Object" [("count", VNum 4)]) counting eq_refl
           (VObj 1%nat) VUndef "input.count" (Some "3") 4 3 counting);
    reflexivity.
Defined.

Lemma deleteValue_then_getValue_witness :
  exists st1,
    deleteValue (H := quietHost) (Some "input.count") (VObj 1%nat)
                (VObj 0%nat) VUndef counting
    = Ret tt st1
    /\ getValue (H := quietHost) (Some "input.count") (VObj 1%nat)
                (VObj 0%nat) VUndef st1
       = Ret VUndef st1
    /\ heap st1 !! 0%nat = Some (mkObj "Object" [])
    /\ forall l', l' <> 0%nat -> heap st1 !! l' = heap counting !! l'.
Proof.
  apply (deleteValue_then_getValue (H := quietHost) 0%nat
           (mkObj "Object" [("count", VNum 4)]) counting eq_refl
           (VObj 1%nat) VUndef "input.count");
    reflexivity.
Defined.

Lemma compareValue_then_getValue_witness :
  exists st1,
    compareValue (H := quietHost) Js.lt (Some "input.count") (Some "10")
                 (VObj 1%nat) (VObj 0%nat) VUndef counting
    = Ret tt st1
    /\ getValue (H := quietHost) None (VObj 1%nat) (VObj 0%nat) VUndef st1
       = Ret (VBool true) st1
    /\ getValue (H := quietHost) (Some EmptyString) (VObj 1%nat)
                (VObj 0%nat) VUndef st1
       = Ret (VBool true) st1
    /\ forall l', l' <> 1%nat -> heap st1 !! l' = heap counting !! l'.
Proof.
  apply (compareValue_then_getValue (H := quietHost) Js.lt
           (Some "input.count") (Some "10") 1%nat (freshContext 1)
           (VObj 0%nat) VUndef (VNum 4) (VNum 10) true counting counting
           counting);
    reflexivity.
Defined.

(** ** Pipelines: search, cache and registration *)

Section Pipelines.

Context `{Host}.

Lemma with_cached_same (c : Container) :
  with_cached c (Cache.pipelines (cache c)) = c.
Proof. destruct c as [cl fa pi co [bk pc] pa]. reflexivity. Qed.

(** A search that finds nothing, with a cache that agrees. *)
Lemma getPipeline_miss (st : state) (tag : string) :
  pipelinesAgree (container st) ->
  searchPipeline (container st) tag = None ->
  Js.inherited tag = false ->
  exists pc,
    getPipeline tag st
    = Ret None (with_container st (with_cached (container st) pc)).
Proof.
  intros Hagree Hnone Hi.
  destruct st as [c h t]. destruct c as [cl fa pi co [bk pc] pa].
  unfold pipelinesAgree, searchPipeline in *. simpl in *.
  cbv [getPipeline bind this_container ret setCachedPipeline
       update_container]. simpl.
  destruct (Dict.get tag pi) as [p|] eqn:Hp; [discriminate|].
  rewrite Hi.
  destruct (Dict.get tag pc) as [e|] eqn:Hc.
  - exists pc. rewrite (Hagree tag e Hc Hp), Hp, Hnone. reflexivity.
  - destruct (firstMatch tag (Dict.keys pi)) as [k|].
    + rewrite Hnone. eexists. reflexivity.
    + eexists. reflexivity.
Qed.

Lemma plainTag_absent (c : Container) (tag : string) :
  plainTag c tag = true ->
  Dict.get tag (pipelines c) = None ->
  Js.inherited tag = false.
Proof.
  unfold plainTag, Dict.has. intros Hp E. rewrite E in Hp.
  now apply negb_true_iff in Hp.
Qed.

(** [registerPipeline] without overwriting, on a tag that holds
    nothing. *)
Lemma registerPipeline_fresh (st : state) (tag : string)
  (lines : list string) :
  let prev :=
    match searchPipeline (container st) tag with
    | Some p => pipeline p
    | None => []
    end in
  Dict.get tag (pipelines (container st)) = None ->
  Js.inherited tag = false ->
  compilable lines prev = true ->
  exists st1,
    registerPipeline tag lines false st = Ret tt st1
    /\ getPipeline tag st1 = Ret (Some (built lines prev)) st1
    /\ Dict.get tag (pipelines (container st1)) = Some (built lines prev)
    /\ heap st1 = heap st
    /\ trace st1 = trace st.
Proof.
  intros prev Hnone Hi Hc. subst prev. destruct st as [c h t].
  destruct c as [cl fa pi co [bk pc] pa].
  unfold searchPipeline in *. simpl in *.
  unfold registerPipeline. unfold bind at 1. unfold this_container.
  cbn [container pipelines]. unfold Dict.has. rewrite Hnone, Hi.
  cbn [orb negb]. unfold bind at 1. unfold update_container at 1.
  unfold bind at 1. unfold getPipeline at 1.
  cbv [bind this_container ret setCachedPipeline update_container].
  simpl. rewrite Hnone, Hi. rewrite Hnone in Hc.
  destruct (firstMatch tag (Dict.keys pi)); simpl;
    rewrite (buildPipeline_built _ _ _ Hc);
    eexists; (split; [reflexivity|]); simpl;
    unfold getPipeline, bind, this_container; simpl;
    rewrite Dict_get_put_eq; repeat split.
Qed.

(** [getPipeline] answers as a search without cache would, as long as the
    cache agrees with the pipelines; it changes nothing but
    [cache.pipelines], which goes on agreeing, and asked again it gives
    the same answer and changes nothing at all.  The search takes the
    pipeline under the tag, else the one under the first key, oldest
    first, that [compareWildcards] accepts.  The tag is a key of
    [pipelines], or no key of [Object.prototype]. *)
Theorem getPipeline_is_search (st : state) (tag : string) :
  pipelinesAgree (container st) ->
  plainTag (container st) tag = true ->
  (exists pc,
     let st' := with_container st (with_cached (container st) pc) in
     getPipeline tag st = Ret (searchPipeline (container st) tag) st'
     /\ pipelinesAgree (container st')
     /\ getPipeline tag st' = Ret (searchPipeline (container st) tag) st')
  /\ (Dict.get tag (pipelines (container st)) = None ->
      match firstMatch tag (Dict.keys (pipelines (container st))) with
      | Some k =>
          firstAccepted tag (Dict.keys (pipelines (container st))) k
          /\ searchPipeline (container st) tag
             = Dict.get k (pipelines (container st))
      | None =>
          searchPipeline (container st) tag = None
          /\ forall k, In k (Dict.keys (pipelines (container st))) ->
                       compareWildcards tag k = false
      end).
Proof.
  intros Hagree Hplain. split.
  2:{ intros Hp. unfold searchPipeline. rewrite Hp.
      pose proof (firstMatch_first tag
                    (Dict.keys (pipelines (container st)))) as Hf.
      destruct (firstMatch tag (Dict.keys (pipelines (container st))));
        now split. }
  pose proof (plainTag_absent _ _ Hplain) as Hi.
  destruct st as [c h t]. destruct c as [cl fa pi co [bk pc] pa].
  unfold pipelinesAgree, searchPipeline in *. simpl in *.
  cbv [getPipeline bind this_container ret setCachedPipeline
       update_container]. simpl.
  destruct (Dict.get tag pi) as [p|] eqn:Hp.
  - exists pc. simpl. rewrite ?Hp. repeat split. exact Hagree.
  - rewrite (Hi eq_refl).
    destruct (Dict.get tag pc) as [e|] eqn:Hc.
    + exists pc. simpl. rewrite ?Hp, ?(Hi eq_refl), ?Hc.
      rewrite (Hagree tag e Hc Hp), ?Hp. repeat split. exact Hagree.
    + assert (G : forall found,
                 found = match firstMatch tag (Dict.keys pi) with
                         | Some k => Dict.get k pi
                         | None => None
                         end ->
                 forall tag0 e,
                   Dict.get tag0 (Dict.put tag found pc) = Some e ->
                   Dict.get tag0 pi = None ->
                   e = match Dict.get tag0 pi with
                       | Some p => Some p
                       | None =>
                           match firstMatch tag0 (Dict.keys pi) with
                           | Some k => Dict.get k pi
                           | None => None
                           end
                       end).
      { intros found Hf tag0 e He H0.
        destruct (String.eqb_spec tag tag0) as [<-|N].
        - rewrite Dict_get_put_eq in He. injection He as <-.
          now rewrite Hp.
        - rewrite Dict_get_put_ne in He by exact N. now apply Hagree. }
      destruct (firstMatch tag (Dict.keys pi)) as [k|] eqn:Hm.
      * exists (Dict.put tag (Dict.get k pi) pc). simpl.
        rewrite ?Hp, ?(Hi eq_refl), Dict_get_put_eq. repeat split.
        now apply G.
      * exists (Dict.put tag None pc). simpl.
        rewrite ?Hp, ?(Hi eq_refl), Dict_get_put_eq. repeat split.
        now apply G.
Qed.

(** [registerPipeline] that stores (it overwrites, or the tag holds
    nothing): the pipeline stored is built from the lines, with the lines
    of what a search for the tag found before, under the tag or under a
    key that matches it, as the previous version; [getPipeline] gives it
    back; the pipelines under other tags stay; and the cache, emptied on
    the way, agrees with the pipelines.  The tag is a key of [pipelines]
    or no key of [Object.prototype], and the first of the lines asks for
    no compiler under such a key. *)
Theorem registerPipeline_then_getPipeline (st : state) (tag : string)
  (lines : list string) (overwrite : bool) :
  let prev :=
    match searchPipeline (container st) tag with
    | Some p => pipeline p
    | None => []
    end in
  overwrite || negb (Dict.has tag (pipelines (container st))) = true ->
  plainTag (container st) tag = true ->
  compilable lines prev = true ->
  exists st',
    registerPipeline tag lines overwrite st = Ret tt st'
    /\ getPipeline tag st' = Ret (Some (built lines prev)) st'
    /\ (forall other, other <> tag ->
                      Dict.get other (pipelines (container st'))
                      = Dict.get other (pipelines (container st)))
    /\ pipelinesAgree (container st').
Proof.
  intros prev Hgo Hplain Hc. subst prev.
  pose proof (plainTag_absent _ _ Hplain) as Hi.
  destruct st as [c h t]. destruct c as [cl fa pi co [bk pc] pa].
  unfold pipelinesAgree, searchPipeline in *. simpl in *.
  assert (Hgo' : overwrite || negb (Dict.has tag pi || Js.inherited tag)
                 = true).
  { destruct overwrite; [reflexivity|]. simpl in Hgo |- *.
    apply negb_true_iff in Hgo. rewrite Hgo. simpl.
    unfold Dict.has in Hgo.
    destruct (Dict.get tag pi); [discriminate|]. now rewrite (Hi eq_refl). }
  unfold registerPipeline. unfold bind at 1. unfold this_container.
  cbn [container pipelines]. rewrite Hgo'.
  unfold bind at 1. unfold update_container at 1.
  unfold bind at 1. unfold getPipeline at 1.
  cbv [bind this_container ret setCachedPipeline update_container]. simpl.
  assert (Hend : forall (cp : list (string * option Pipeline)) prev,
             compilable lines prev = true ->
             exists st',
               (let* built0 := buildPipeline lines prev in
                update_container
                  (fun c => with_pipelines c
                              (Dict.put tag built0 (pipelines c))))
                 (mkState (mkContainer cl fa pi co (Cache.mk bk cp) pa) h t)
               = Ret tt st'
               /\ container st'
                  = mkContainer cl fa (Dict.put tag (built lines prev) pi) co
                                (Cache.mk bk cp) pa
               /\ heap st' = h /\ trace st' = t).
  { intros cp prev Hcp. unfold bind.
    rewrite (buildPipeline_built _ _ _ Hcp). eexists.
    split; [reflexivity|]. now repeat split. }
  destruct (Dict.get tag pi) as [p|] eqn:Hp; simpl.
  - destruct (Hend [] (pipeline p) Hc) as [st' [E [Hcont _]]].
    exists st'. unfold bind in E. unfold bind. split; [exact E|].
    destruct st' as [c' h' t']. simpl in Hcont. subst c'.
    unfold getPipeline, bind, this_container. simpl.
    rewrite Dict_get_put_eq. split; [reflexivity|]. split.
    + intros other N. apply Dict_get_put_ne. congruence.
    + intros tag0 e He. discriminate.
  - rewrite (Hi eq_refl).
    destruct (firstMatch tag (Dict.keys pi)) as [k|] eqn:Hm; simpl.
    + destruct (Hend [(tag, Dict.get k pi)] _ Hc) as [st' [E [Hcont _]]].
      exists st'. unfold bind in E. unfold bind. split; [exact E|].
      destruct st' as [c' h' t']. simpl in Hcont. subst c'.
      unfold getPipeline, bind, this_container. simpl.
      rewrite Dict_get_put_eq. split; [reflexivity|]. split.
      * intros other N. apply Dict_get_put_ne. congruence.
      * intros tag0 e He H0.
        destruct (String.eqb tag0 tag) eqn:E0; [|discriminate].
        apply String.eqb_eq in E0. subst tag0.
        rewrite Dict_get_put_eq in H0. discriminate.
    + destruct (Hend [(tag, None)] _ Hc) as [st' [E [Hcont _]]].
      exists st'. unfold bind in E. unfold bind. split; [exact E|].
      destruct st' as [c' h' t']. simpl in Hcont. subst c'.
      unfold getPipeline, bind, this_container. simpl.
      rewrite Dict_get_put_eq. split; [reflexivity|]. split.
      * intros other N. apply Dict_get_put_ne. congruence.
      * intros tag0 e He H0.
        destruct (String.eqb tag0 tag) eqn:E0; [|discriminate].
        apply String.eqb_eq in E0. subst tag0.
        rewrite Dict_get_put_eq in H0. discriminate.
Qed.

(** A pipeline that a search does not find, under a tag that is no key of
    [Object.prototype]: [runPipeline] under its tag raises
    [PipelineNotFound] and a call instruction that names it raises
    [CallNotFound], whatever the fuel; nothing is activated, no object is
    touched and no pipeline is stored. *)
Theorem unknown_pipeline_raises (st : state) (tag : string)
  (context input srcObject : Value) (depth : Z) :
  pipelinesAgree (container st) ->
  searchPipeline (container st) tag = None ->
  Js.inherited tag = false ->
  depth <= 10 ->
  exists st',
    (forall fuel,
        runPipeline fuel (SrcTag tag) input srcObject depth st
        = Throw (PipelineNotFound (SrcTag tag)) st')
    /\ (forall run,
           executeCall run tag context input srcObject depth st
           = Throw (CallNotFound tag) st')
    /\ heap st' = heap st
    /\ trace st' = trace st
    /\ pipelines (container st') = pipelines (container st).
Proof.
  intros Hagree Hnone Hi Hd.
  destruct (getPipeline_miss st tag Hagree Hnone Hi) as [pc E].
  exists (with_container st (with_cached (container st) pc)).
  split; [|split; [|split; [|split]]].
  - intros fuel. unfold runPipeline, runPipelineWith.
    assert (G : (depth >? 10) = false)
      by (rewrite Z.gtb_ltb; apply Z.ltb_ge; lia).
    rewrite G. now rewrite (bind_Ret _ _ _ _ _ E).
  - intros run. unfold executeCall. now rewrite (bind_Ret _ _ _ _ _ E).
  - reflexivity.
  - reflexivity.
  - destruct st as [c h t]. now destruct c.
Qed.

End Pipelines.

Lemma getPipeline_is_search_witness :
  exists pc,
    let st' :=
      with_container patternPipelines
        (with_cached (container patternPipelines) pc) in
    getPipeline (H := globHost) "onStart" patternPipelines
    = Ret (searchPipeline (H := globHost) (container patternPipelines)
             "onStart") st'
    /\ pipelinesAgree (H := globHost) (container st')
    /\ getPipeline (H := globHost) "onStart" st'
       = Ret (searchPipeline (H := globHost) (container patternPipelines)
                "onStart") st'.
Proof.
  apply (proj1 (getPipeline_is_search (H := globHost) patternPipelines
                  "onStart" ltac:(intros tag e He; discriminate) eq_refl)).
Defined.

Lemma registerPipeline_then_getPipeline_witness :
  exists st',
    let built :=
      built ["$super"; "get input"]
        (match searchPipeline (H := globHost) (container patternPipelines)
                 "onStart" with
         | Some p => pipeline p
         | None => []
         end) in
    registerPipeline (H := globHost) "onStart" ["$super"; "get input"] false
                     patternPipelines
    = Ret tt st'
    /\ getPipeline (H := globHost) "onStart" st' = Ret (Some built) st'
    /\ (forall other, other <> "onStart" ->
                      Dict.get other (pipelines (container st'))
                      = Dict.get other
                          (pipelines (container patternPipelines)))
    /\ pipelinesAgree (H := globHost) (container st').
Proof.
  apply (registerPipeline_then_getPipeline (H := globHost) patternPipelines
           "onStart" ["$super"; "get input"] false);
    reflexivity.
Defined.

Lemma unknown_pipeline_raises_witness :
  exists st',
    (forall fuel,
        runPipeline (H := globHost) fuel (SrcTag "main") VUndef VUndef 0
                    patternPipelines
        = Throw (PipelineNotFound (SrcTag "main")) st')
    /\ (forall run,
           executeCall (H := globHost) run "main" VUndef VUndef VUndef 0
                       patternPipelines
           = Throw (CallNotFound "main") st')
    /\ heap st' = heap patternPipelines
    /\ trace st' = trace patternPipelines
    /\ pipelines (container st') = pipelines (container patternPipelines).
Proof.
  apply (unknown_pipeline_raises (H := globHost) patternPipelines "main"
           VUndef VUndef VUndef 0).
  - intros tag e He. discriminate.
  - reflexivity.
  - reflexivity.
  - lia.
Defined.

(** ** Configurations *)

(** [registerConfiguration] that stores (it overwrites, or
    [this.configurations[tag]] is not truthy) a configuration that is
    truthy, under a tag other than [__proto__]: [getConfiguration] gives
    it back and changes nothing, and the configurations under other tags
    stay. *)
Theorem registerConfiguration_then_getConfiguration `{Host} (st : state)
  (tag : string) (configuration : Value) (overwrite : bool) :
  overwrite || negb (holdsConfiguration (container st) tag) = true ->
  tag <> "__proto__" ->
  Js.truthy configuration = true ->
  exists st',
    registerConfiguration tag configuration overwrite st = Ret tt st'
    /\ getConfiguration tag st' = Ret configuration st'
    /\ forall other, other <> tag ->
                     Dict.get other (configurations (container st'))
                     = Dict.get other (configurations (container st)).
Proof.
  intros Hgo Hne Ht. destruct st as [c h t].
  destruct c as [cl fa pi co ca pa].
  unfold holdsConfiguration in Hgo. simpl in *.
  cbv [registerConfiguration getConfiguration bind this_container ret
       update_container lift]. cbn [container configurations].
  rewrite Hgo. rewrite stored_put by now apply not_proto.
  eexists. split; [reflexivity|]. cbn [container configurations
    with_configurations with_container]. rewrite Dict_get_put_eq, Ht.
  split; [reflexivity|].
  intros other N. apply Dict_get_put_ne. congruence.
Qed.

Lemma registerConfiguration_then_getConfiguration_witness :
  exists st',
    registerConfiguration "t" (VStr "fr") false zeroConfiguration
    = Ret tt st'
    /\ getConfiguration (H := quietHost) "t" st' = Ret (VStr "fr") st'
    /\ forall other, other <> "t" ->
                     Dict.get other (configurations (container st'))
                     = Dict.get other
                         (configurations (container zeroConfiguration)).
Proof.
  apply (registerConfiguration_then_getConfiguration (H := quietHost)
           zeroConfiguration "t" (VStr "fr") false);
    [reflexivity|discriminate|reflexivity].
Defined.

(** ** Classes in the factory *)

Section Factory.

Context `{Host}.

(** A class registered as a singleton, under a name other than
    [__proto__], is built once, when it is registered, without arguments;
    the factory keeps what [new] gave: the object that the constructor
    returned, else the new object; and every [get] of the name that finds
    no [applySettings] on that object returns it and changes nothing. *)
Theorem register_class_builds_singleton (st : state) (name n : string)
  (bound : option nat) (v : Value) (h : list obj) (settings : Value) :
  let l := List.length (heap st) in
  let made := if Js.is_object v then v else VObj l in
  name <> "__proto__" ->
  host_call n (Some l) [] (heap st ++ [mkObj n []]) = HostReturn v h ->
  exists st1,
    register name (VFun n bound) true st = Ret tt st1
    /\ Dict.get name (factory (container st1))
       = Some (mkFactoryItem name true made)
    /\ heap st1 = h
    /\ trace st1 = (trace st ++ [EvNew n l []])%list
    /\ (forall li o, made = VObj li ->
                     h !! li = Some o ->
                     Js.truthy (member o "applySettings") = false ->
                     get name settings st1 = Ret made st1).
Proof.
  intros l made Hne Hcall. subst l made.
  destruct st as [c hp t]. destruct c as [cl fa pi co ca pa]. simpl in *.
  unfold register. cbn [Js.is_function].
  cbv [bind update_container construct alloc log ret this_container].
  simpl. rewrite Hcall. rewrite (not_proto _ _ Hne).
  eexists. split; [reflexivity|]. simpl.
  split; [apply Dict_get_put_eq|]. split; [reflexivity|].
  split; [reflexivity|].
  intros li o Hm Ho Hfalsy.
  match goal with
  | |- get _ _ ?s = _ =>
      rewrite (get_strict s name
                 (mkFactoryItem name true
                    (if Js.is_object v then v else VObj (List.length hp)))
                 settings)
        by apply Dict_get_put_eq
  end.
  unfold instantiate. cbn [isSingleton instance]. rewrite Hm.
  cbn [Js.truthy]. unfold bind.
  match goal with
  | |- context [getProp (VObj li) "applySettings" ?s] =>
      rewrite (getProp_obj s li o "applySettings" Ho eq_refl)
  end.
  now rewrite Hfalsy.
Qed.

(** What is registered as no singleton, under a name other than
    [__proto__], is kept as a class: the class given, or the class that
    the object given has as its [constructor].  Every [get] of the name
    builds a new object of that class, another one than the object given,
    with the settings and the container as arguments, and returns what
    [new] gives: the object that the constructor returned, else the new
    object. *)
Theorem get_builds_what_is_no_singleton (st : state) (name n : string)
  (x settings v : Value) (h : list obj) :
  let l := List.length (heap st) in
  name <> "__proto__" ->
  classToBuild st x = Some n ->
  host_call n (Some l) [settings; VContainer] (heap st ++ [mkObj n []])
  = HostReturn v h ->
  exists st1 st2,
    register name x false st = Ret tt st1
    /\ heap st1 = heap st
    /\ trace st1 = trace st
    /\ get name settings st1
       = Ret (if Js.is_object v then v else VObj l) st2
    /\ heap st2 = h
    /\ trace st2 = (trace st ++ [EvNew n l [settings; VContainer]])%list
    /\ container st2 = container st1
    /\ x <> VObj l.
Proof.
  intros l Hne Hx Hcall. subst l.
  destruct st as [c hp t]. destruct c as [cl fa pi co ca pa]. simpl in *.
  assert (G : exists b,
             (if Js.is_function x then ret x else constructorOf x)
               (with_container (mkState (mkContainer cl fa pi co ca pa) hp t)
                  (with_cache (mkContainer cl fa pi co ca pa)
                     (Cache.mk [] (Cache.pipelines ca))))
             = Ret (VFun n b)
                   (with_container
                      (mkState (mkContainer cl fa pi co ca pa) hp t)
                      (with_cache (mkContainer cl fa pi co ca pa)
                         (Cache.mk [] (Cache.pipelines ca))))
             /\ x <> VObj (List.length hp)).
  { destruct x; try discriminate; simpl in Hx.
    - destruct (hp !! l) as [o|] eqn:Ho; [|discriminate].
      destruct (lookup o "constructor") as [[]|] eqn:Hl; try discriminate.
      injection Hx as <-. eexists. split.
      + cbv [Js.is_function constructorOf getProp bind read ret lift].
        simpl. now rewrite Ho, Hl.
      + intros [= ->]. apply lookup_lt_Some in Ho. lia.
    - injection Hx as <-. exists this. split; [reflexivity|discriminate]. }
  destruct G as [b [E Hnx]].
  unfold register. cbv [bind update_container this_container]. cbn [negb].
  cbv beta iota. simpl in E |- *. rewrite E.
  rewrite (not_proto _ _ Hne).
  eexists. eexists. split; [reflexivity|]. simpl.
  split; [reflexivity|]. split; [reflexivity|].
  match goal with
  | |- get _ _ ?s = _ /\ _ =>
      rewrite (get_strict s name (mkFactoryItem name false (VFun n b))
                 settings) by apply Dict_get_put_eq
  end.
  unfold instantiate. cbn [isSingleton instance].
  cbv [construct bind alloc log ret]. simpl. rewrite Hcall.
  repeat split; try reflexivity. exact Hnx.
Qed.

End Factory.

Lemma register_class_builds_singleton_witness :
  exists st1,
    register (H := quietHost) "p" (VFun "Point" None) true onePoint
    = Ret tt st1
    /\ Dict.get "p" (factory (container st1))
       = Some (mkFactoryItem "p" true (VObj 1%nat))
    /\ heap st1 = [mkObj "Point" [("x", VNum 1)]; mkObj "Point" []]
    /\ trace st1 = (trace onePoint ++ [EvNew "Point" 1%nat []])%list
    /\ (forall li o,
           VObj 1%nat = VObj li ->
           [mkObj "Point" [("x", VNum 1)]; mkObj "Point" []] !! li
           = Some o ->
           Js.truthy (member (H := quietHost) o "applySettings") = false ->
           get (H := quietHost) "p" VUndef st1 = Ret (VObj 1%nat) st1).
Proof.
  apply (register_class_builds_singleton (H := quietHost) onePoint "p"
           "Point" None VUndef
           [mkObj "Point" [("x", VNum 1)]; mkObj "Point" []] VUndef);
    [discriminate|reflexivity].
Defined.

Lemma get_builds_what_is_no_singleton_witness :
  exists st1 st2,
    register (H := quietHost) "p" (VObj 0%nat) false onePoint = Ret tt st1
    /\ heap st1 = heap onePoint
    /\ trace st1 = trace onePoint
    /\ get (H := quietHost) "p" (VNum 5) st1 = Ret (VObj 1%nat) st2
    /\ heap st2 = [mkObj "Point" [("x", VNum 1)]; mkObj "Point" []]
    /\ trace st2
       = (trace onePoint ++ [EvNew "Point" 1%nat [VNum 5; VContainer]])%list
    /\ container st2 = container st1
    /\ VObj 0%nat <> VObj 1%nat.
Proof.
  apply (get_builds_what_is_no_singleton (H := quietHost) onePoint "p"
           "Point" (VObj 0%nat) (VNum 5) VUndef
           [mkObj "Point" [("x", VNum 1)]; mkObj "Point" []]);
    [discriminate|reflexivity|reflexivity].
Defined.

(** ** Pipelines from text *)

Module TextFacts.

Lemma splitWhen_not_nil (p : ascii -> bool) (s : string) :
  JsText.splitWhen p s <> [].
Proof.
  induction s as [|c r IH]; simpl; [discriminate|].
  destruct (p c); [discriminate|].
  destruct (JsText.splitWhen p r); discriminate.
Qed.

Lemma splitWhen_cons (p : ascii -> bool) (c : ascii) (r : string) :
  p c = false ->
  JsText.splitWhen p (String c r)
  = String c (hd EmptyString (JsText.splitWhen p r))
    :: tl (JsText.splitWhen p r).
Proof.
  intros E. simpl. rewrite E.
  pose proof (splitWhen_not_nil p r) as N.
  destruct (JsText.splitWhen p r); [congruence|reflexivity].
Qed.

(** The lines of a text with carriage returns before its line feeds are
    the lines of the text, with empty lines added. *)
Lemma splitLines_crlf (text : string) :
  hd EmptyString (JsText.splitLines (crlf text))
  = hd EmptyString (JsText.splitLines text)
  /\ List.filter filled (tl (JsText.splitLines (crlf text)))
     = List.filter filled (tl (JsText.splitLines text)).
Proof.
  unfold JsText.splitLines.
  induction text as [|c r [IH1 IH2]]; [now split|].
  assert (Hall : List.filter filled
                    (JsText.splitWhen JsText.isLineBreak (crlf r))
                 = List.filter filled
                     (JsText.splitWhen JsText.isLineBreak r)).
  { pose proof (splitWhen_not_nil JsText.isLineBreak (crlf r)) as N1.
    pose proof (splitWhen_not_nil JsText.isLineBreak r) as N2.
    destruct (JsText.splitWhen JsText.isLineBreak (crlf r)) as [|a l];
      [congruence|].
    destruct (JsText.splitWhen JsText.isLineBreak r) as [|b k];
      [congruence|].
    cbn [hd tl] in IH1, IH2. subst b. cbn [List.filter]. now rewrite IH2. }
  cbn [crlf]. destruct (Ascii.eqb_spec c "010") as [->|N].
  - cbn [JsText.splitWhen]. cbn. split; [reflexivity|exact Hall].
  - destruct (JsText.isLineBreak c) eqn:E.
    + cbn [JsText.splitWhen]. rewrite E. cbn [hd tl].
      split; [reflexivity|exact Hall].
    + rewrite !splitWhen_cons by exact E. cbn [hd tl].
      split; [now rewrite IH1|exact IH2].
Qed.

End TextFacts.

Section Loader.

Context `{Host}.

Lemma loadLines_filled (lines : list string) :
  forall acc st,
    loadLines lines acc st
    = loadLines (List.filter filled lines) acc st.
Proof.
  induction lines as [|line lines IH]; intros acc st; [reflexivity|].
  cbn [List.filter]. unfold filled at 1.
  destruct (String.eqb_spec line EmptyString) as [->|N]; cbn [negb].
  - exact (IH acc st).
  - cbn [loadLines]. unfold bind.
    destruct (loadLine acc line st); try reflexivity. apply IH.
Qed.

(** A text with carriage returns before its line feeds loads as the text
    without them. *)
Theorem loadPipelinesFromString_crlf (text : string)
  (childPipelines : ChildPipelines) (st : state) :
  loadPipelinesFromString (crlf text) childPipelines st
  = loadPipelinesFromString text childPipelines st.
Proof.
  unfold loadPipelinesFromString.
  destruct (TextFacts.splitLines_crlf text) as [H1 H2].
  pose proof (TextFacts.splitWhen_not_nil JsText.isLineBreak (crlf text))
    as N1.
  pose proof (TextFacts.splitWhen_not_nil JsText.isLineBreak text) as N2.
  unfold JsText.splitLines in *.
  destruct (JsText.splitWhen JsText.isLineBreak (crlf text)) as [|a l];
    [congruence|].
  destruct (JsText.splitWhen JsText.isLineBreak text) as [|b k];
    [congruence|].
  cbn [hd tl] in H1, H2. subst b.
  unfold bind. rewrite (loadLines_filled (a :: l)), (loadLines_filled (a :: k)).
  cbn [List.filter]. now rewrite H2.
Qed.

Lemma flush_nameless (v : LoaderVars) (cp : ChildPipelines) (st : state) :
  currentName v = EmptyString -> flushPipeline v cp st = Ret cp st.
Proof. intros E. unfold flushPipeline. now rewrite E. Qed.

Lemma registerPipelineForChilds_plain (childName tag : string)
  (lines : list string) (overwrite : bool) (cp : ChildPipelines)
  (st : state) :
  Js.inherited childName = false ->
  registerPipelineForChilds childName tag lines overwrite cp st
  = Ret (Some (Dict.put childName
                 (childList cp childName
                  ++ [Child.mk tag lines overwrite])%list
                 (match cp with Some d => d | None => [] end))) st.
Proof.
  intros Hi. unfold registerPipelineForChilds, childList. rewrite Hi.
  destruct cp as [d|]; [destruct (Dict.get childName d)|]; reflexivity.
Qed.

Lemma flush_child (v : LoaderVars) (cp : ChildPipelines) (st : state) :
  currentName v <> EmptyString ->
  childTitle (currentTitle v) = true ->
  flushPipeline v cp st
  = registerPipelineForChilds (currentTitle v) (currentName v)
      (currentPipeline v) true cp st.
Proof.
  intros N E. unfold flushPipeline. apply String.eqb_neq in N. rewrite N.
  unfold childTitle in E. now rewrite E.
Qed.

Lemma flush_default (v : LoaderVars) (cp : ChildPipelines) (st : state) :
  currentName v <> EmptyString ->
  childTitle (currentTitle v) = false ->
  flushPipeline v cp st
  = (registerPipeline (currentName v) (currentPipeline v) true ;;; ret cp) st.
Proof.
  intros N E. unfold flushPipeline. apply String.eqb_neq in N. rewrite N.
  unfold childTitle in E. now rewrite E.
Qed.

Lemma loadLines_nothing (lines : list string) :
  forall v cp st,
    currentName v = EmptyString ->
    forallb namesNothing lines = true ->
    exists v',
      loadLines lines (v, cp) st = Ret (v', cp) st
      /\ currentName v' = EmptyString.
Proof.
  induction lines as [|line lines IH]; intros v cp st Hn Hl.
  - exists v. now split.
  - cbn [forallb] in Hl. apply andb_prop in Hl. destruct Hl as [Hline Hl].
    cbn [loadLines]. unfold loadLine. cbn [fst snd].
    destruct (negb (String.eqb line EmptyString)).
    + destruct (JsString.startsWith line "# ").
      * unfold bind. rewrite (flush_nameless v cp st Hn). unfold ret.
        now apply IH.
      * unfold namesNothing in Hline.
        destruct (JsString.startsWith line "## "); cbn [negb orb] in Hline.
        -- apply String.eqb_eq in Hline.
           unfold bind. rewrite (flush_nameless v cp st Hn). unfold ret.
           now apply IH.
        -- rewrite Hn. cbn [String.eqb negb]. unfold bind, ret.
           now apply IH.
    + unfold bind, ret. now apply IH.
Qed.

(** A text none of whose lines opens a named section loads nothing: the
    container and the pipelines for children are as before, titles and
    other lines or not. *)
Theorem text_without_section_loads_nothing (text : string)
  (childPipelines : ChildPipelines) (st : state) :
  forallb namesNothing (JsText.splitLines text) = true ->
  loadPipelinesFromString text childPipelines st = Ret childPipelines st.
Proof.
  intros Hl. unfold loadPipelinesFromString.
  destruct (loadLines_nothing (JsText.splitLines text)
              (mkLoaderVars EmptyString [] EmptyString) childPipelines st
              eq_refl Hl) as [v' [E Hn]].
  rewrite (bind_Ret _ _ _ _ _ E). cbn [fst snd].
  now apply flush_nameless.
Qed.

Lemma flush_plain_child (v : LoaderVars) (cp : ChildPipelines)
  (st : state) :
  currentName v = EmptyString \/ plainChildTitle (currentTitle v) = true ->
  exists cp', flushPipeline v cp st = Ret cp' st.
Proof.
  intros Hv.
  destruct (String.eqb_spec (currentName v) EmptyString) as [E|N].
  - exists cp. now apply flush_nameless.
  - destruct Hv as [E|E]; [congruence|].
    apply andb_prop in E. destruct E as [E Hi].
    apply negb_true_iff in Hi.
    eexists. rewrite flush_child by assumption.
    now apply registerPipelineForChilds_plain.
Qed.

Lemma loadLines_children (lines : list string) :
  forall v cp st,
    currentName v = EmptyString \/ plainChildTitle (currentTitle v) = true ->
    childOnly (plainChildTitle (currentTitle v)) lines = true ->
    exists v' cp',
      loadLines lines (v, cp) st = Ret (v', cp') st
      /\ (currentName v' = EmptyString
          \/ plainChildTitle (currentTitle v') = true).
Proof.
  pose proof flush_plain_child as F.
  induction lines as [|line lines IH]; intros v cp st Hv Hl.
  - exists v, cp. now split.
  - cbn [childOnly] in Hl. cbn [loadLines]. unfold loadLine. cbn [fst snd].
    destruct (String.eqb line EmptyString); cbn [negb].
    + unfold bind, ret. now apply IH.
    + destruct (JsString.startsWith line "# ").
      * apply andb_prop in Hl. destruct Hl as [Ht Hl].
        destruct (F v cp st Hv) as [cp' E].
        unfold bind. rewrite E. unfold ret.
        apply IH; cbn [currentName currentTitle]; [now left|].
        now rewrite Ht.
      * destruct (JsString.startsWith line "## ").
        -- apply andb_prop in Hl. destruct Hl as [Hu Hl].
           destruct (F v cp st Hv) as [cp' E].
           unfold bind. rewrite E. unfold ret.
           apply IH; cbn [currentName currentTitle]; [|exact Hl].
           apply orb_prop in Hu. destruct Hu as [Hu|Hu]; [now right|].
           left. now apply String.eqb_eq.
        -- destruct (negb (String.eqb (currentName v) EmptyString)).
           ++ unfold bind, ret.
              apply IH; cbn [currentName currentTitle]; [exact Hv|exact Hl].
           ++ unfold bind, ret. now apply IH.
Qed.

End Loader.

Section Sections.

Context `{Host}.

(** A text all of whose sections stand under titles other than [default]
    and [pipelines], none of them a key of [Object.prototype], leaves the
    container and the heap as they are: whatever it holds goes to the
    pipelines for children. *)
Theorem text_for_children_leaves_container (text : string)
  (childPipelines : ChildPipelines) (st : state) :
  childOnly false (JsText.splitLines text) = true ->
  exists childPipelines',
    loadPipelinesFromString text childPipelines st = Ret childPipelines' st.
Proof.
  intros Hl. unfold loadPipelinesFromString.
  destruct (loadLines_children (JsText.splitLines text)
              (mkLoaderVars EmptyString [] EmptyString) childPipelines st
              (or_introl eq_refl) Hl) as [v' [cp' [E Hv]]].
  rewrite (bind_Ret _ _ _ _ _ E). cbn [fst snd].
  now apply flush_plain_child.
Qed.

Lemma loadLines_cons (line : string) (rest : list string)
  (acc : LoaderVars * ChildPipelines) (st : state) :
  loadLines (line :: rest) acc st
  = match loadLine acc line st with
    | Ret a s => loadLines rest a s
    | Throw e s => Throw e s
    | OutOfFuel => OutOfFuel
    | Unsupported => Unsupported
    end.
Proof. reflexivity. Qed.

Lemma loadLines_body (body : list string) :
  forall v cp st,
    currentName v <> EmptyString ->
    forallb bodyLine body = true ->
    loadLines body (v, cp) st
    = Ret (mkLoaderVars (currentName v) (currentPipeline v ++ body)%list
             (currentTitle v), cp) st.
Proof.
  induction body as [|line body IH]; intros v cp st Hn Hb.
  - rewrite app_nil_r. now destruct v.
  - cbn [forallb] in Hb. apply andb_prop in Hb. destruct Hb as [Hline Hb].
    unfold bodyLine in Hline.
    apply andb_prop in Hline. destruct Hline as [Hline H3].
    apply andb_prop in Hline. destruct Hline as [H1 H2].
    apply negb_true_iff in H2, H3.
    cbn [loadLines]. unfold loadLine. cbn [fst snd].
    rewrite H1, H2, H3.
    apply String.eqb_neq in Hn. rewrite Hn. cbn [negb].
    unfold bind, ret.
    rewrite IH; cbn [currentName currentPipeline currentTitle];
      [|now apply String.eqb_neq|exact Hb].
    now rewrite <- app_assoc.
Qed.

(** A text that is one section, a line [## name] and the lines of its
    body: under no title it registers a pipeline with that name and those
    lines, overwriting; with a title line before it, it does the same when
    the title is [default] or [pipelines] in any letter case, and
    otherwise does what [registerPipelineForChilds] does with the title,
    the name and the lines, overwriting: that leaves the container alone,
    and adds the pipeline to the pipelines for the children of that title
    when the title is no key of [Object.prototype]. *)
Theorem section_is_registered (text heading : string) (body : list string)
  (childPipelines : ChildPipelines) (st : state) :
  let name := JsString.trim (JsString.slice 2 heading) in
  JsString.startsWith heading "## " = true ->
  name <> EmptyString ->
  forallb bodyLine body = true ->
  (JsText.splitLines text = heading :: body ->
   loadPipelinesFromString text childPipelines st
   = (registerPipeline name body true ;;; ret childPipelines) st)
  /\ (forall titleLine,
         let title := JsString.trim (JsString.slice 1 titleLine) in
         JsString.startsWith titleLine "# " = true ->
         JsText.splitLines text = titleLine :: heading :: body ->
         loadPipelinesFromString text childPipelines st
         = if childTitle title
           then registerPipelineForChilds title name body true
                  childPipelines st
           else (registerPipeline name body true ;;; ret childPipelines) st)
  /\ (forall title,
         Js.inherited title = false ->
         exists d,
           registerPipelineForChilds title name body true childPipelines st
           = Ret (Some d) st
           /\ Dict.get title d
              = Some (childList childPipelines title
                      ++ [Child.mk name body true])%list).
Proof.
  intros name Hh Hn Hb.
  assert (Hf : negb (String.eqb heading EmptyString) = true)
    by (destruct heading; [discriminate|reflexivity]).
  assert (H1 : JsString.startsWith heading "# " = false).
  { destruct heading as [|a r]; [discriminate|].
    rewrite CompilerFacts.startsWith_cons in *.
    destruct (Ascii.eqb "#" a); [|discriminate].
    destruct r as [|b r]; [reflexivity|].
    rewrite CompilerFacts.startsWith_cons in *.
    destruct (Ascii.eqb_spec "#"%char b) as [<-|]; [reflexivity|].
    discriminate. }
  assert (Open : forall title cp,
             loadLines (heading :: body)
                       (mkLoaderVars EmptyString [] title, cp) st
             = Ret (mkLoaderVars name body title, cp) st).
  { intros title cp. cbn [loadLines]. unfold loadLine. cbn [fst snd].
    rewrite Hf, H1, Hh. unfold bind.
    rewrite flush_nameless by reflexivity. unfold ret.
    rewrite loadLines_body; [reflexivity|exact Hn|exact Hb]. }
  split; [|split].
  3:{ intros title Hi. eexists.
      split; [now apply registerPipelineForChilds_plain|].
      apply Dict_get_put_eq. }
  - intros Hs. unfold loadPipelinesFromString. rewrite Hs.
    rewrite (bind_Ret _ _ _ _ _ (Open EmptyString childPipelines)).
    cbn [fst snd]. now apply flush_default.
  - intros titleLine title Ht Hs. unfold loadPipelinesFromString. rewrite Hs.
    assert (Hft : negb (String.eqb titleLine EmptyString) = true)
      by (destruct titleLine; [discriminate|reflexivity]).
    assert (T : loadLines (titleLine :: heading :: body)
                          (mkLoaderVars EmptyString [] EmptyString,
                           childPipelines) st
                = Ret (mkLoaderVars name body title, childPipelines) st).
    { rewrite loadLines_cons.
      assert (L : loadLine (mkLoaderVars EmptyString [] EmptyString,
                            childPipelines) titleLine st
                  = Ret (mkLoaderVars EmptyString [] title, childPipelines)
                        st).
      { unfold loadLine. cbn [fst snd]. rewrite Hft, Ht. unfold bind.
        now rewrite flush_nameless by reflexivity. }
      rewrite L. apply Open. }
    rewrite (bind_Ret _ _ _ _ _ T). cbn [fst snd].
    destruct (childTitle title) eqn:E.
    + now rewrite flush_child.
    + now rewrite flush_default.
Qed.

End Sections.

Lemma text_without_section_loads_nothing_witness :
  loadPipelinesFromString (H := quietHost) looseText None emptyInput
  = Ret None emptyInput.
Proof.
  apply (text_without_section_loads_nothing (H := quietHost) looseText None
           emptyInput).
  reflexivity.
Defined.

Lemma text_for_children_leaves_container_witness :
  exists childPipelines',
    loadPipelinesFromString (H := quietHost) botText None emptyInput
    = Ret childPipelines' emptyInput.
Proof.
  apply (text_for_children_leaves_container (H := quietHost) botText None
           emptyInput).
  reflexivity.
Defined.

Lemma section_is_registered_witness :
  loadPipelinesFromString (H := quietHost) mainText None emptyInput
  = (registerPipeline (H := quietHost) "main"
       ["set input.a 1"; "get input.a"] true ;;; ret None) emptyInput
  /\ loadPipelinesFromString (H := quietHost) botText None emptyInput
     = registerPipelineForChilds "bot" "main"
         ["set input.a 1"; "get input.a"] true None emptyInput.
Proof.
  split.
  - apply (proj1 (section_is_registered (H := quietHost) mainText "## main"
                    ["set input.a 1"; "get input.a"] None emptyInput
                    eq_refl ltac:(discriminate) eq_refl)).
    reflexivity.
  - apply (proj1 (proj2 (section_is_registered (H := quietHost) botText
                           "## main" ["set input.a 1"; "get input.a"] None
                           emptyInput eq_refl ltac:(discriminate) eq_refl))
                 "# bot");
      reflexivity.
Defined.

(** ** Jumps *)

Section Jumps.

Context `{Host}.


End Jumps.


(** ** Pipelines given as lines *)

Section AdHoc.

Context `{Host}.

Lemma stringifyLines_plain (lines : list string) :
  Js.inherited (Json.stringifyLines lines) = false.
Proof. reflexivity. Qed.

(** [runPipeline] on lines that were never registered: the lines are
    registered, without overwriting, under the text [JSON.stringify] gives
    for them, and what is executed is the pipeline found under that text.
    The first run builds and stores it, the first of the lines asking for
    no compiler under a key of [Object.prototype]; a later run with the
    same lines finds it and builds nothing. *)
Theorem lines_are_registered_under_their_text (lines : list string)
  (input srcObject : Value) (depth : Z) (fuel : nat) (st : state) :
  let tag := Json.stringifyLines lines in
  let prev :=
    match searchPipeline (container st) tag with
    | Some p => pipeline p
    | None => []
    end in
  depth <= 10 ->
  (forall p,
      Dict.get tag (pipelines (container st)) = Some p ->
      runPipeline fuel (SrcLines lines) input srcObject depth st
      = execute fuel (compiled p) input srcObject depth st)
  /\ (Dict.get tag (pipelines (container st)) = None ->
      compilable lines prev = true ->
      exists st1,
        registerPipeline tag lines false st = Ret tt st1
        /\ Dict.get tag (pipelines (container st1))
           = Some (built lines prev)
        /\ heap st1 = heap st
        /\ trace st1 = trace st
        /\ runPipeline fuel (SrcLines lines) input srcObject depth st
           = execute fuel (compiled (built lines prev)) input srcObject
               depth st1).
Proof.
  intros tag prev Hd.
  assert (G : (depth >? 10) = false)
    by (rewrite Z.gtb_ltb; apply Z.ltb_ge; lia).
  split.
  - intros p Hp. unfold runPipeline, runPipelineWith. rewrite G. fold tag.
    assert (R : registerPipeline tag lines false st = Ret tt st).
    { unfold registerPipeline, bind, this_container, Dict.has.
      now rewrite Hp. }
    rewrite (bind_Ret _ _ _ _ _ R).
    assert (E : getPipeline tag st = Ret (Some p) st).
    { unfold getPipeline, bind, this_container. now rewrite Hp. }
    now rewrite (bind_Ret _ _ _ _ _ E).
  - intros Hnone Hc.
    destruct (registerPipeline_fresh st tag lines Hnone
                (stringifyLines_plain lines) Hc)
      as [st1 [R [E Hst]]].
    exists st1.
    split; [exact R|].
    destruct Hst as [H1 [H2 H3]].
    split; [exact H1|]. split; [exact H2|]. split; [exact H3|].
    unfold runPipeline, runPipelineWith. rewrite G. fold tag.
    rewrite (bind_Ret _ _ _ _ _ R).
    now rewrite (bind_Ret _ _ _ _ _ E).
Qed.

End AdHoc.

Lemma lines_are_registered_under_their_text_witness :
  exists st1,
    registerPipeline (H := quietHost) (Json.stringifyLines ["get input.n"])
                     ["get input.n"] false looping
    = Ret tt st1
    /\ Dict.get (Json.stringifyLines ["get input.n"])
                (pipelines (container st1))
       = Some (built ["get input.n"] [])
    /\ heap st1 = heap looping
    /\ trace st1 = trace looping
    /\ runPipeline (H := quietHost) 3 (SrcLines ["get input.n"]) (VObj 0%nat)
                   VUndef 0 looping
       = execute (H := quietHost) 3 (compiled (built ["get input.n"] []))
                 (VObj 0%nat) VUndef 0 st1.
Proof.
  apply (proj2 (lines_are_registered_under_their_text (H := quietHost)
                  ["get input.n"] (VObj 0%nat) VUndef 0 3 looping
                  ltac:(lia)));
    reflexivity.
Defined.

(** ** Names of components in paths *)

Section Components.

Context `{Host}.

(** A path that is one name: when the factory holds, under that name, a
    singleton that is truthy and finds no [applySettings] on itself, the
    path resolves to that singleton, whatever the context holds under the
    name; when [get] finds nothing for the name, which is no key of
    [Object.prototype], in a container without parent and with no key
    that matches, the path resolves to the member of the context, and
    only the miss is remembered. *)
Theorem component_name_shadows_context (token : string) (n : nat) (C : obj)
  (input srcObject : Value) (st : state) :
  headToken token = token ->
  JsString.split "." token = [token] ->
  literalHead token = false ->
  (String.eqb token "input" || String.eqb token "output"
   || String.eqb token "context" || String.eqb token "this") = false ->
  heap st !! n = Some C ->
  (forall item m,
      Dict.get token (factory (container st)) = Some item ->
      isSingleton item = true ->
      Js.truthy (instance item) = true ->
      peek st (instance item) "applySettings" = Some m ->
      Js.truthy m = false ->
      resolvePath (Some token) (VObj n) input srcObject st
      = Ret (instance item) st)
  /\ (Dict.get token (factory (container st)) = None ->
      Js.inherited token = false ->
      parent (container st) = None ->
      bestKeysAgree (container st) ->
      firstMatch token (Dict.keys (factory (container st))) = None ->
      resolvePath (Some token) (VObj n) input srcObject st
      = Ret (member C token)
            (with_container st (memoised (container st) token))).
Proof.
  intros Hh Hs Hl Hroots HC.
  assert (Hne : String.eqb token EmptyString = false).
  { destruct token; [|reflexivity]. discriminate. }
  apply orb_false_elim in Hroots. destruct Hroots as [Hroots Hthis].
  apply orb_false_elim in Hroots. destruct Hroots as [Hroots Hctx].
  assert (Root : forall g st',
             get token VUndef st = Ret g st' ->
             resolvePath (Some token) (VObj n) input srcObject st
             = (if Js.truthy g then ret g else getProp (VObj n) token) st').
  { intros g st' Hg. unfold resolvePath.
    assert (Hl' : literalHead (headToken token) = false) by now rewrite Hh.
    rewrite (resolve_not_literal token _ _ _ Hl'). rewrite Hh, Hs.
    unfold resolveRoot. rewrite Hroots, Hne, Hctx, Hthis. cbn [negb andb].
    cbn [tl walk List.length].
    unfold bind at 1. unfold bind at 1. unfold bind at 1.
    rewrite Hg. unfold bind.
    destruct (Js.truthy g).
    - unfold ret. destruct (Js.is_function g); reflexivity.
    - pose proof (getProp_pure (VObj n) token st') as Hp.
      destruct (getProp (VObj n) token st') as [x s|e s| |];
        try reflexivity.
      unfold ret. destruct (Js.is_function x); reflexivity. }
  split.
  - intros item m Hitem Hsingle Ht Hm Hf.
    assert (Hg : get token VUndef st = Ret (instance item) st).
    { rewrite (get_strict st token item VUndef Hitem).
      unfold instantiate. rewrite Hsingle, Ht.
      rewrite (bind_Ret _ _ _ _ _ (peek_Some st _ _ _ Hm)).
      now rewrite Hf. }
    rewrite (Root _ _ Hg). now rewrite Ht.
  - intros Hnone Hi Hp Hagree Hmiss.
    assert (Hg : get token VUndef st
                 = Ret VUndef
                       (with_container st (memoised (container st) token))).
    { unfold get.
      rewrite (get_in_resolves (container st) token VUndef st).
      - destruct (container st) as [cl fa pi co ca pa]. simpl in *.
        subst pa. now rewrite Hnone, Hmiss.
      - destruct (container st) as [cl fa pi co ca pa]. simpl in *.
        now subst pa.
      - unfold findsInherited. now rewrite Hi. }
    rewrite (Root _ _ Hg). cbn [Js.truthy].
    apply getProp_obj; [exact HC|exact Hi].
Qed.

End Components.

Lemma component_name_shadows_context_witness :
  resolvePath (H := quietHost) (Some "bot") (VObj 1%nat) VUndef VUndef
              shadowed
  = Ret (VObj 0%nat) shadowed
  /\ resolvePath (H := quietHost) (Some "bot") (VObj 1%nat) VUndef VUndef
                 unshadowed
     = Ret (VNum 7)
           (with_container unshadowed
              (memoised (H := quietHost) (container unshadowed) "bot")).
Proof.
  split.
  - apply (proj1 (component_name_shadows_context (H := quietHost) "bot"
                    1%nat (mkObj "Object" [("bot", VNum 7)]) VUndef VUndef
                    shadowed eq_refl eq_refl eq_refl eq_refl eq_refl)
                 (mkFactoryItem "bot" true (VObj 0%nat)) VUndef);
      reflexivity.
  - apply (proj2 (component_name_shadows_context (H := quietHost) "bot"
                    1%nat (mkObj "Object" [("bot", VNum 7)]) VUndef VUndef
                    unshadowed eq_refl eq_refl eq_refl eq_refl eq_refl));
      try reflexivity.
    intros name k Hk. discriminate.
Defined.

(** ** Pipelines for children *)

(** However calls of [registerPipelineForChilds] for different children
    are mixed, none of them named as a key of [Object.prototype], the
    pipelines kept for one child are those that were there followed by
    those registered for it, in the order of the calls; and the state
    stays. *)
Theorem pipelines_for_children_keep_order (entries : list (string * Child.t))
  (childPipelines : ChildPipelines) (childName : string) (st : state) :
  forallb (fun e => negb (Js.inherited (fst e))) entries = true ->
  exists childPipelines',
    registerAllForChilds entries childPipelines st = Ret childPipelines' st
    /\ childList childPipelines' childName
       = (childList childPipelines childName
          ++ map snd
               (List.filter (fun e => String.eqb (fst e) childName)
                            entries))%list.
Proof.
  revert childPipelines.
  induction entries as [|[c [t l o]] entries IH]; intros cp Hall.
  - exists cp. split; [reflexivity|]. cbn. now rewrite app_nil_r.
  - cbn [forallb fst] in Hall. apply andb_prop in Hall.
    destruct Hall as [Hc Hall]. apply negb_true_iff in Hc.
    cbn [registerAllForChilds fst snd Child.tag Child.pipeline
         Child.overwrite].
    unfold bind. rewrite (registerPipelineForChilds_plain _ _ _ _ _ _ Hc).
    match goal with
    | |- exists _, registerAllForChilds _ ?x _ = _ /\ _ =>
        destruct (IH x Hall) as [cp' [E Hl]]
    end.
    exists cp'. split; [exact E|]. rewrite Hl.
    cbn [List.filter fst]. unfold childList at 1.
    destruct (String.eqb_spec c childName) as [<-|N].
    + rewrite Dict_get_put_eq. cbn [map snd]. now rewrite <- app_assoc.
    + rewrite Dict_get_put_ne by congruence. now destruct cp.
Qed.

Lemma pipelines_for_children_keep_order_witness :
  exists childPipelines',
    registerAllForChilds
      [("bot", Child.mk "main" ["get input"] true);
       ("web", Child.mk "main" [] true);
       ("bot", Child.mk "later" [] false)] None emptyInput
    = Ret childPipelines' emptyInput
    /\ childList childPipelines' "bot"
       = (childList None "bot"
          ++ map snd
               (List.filter (fun e => String.eqb (fst e) "bot")
                  [("bot", Child.mk "main" ["get input"] true);
                   ("web", Child.mk "main" [] true);
                   ("bot", Child.mk "later" [] false)]))%list.
Proof.
  apply (pipelines_for_children_keep_order
           [("bot", Child.mk "main" ["get input"] true);
            ("web", Child.mk "main" [] true);
            ("bot", Child.mk "later" [] false)] None "bot" emptyInput).
  reflexivity.
Defined.
